(** * Knowledge-graph core: entity resolver, store and graph builder

    A shallow embedding of [src/graph/entity_resolver.py],
    [src/graph/database.py] and [src/graph/graph_builder.py], and of the
    graph-building step of [run.py], followed by the properties of the
    specification that are about them and by further properties of the
    code (marked X1, X2, ...).

    Conventions of the embedding.
    - Python [str] is [string]; the text is ASCII, so [str.lower],
      [str.upper], [\s] and [\w] are their ASCII restrictions and SQLite's
      [LOWER] agrees with [str.lower].
    - Python exceptions are the [Raise] results of the [res] monad; a
      [try: ... except Exception] block is [try_except].
    - A Python [float] is the rational it denotes (finite floats only).
    - A [dict] with string keys is a [gmap string _]; a [set] is a [gset]. *)

From Stdlib Require Import ZArith QArith Ascii String List Lia Bool.
From stdpp Require Import base option list strings gmap sets pretty.

(** ** Python strings (ASCII) *)

Module PyStr.

(** [str.isspace] on ASCII: TAB, LF, VT, FF, CR, the four separators
    FS, GS, RS, US and the blank. *)
Definition is_space (c : ascii) : bool :=
  let n := nat_of_ascii c in
  ((9 <=? n) && (n <=? 13)) || ((28 <=? n) && (n <=? 32)).

Definition is_upper (c : ascii) : bool :=
  let n := nat_of_ascii c in (65 <=? n) && (n <=? 90).

Definition is_lower (c : ascii) : bool :=
  let n := nat_of_ascii c in (97 <=? n) && (n <=? 122).

Definition is_digit (c : ascii) : bool :=
  let n := nat_of_ascii c in (48 <=? n) && (n <=? 57).

(** The class [\w] of [re] on ASCII text. *)
Definition is_word (c : ascii) : bool :=
  is_upper c || is_lower c || is_digit c || (nat_of_ascii c =? 95).

Definition lower_char (c : ascii) : ascii :=
  if is_upper c then ascii_of_nat (nat_of_ascii c + 32) else c.

Definition upper_char (c : ascii) : ascii :=
  if is_lower c then ascii_of_nat (nat_of_ascii c - 32) else c.

Fixpoint map_chars (f : ascii -> ascii) (s : string) : string :=
  match s with
  | EmptyString => EmptyString
  | String c s' => String (f c) (map_chars f s')
  end.

Definition lower : string -> string := map_chars lower_char.
Definition upper : string -> string := map_chars upper_char.

Fixpoint lstrip (s : string) : string :=
  match s with
  | EmptyString => EmptyString
  | String c s' => if is_space c then lstrip s' else s
  end.

Definition rstrip (s : string) : string := String.rev (lstrip (String.rev s)).

Definition strip (s : string) : string := rstrip (lstrip s).

(** [s.split()]: the maximal runs of non-blank characters. *)
Fixpoint split_go (cur : string) (s : string) : list string :=
  match s with
  | EmptyString => if String.eqb cur "" then [] else [String.rev cur]
  | String c s' =>
      if is_space c
      then (if String.eqb cur "" then [] else [String.rev cur]) ++ split_go "" s'
      else split_go (String c cur) s'
  end.

Definition split (s : string) : list string := split_go "" s.

(** [sep.join(parts)] *)
Fixpoint join (sep : string) (parts : list string) : string :=
  match parts with
  | [] => ""
  | [p] => p
  | p :: ps => p +:+ sep +:+ join sep ps
  end.

(** [re.sub(r'\s+', ' ', s)] *)
Fixpoint collapse_ws_go (in_ws : bool) (s : string) : string :=
  match s with
  | EmptyString => EmptyString
  | String c s' =>
      if is_space c
      then (if in_ws then collapse_ws_go true s'
            else String " "%char (collapse_ws_go true s'))
      else String c (collapse_ws_go false s')
  end.

Definition collapse_ws : string -> string := collapse_ws_go false.

(** [re.sub(r'[^\w\s]', '', s)] *)
Fixpoint drop_punct (s : string) : string :=
  match s with
  | EmptyString => EmptyString
  | String c s' =>
      if is_word c || is_space c then String c (drop_punct s')
      else drop_punct s'
  end.

Definition startswith (s pre : string) : bool := String.prefix pre s.

Definition endswith (s suf : string) : bool :=
  String.prefix (String.rev suf) (String.rev s).

(** [s[:n]] for [0 <= n] *)
Definition take (n : nat) (s : string) : string := String.substring 0 n s.

(** [s[:-k]] for [0 < k] *)
Definition drop_last (k : nat) (s : string) : string :=
  take (String.length s - k) s.

(** [sub in s] *)
Fixpoint contains (sub s : string) : bool :=
  String.prefix sub s ||
  match s with
  | EmptyString => false
  | String _ s' => contains sub s'
  end.

(** [a < b] on [str] *)
Definition ltb (a b : string) : bool := String.ltb a b.

End PyStr.

(** ** Python values, exceptions *)

Inductive exn : Set :=
| AttributeError
| TypeError
| IndexError
| OverflowError.

Inductive res (A : Type) : Type :=
| Ok (a : A)
| Raise (e : exn).
Arguments Ok {A} a.
Arguments Raise {A} e.

(** The call returned. *)
Definition is_ok {A : Type} (r : res A) : bool :=
  match r with
  | Ok _ => true
  | Raise _ => false
  end.

Global Instance res_ret : MRet res := fun A a => Ok a.
Global Instance res_bind : MBind res := fun A B f m =>
  match m with
  | Ok a => f a
  | Raise e => Raise e
  end.

(** A [for] loop whose body may raise: the first exception ends the loop. *)
Fixpoint foldlM {A B : Type} (f : A -> B -> res A) (a : A) (l : list B) : res A :=
  match l with
  | [] => Ok a
  | b :: l' => a' ← f a b; foldlM f a' l'
  end.

(** [enumerate(l)] *)
Definition enumerate {A : Type} (l : list A) : list (nat * A) :=
  zip (seq 0 (length l)) l.

(** Scalar values held by the dictionaries of the resolver. *)
Inductive pyval : Type :=
| VNone
| VBool (b : bool)
| VInt (z : Z)
| VFloat (q : Q)
| VStr (s : string).

Module Py.

(** [bool(v)] *)
Definition truthy (v : pyval) : bool :=
  match v with
  | VNone => false
  | VBool b => b
  | VInt z => negb (z =? 0)%Z
  | VFloat q => negb (Qeq_bool q 0)
  | VStr s => negb (String.eqb s "")
  end.

(** The number a [bool], [int] or [float] denotes. *)
Definition to_num (v : pyval) : option Q :=
  match v with
  | VBool b => Some (if b then 1%Q else 0%Q)
  | VInt z => Some (inject_Z z)
  | VFloat q => Some q
  | _ => None
  end.

(** [a < b]: defined between two numbers and between two strings. *)
Definition lt (a b : pyval) : res bool :=
  match a, b with
  | VStr s, VStr t => Ok (PyStr.ltb s t)
  | _, _ =>
      match to_num a, to_num b with
      | Some x, Some y => Ok (negb (Qle_bool y x))
      | _, _ => Raise TypeError
      end
  end.

(** [a > b] *)
Definition gt (a b : pyval) : res bool := lt b a.

(** [a == b], as used for dictionary keys ([True == 1 == 1.0]). *)
Definition eqb (a b : pyval) : bool :=
  match a, b with
  | VNone, VNone => true
  | VStr s, VStr t => String.eqb s t
  | _, _ =>
      match to_num a, to_num b with
      | Some x, Some y => Qeq_bool x y
      | _, _ => false
      end
  end.

(** [d.get(k, dflt)] and [d.get(k)] *)
Definition get (d : gmap string pyval) (k : string) (dflt : pyval) : pyval :=
  default dflt (d !! k).

Definition get_none (d : gmap string pyval) (k : string) : pyval :=
  get d k VNone.

End Py.

(** ** [src/graph/entity_resolver.py] *)

Module EntityResolver.

Definition common_suffixes : list string :=
  ["plant"; "facility"; "unit"; "manufacturing"; "factory"; "site"].

(** One round of the suffix loop of [normalize_name]. *)
Definition strip_suffix (name suffix : string) : string :=
  if PyStr.endswith name (" " +:+ suffix)
  then PyStr.strip (PyStr.drop_last (String.length suffix) name)
  else name.

(** [normalize_name] on a non-empty [str]. *)
Definition normalize_text (name : string) : string :=
  let name := PyStr.strip (PyStr.lower name) in
  let name := PyStr.collapse_ws name in
  let name := PyStr.drop_punct name in
  fold_left strip_suffix common_suffixes name.

Definition normalize_name (name : pyval) : res string :=
  if negb (Py.truthy name) then Ok ""
  else match name with
       | VStr s => Ok (normalize_text s)
       | _ => Raise AttributeError
       end.

(** [parts.append(x.lower().strip())] under [if x:] *)
Definition location_part (x : pyval) : res (list string) :=
  if Py.truthy x then
    match x with
    | VStr s => Ok [PyStr.strip (PyStr.lower s)]
    | _ => Raise AttributeError
    end
  else Ok [].

Definition normalize_location (city state : pyval) : res string :=
  p1 ← location_part city;
  p2 ← location_part state;
  Ok (PyStr.join " " (p1 ++ p2)).

Definition tokens (s : string) : gset string :=
  list_to_set (PyStr.split (PyStr.lower s)).

Definition calculate_similarity (name1 name2 : string) : Q :=
  if String.eqb name1 "" || String.eqb name2 "" then 0%Q
  else
    let tokens1 := tokens name1 in
    let tokens2 := tokens name2 in
    if (size tokens1 =? 0) || (size tokens2 =? 0) then 0%Q
    else
      let intersection := tokens1 ∩ tokens2 in
      let union := tokens1 ∪ tokens2 in
      if size union =? 0 then 0%Q
      else Qmake (Z.of_nat (size intersection)) (Pos.of_nat (size union)).

(** [loc.lower() if loc else ""] *)
Definition loc_lower (loc : string) : string :=
  if String.eqb loc "" then "" else PyStr.lower loc.

Definition states : list string :=
  ["gujarat"; "tamil nadu"; "maharashtra"; "haryana"; "karnataka";
   "uttar pradesh"; "rajasthan"; "punjab"; "telangana"].

(** Rule 1 of [should_merge] on the normalized names: [Some b] when the
    block returns [b], [None] when control falls through to Rule 2. *)
Definition rule1 (norm_name1 norm_name2 loc1 loc2 : string) : option bool :=
  if String.eqb norm_name1 norm_name2 && negb (String.eqb norm_name1 "") then
    let loc1_lower := loc_lower loc1 in
    let loc2_lower := loc_lower loc2 in
    if String.eqb loc1_lower "" || String.eqb loc2_lower "" then
      if 5 <? String.length norm_name1 then Some true else Some false
    else
      let loc1_tokens : gset string := list_to_set (PyStr.split loc1_lower) in
      let loc2_tokens : gset string := list_to_set (PyStr.split loc2_lower) in
      if negb (size (loc1_tokens ∩ loc2_tokens) =? 0) then Some true else None
  else None.

(** Rule 2 of [should_merge]. The comparison [name_sim >= threshold] is
    exact on the rationals; on doubles it gives the same answer for the
    default threshold as long as a name has fewer than [2^50] tokens. *)
Definition rule2 (norm_name1 norm_name2 loc1 loc2 : string) (threshold : Q) : bool :=
  let name_sim := calculate_similarity norm_name1 norm_name2 in
  if Qle_bool threshold name_sim then
    let loc1_lower := loc_lower loc1 in
    let loc2_lower := loc_lower loc2 in
    if negb (String.eqb loc1_lower "") && negb (String.eqb loc2_lower "") then
      existsb (fun state => PyStr.contains state loc1_lower
                            && PyStr.contains state loc2_lower) states
    else false
  else false.

Definition default_threshold : Q := 8 # 10.

Definition should_merge (name1 : pyval) (loc1 : string)
    (name2 : pyval) (loc2 : string) (threshold : Q) : res bool :=
  norm_name1 ← normalize_name name1;
  norm_name2 ← normalize_name name2;
  match rule1 norm_name1 norm_name2 loc1 loc2 with
  | Some b => Ok b
  | None => Ok (rule2 norm_name1 norm_name2 loc1 loc2 threshold)
  end.

(** The three [if] statements run for one [(key, value)] of a later
    member of the group. Where the code reads [merged[key]] the key is
    present, [merged.get(key)] having just been found truthy. *)
Definition merge_field (merged : gmap string pyval) (kv : string * pyval)
    : res (gmap string pyval) :=
  let '(key, value) := kv in
  let merged :=
    if negb (Py.truthy (Py.get_none merged key)) && Py.truthy value
    then <[key := value]> merged else merged in
  merged ←
    (if (bool_decide (key = "event_date") || bool_decide (key = "announcement_date"))
        && Py.truthy value
     then
       if negb (Py.truthy (Py.get_none merged key)) then Ok (<[key := value]> merged)
       else
         b ← Py.lt value (Py.get_none merged key);
         Ok (if b : bool then <[key := value]> merged else merged)
     else Ok merged);
  if bool_decide (key = "confidence") && Py.truthy value
  then
    if negb (Py.truthy (Py.get_none merged key)) then Ok (<[key := value]> merged)
    else
      b ← Py.gt value (Py.get_none merged key);
      Ok (if b : bool then <[key := value]> merged else merged)
  else Ok merged.

(** [_merge_facility_group]. The items of a member are visited in the
    order of [map_to_list]; the three updates only touch the visited
    key, so the order of the visit does not change the result. *)
Definition _merge_facility_group (facilities : list (gmap string pyval))
    : res (gmap string pyval) :=
  match facilities with
  | [] => Raise IndexError
  | base :: others =>
      merged ← foldlM (fun merged fac => foldlM merge_field merged (map_to_list fac))
                      base others;
      let merged := <["was_merged" := VBool true]> merged in
      let merged := <["merge_count" := VInt (Z.of_nat (length facilities))]> merged in
      Ok merged
  end.

(** [division_groups]: a dictionary in insertion order, keyed by the
    value of the [division] field. *)
Fixpoint group_append (div : pyval) (fac : gmap string pyval)
    (groups : list (pyval * list (gmap string pyval)))
    : list (pyval * list (gmap string pyval)) :=
  match groups with
  | [] => [(div, [fac])]
  | (d, facs) :: rest =>
      if Py.eqb d div then (d, facs ++ [fac]) :: rest
      else (d, facs) :: group_append div fac rest
  end.

Definition division_groups (facilities : list (gmap string pyval))
    : list (pyval * list (gmap string pyval)) :=
  fold_left (fun groups fac =>
               group_append (Py.get fac "division" (VStr "Unknown")) fac groups)
            facilities [].

(** Body of the inner loop [for j, fac2 in enumerate(fac_list)]. *)
Definition inner_step (i : nat) (fac1 : gmap string pyval)
    (st : gset nat * list (gmap string pyval)) (jf : nat * gmap string pyval)
    : res (gset nat * list (gmap string pyval)) :=
  let '(merged_indices, merge_group) := st in
  let '(j, fac2) := jf in
  if bool_decide (j ≤ i) || bool_decide (j ∈ merged_indices) then Ok st
  else
    let name1 := Py.get fac1 "name" (VStr "") in
    let name2 := Py.get fac2 "name" (VStr "") in
    loc1 ← normalize_location (Py.get_none fac1 "city") (Py.get_none fac1 "state");
    loc2 ← normalize_location (Py.get_none fac2 "city") (Py.get_none fac2 "state");
    b ← should_merge name1 loc1 name2 loc2 default_threshold;
    if b : bool then Ok (merged_indices ∪ {[j]}, merge_group ++ [fac2])
    else Ok st.

(** Body of the outer loop [for i, fac1 in enumerate(fac_list)]. *)
Definition outer_step (fac_list : list (gmap string pyval))
    (st : gset nat * list (gmap string pyval)) (ifac : nat * gmap string pyval)
    : res (gset nat * list (gmap string pyval)) :=
  let '(merged_indices, resolved) := st in
  let '(i, fac1) := ifac in
  if bool_decide (i ∈ merged_indices) then Ok st
  else
    '(merged_indices, merge_group) ←
      foldlM (inner_step i fac1) (merged_indices, [fac1]) (enumerate fac_list);
    merged_fac ← _merge_facility_group merge_group;
    Ok (merged_indices, resolved ++ [merged_fac]).

(** Body of [for division, fac_list in division_groups.items()]. *)
Definition resolve_division (resolved : list (gmap string pyval))
    (group : pyval * list (gmap string pyval)) : res (list (gmap string pyval)) :=
  '(_, resolved) ← foldlM (outer_step group.2) (∅, resolved) (enumerate group.2);
  Ok resolved.

Definition resolve_facilities (facilities : list (gmap string pyval))
    : res (list (gmap string pyval)) :=
  match facilities with
  | [] => Ok []
  | _ => foldlM resolve_division [] (division_groups facilities)
  end.

(** The token set of a location, as Rule 1 builds it. *)
Definition loc_tokens (loc : string) : gset string :=
  list_to_set (PyStr.split (loc_lower loc)).

(** Rule A in the words of the specification: the normalized names are
    identical and non-empty, and either the location token sets
    intersect, or both locations are empty and the name is longer than
    five characters. *)
Definition rule_a_of_spec (norm_name1 norm_name2 loc1 loc2 : string) : bool :=
  String.eqb norm_name1 norm_name2 && negb (String.eqb norm_name1 "")
  && (negb (size (loc_tokens loc1 ∩ loc_tokens loc2) =? 0)
      || (String.eqb loc1 "" && String.eqb loc2 "" && (5 <? String.length norm_name1))).

(** The record a group of one candidate [fac] is turned into. *)
Definition tagged (fac : gmap string pyval) (n : nat) : gmap string pyval :=
  <["merge_count" := VInt (Z.of_nat n)]> (<["was_merged" := VBool true]> fac).

(** [rec['merge_count']] of a returned record. *)
Definition merge_count_of (rec : gmap string pyval) : Z :=
  match rec !! "merge_count" with
  | Some (VInt z) => z
  | _ => 0
  end.

Definition sum_merge_count (recs : list (gmap string pyval)) : Z :=
  foldr (fun rec acc => (merge_count_of rec + acc)%Z) 0%Z recs.

(** The number of candidates held by the division groups. *)
Definition group_total (groups : list (pyval * list (gmap string pyval))) : nat :=
  foldr (fun g acc => length g.2 + acc) 0 groups.

(** The indices of [idx] that are not yet in [merged_indices]. *)
Definition unmerged (merged_indices : gset nat) (idx : list nat) : list nat :=
  List.filter (fun k => bool_decide (k ∉ merged_indices)) idx.

(** A value the text helpers accept: a [str], or a falsy value, which
    they skip. *)
Definition text_like (v : pyval) : bool :=
  match v with
  | VStr _ => true
  | _ => negb (Py.truthy v)
  end.

(** A number, or a falsy value. *)
Definition num_like (v : pyval) : bool :=
  match v with
  | VStr s => String.eqb s ""
  | VNone => true
  | _ => true
  end.

(** The fields the resolver computes with hold what the upstream
    interface says: names, places and dates are text, the confidence is
    a number; any of them may be missing or null. *)
Definition field_ok (key : string) (v : pyval) : bool :=
  if bool_decide (key = "name") || bool_decide (key = "city")
     || bool_decide (key = "state") || bool_decide (key = "event_date")
     || bool_decide (key = "announcement_date")
  then text_like v
  else if bool_decide (key = "confidence") then num_like v
  else true.

Definition well_typed (fac : gmap string pyval) : Prop :=
  map_Forall (fun k v => field_ok k v = true) fac.

(** [unique_names.sort(key=len, reverse=True)]: the sort is stable, so
    among names of one length the earlier stays first. *)
Fixpoint insert_longer (x : string) (l : list string) : list string :=
  match l with
  | [] => [x]
  | y :: l' =>
      if String.length x <? String.length y then y :: insert_longer x l'
      else x :: l
  end.

Definition sort_longest_first (l : list string) : list string :=
  fold_right insert_longer [] l.

(** [resolve_duplicate_names]. The order in which [list(set(name_list))]
    lists the distinct names is the set's own; [set_order] stands for
    it. *)
Definition resolve_duplicate_names (set_order : list string -> list string)
    (name_list : list string) : res string :=
  match name_list with
  | [] => Ok ""
  | [name] => Ok name
  | _ =>
      match sort_longest_first (set_order name_list) with
      | name :: _ => Ok name
      | [] => Raise IndexError
      end
  end.



(** The confidence of [merged] is a true number and at least [q]. *)
Definition confidence_at_least (q : Q) (merged : gmap string pyval) : Prop :=
  Py.truthy (Py.get_none merged "confidence") = true
  ∧ ∃ qm, Py.to_num (Py.get_none merged "confidence") = Some qm ∧ (q <= qm)%Q.

End EntityResolver.

(** ** [src/graph/database.py]: the store *)

(** Scalar fields of an extracted item. The items are JSON documents
    (text, null, booleans, integers); their fields are bound to SQL
    parameters by [sqlite3]. *)
Inductive jval : Type :=
| JNull
| JBool (b : bool)
| JInt (z : Z)
| JStr (s : string).

Module Database.

Record table (R : Type) : Type := {
  rows : list R;
  (** the [sqlite_sequence] entry of an [AUTOINCREMENT] key *)
  seq : Z
}.
Arguments rows {R} t.
Arguments seq {R} t.

Definition empty_table {R : Type} : table R := {| rows := []; seq := 0 |}.

(** [INSERT]: the new row gets the next key, which is the [lastrowid]. *)
Definition table_insert {R : Type} (mk : Z -> R) (t : table R) : table R * Z :=
  let id := (seq t + 1)%Z in
  ({| rows := rows t ++ [mk id]; seq := id |}, id).

(** An [INSERT OR IGNORE] that a [UNIQUE] conflict turns into a no-op:
    no row is written, but the key the statement had drawn stays
    recorded in [sqlite_sequence]. *)
Definition table_skip {R : Type} (t : table R) : table R :=
  {| rows := rows t; seq := (seq t + 1)%Z |}.

(** Columns with [TEXT] affinity hold [NULL] or text, [INTEGER] keys
    an integer or [NULL], [REAL] columns a number or [NULL]. *)
Record company_row : Type := {
  co_id : Z;
  co_name : string
}.

Record division_row : Type := {
  dv_id : Z;
  dv_company_id : Z;
  dv_name : string
}.

Record source_row : Type := {
  s_id : Z;
  s_url : option string;
  s_title : option string;
  s_fetched_at : option string;
  s_mime_type : option string;
  s_publish_date : option string;
  s_source_type : option string
}.

Record facility_row : Type := {
  f_id : Z;
  f_division_id : option Z;
  f_name : option string;
  f_city : option string;
  f_state : option string;
  f_country : option string;
  f_normalized_name : option string
}.

Record event_row : Type := {
  e_id : Z;
  e_facility_id : option Z;
  e_event_type : option string;
  e_event_date : option string;
  e_status : option string;
  e_expansion_type : option string;
  e_confidence : option Q
}.

(** [char_start] and [char_end] are never written and stay [NULL]. *)
Record evidence_row : Type := {
  ev_id : Z;
  ev_source_id : option Z;
  ev_entity_type : option string;
  ev_entity_id : option Z;
  ev_text_snippet : option string;
  ev_confidence : option Q
}.

Record job_row : Type := {
  j_id : Z;
  j_facility_id : option Z;
  j_title : option string;
  j_location : option string;
  j_division_id : option Z;
  j_is_factory_role : option Z;
  j_source_id : option Z;
  j_posted_date : option string;
  j_description : option string
}.

Record db : Type := {
  companies : table company_row;
  divisions : table division_row;
  sources : table source_row;
  facilities : table facility_row;
  events : table event_row;
  evidence : table evidence_row;
  jobs : table job_row
}.

(** The store after [_create_tables] on a new file. *)
Definition empty_db : db := {|
  companies := empty_table;
  divisions := empty_table;
  sources := empty_table;
  facilities := empty_table;
  events := empty_table;
  evidence := empty_table;
  jobs := empty_table
|}.

Definition set_companies (t : table company_row) (d : db) : db :=
  {| companies := t; divisions := divisions d; sources := sources d;
     facilities := facilities d; events := events d; evidence := evidence d;
     jobs := jobs d |}.
Definition set_divisions (t : table division_row) (d : db) : db :=
  {| companies := companies d; divisions := t; sources := sources d;
     facilities := facilities d; events := events d; evidence := evidence d;
     jobs := jobs d |}.
Definition set_sources (t : table source_row) (d : db) : db :=
  {| companies := companies d; divisions := divisions d; sources := t;
     facilities := facilities d; events := events d; evidence := evidence d;
     jobs := jobs d |}.
Definition set_facilities (t : table facility_row) (d : db) : db :=
  {| companies := companies d; divisions := divisions d; sources := sources d;
     facilities := t; events := events d; evidence := evidence d;
     jobs := jobs d |}.
Definition set_events (t : table event_row) (d : db) : db :=
  {| companies := companies d; divisions := divisions d; sources := sources d;
     facilities := facilities d; events := t; evidence := evidence d;
     jobs := jobs d |}.
Definition set_evidence (t : table evidence_row) (d : db) : db :=
  {| companies := companies d; divisions := divisions d; sources := sources d;
     facilities := facilities d; events := events d; evidence := t;
     jobs := jobs d |}.
Definition set_jobs (t : table job_row) (d : db) : db :=
  {| companies := companies d; divisions := divisions d; sources := sources d;
     facilities := facilities d; events := events d; evidence := evidence d;
     jobs := t |}.

Record statistics : Type := {
  total_companies : nat;
  total_divisions : nat;
  total_facilities : nat;
  total_events : nat;
  total_sources : nat;
  total_evidence : nat;
  total_jobs : nat
}.

(** [get_statistics]: [SELECT COUNT( * )] of every table. *)
Definition get_statistics (d : db) : statistics := {|
  total_companies := length (rows (companies d));
  total_divisions := length (rows (divisions d));
  total_facilities := length (rows (facilities d));
  total_events := length (rows (events d));
  total_sources := length (rows (sources d));
  total_evidence := length (rows (evidence d));
  total_jobs := length (rows (jobs d))
|}.

(** A computation on the store that may raise; what was committed
    before the exception stays committed. *)
Definition M (A : Type) : Type := db -> res A * db.

Definition ret {A : Type} (a : A) : M A := fun d => (Ok a, d).

Definition bind {A B : Type} (m : M A) (f : A -> M B) : M B := fun d =>
  match m d with
  | (Ok a, d') => f a d'
  | (Raise e, d') => (Raise e, d')
  end.

Definition lift {A : Type} (r : res A) : M A := fun d => (r, d).

(** [try: return m  except Exception: return dflt] *)
Definition try_except {A : Type} (m : M A) (dflt : A) : M A := fun d =>
  match m d with
  | (Ok a, d') => (Ok a, d')
  | (Raise _, d') => (Ok dflt, d')
  end.

(** A [for] loop over [l] threading an accumulator. *)
Fixpoint for_each {A B : Type} (f : A -> B -> M A) (a : A) (l : list B) : M A :=
  match l with
  | [] => ret a
  | b :: l' => bind (f a b) (fun a' => for_each f a' l')
  end.

(** Binding a Python value to a parameter that lands in a [TEXT]
    column or under [LOWER]: integers are rendered in decimal, and an
    [int] outside 64 bits is refused by [sqlite3] with [OverflowError]. *)
Definition bind_text (v : jval) : res (option string) :=
  match v with
  | JNull => Ok None
  | JStr s => Ok (Some s)
  | JBool b => Ok (Some (if b then "1" else "0"))
  | JInt z =>
      if ((- 2 ^ 63 <=? z) && (z <? 2 ^ 63))%Z then Ok (Some (pretty z))
      else Raise OverflowError
  end.

(** SQL [LOWER]: [NULL] stays [NULL]. *)
Definition sql_lower (x : option string) : option string := PyStr.lower <$> x.

(** SQL [=]: a comparison with [NULL] is not true. *)
Definition sql_eq_text (x y : option string) : bool :=
  match x, y with
  | Some a, Some b => String.eqb a b
  | _, _ => false
  end.

Definition sql_eq_int (x y : option Z) : bool :=
  match x, y with
  | Some a, Some b => (a =? b)%Z
  | _, _ => false
  end.

(** The order of [ORDER BY] and of [MIN]/[MAX] on a [TEXT] column:
    [NULL] first, then the texts in byte order. *)
Definition sql_lt (x y : option string) : bool :=
  match x, y with
  | None, None => false
  | None, Some _ => true
  | Some _, None => false
  | Some a, Some b => String.ltb a b
  end.

(** [x >= p] and [x <= p] for a text parameter [p]. *)
Definition sql_ge (x : option string) (p : string) : bool :=
  match x with
  | Some a => negb (String.ltb a p)
  | None => false
  end.

Definition sql_le (x : option string) (p : string) : bool :=
  match x with
  | Some a => negb (String.ltb p a)
  | None => false
  end.

(** [LEFT JOIN]: the matches, or one all-[NULL] row when there is none. *)
Definition left_join {B : Type} (matches : list B) : list (option B) :=
  match matches with
  | [] => [None]
  | _ => Some <$> matches
  end.

(** [clear_all_data]: [DELETE FROM] every table. The rows go; the
    [sqlite_sequence] entries of the [AUTOINCREMENT] keys stay. *)
Definition clear_table {R : Type} (t : table R) : table R :=
  {| rows := []; seq := seq t |}.

Definition clear_all_data (d : db) : db :=
  {| companies := clear_table (companies d);
     divisions := clear_table (divisions d);
     sources := clear_table (sources d);
     facilities := clear_table (facilities d);
     events := clear_table (events d);
     evidence := clear_table (evidence d);
     jobs := clear_table (jobs d) |}.

End Database.

(** ** [src/graph/graph_builder.py]: ingestion *)

Module Item.

(** [bool(v)] *)
Definition truthy (v : jval) : bool :=
  match v with
  | JNull => false
  | JBool b => b
  | JInt z => negb (z =? 0)%Z
  | JStr s => negb (String.eqb s "")
  end.

(** [d.get(k, dflt)] and [d.get(k)] *)
Definition get (d : gmap string jval) (k : string) (dflt : jval) : jval :=
  default dflt (d !! k).

Definition get_none (d : gmap string jval) (k : string) : jval :=
  get d k JNull.

(** [item['source_data']]: its scalar entries and the two optional
    lists of pre-structured candidates. *)
Record source_data : Type := {
  fields : gmap string jval;
  structured_facilities : option (list (gmap string jval));
  structured_jobs : option (list (gmap string jval))
}.

(** An extracted item; [entities.get('facilities', [])] and
    [entities.get('job_titles', [])] are the two lists of mentions. *)
Record item : Type := {
  source : source_data;
  entities_facilities : list (gmap string jval);
  entities_job_titles : list (gmap string jval)
}.

End Item.

Module GraphBuilder.
Import Database.

Notation "x <- m ;; k" := (bind m (fun x => k))
  (at level 100, m at next level, right associativity, only parsing).

Definition division_map : list (string * string) :=
  [("MSWIL", "Wiring Systems"); ("MSW", "Wiring Systems");
   ("WIRING", "Wiring Systems"); ("SMR", "Vision Systems");
   ("VISION", "Vision Systems"); ("SMP", "Polymers");
   ("POLYMER", "Polymers"); ("SEATING", "Seating Systems");
   ("LOGISTICS", "Logistics"); ("PKC", "Wiring Systems")].

Definition city_to_state : list (string * string) :=
  [("Sanand", "Gujarat"); ("Ahmedabad", "Gujarat"); ("Navagam", "Gujarat");
   ("Pune", "Maharashtra"); ("Chakan", "Maharashtra"); ("Mumbai", "Maharashtra");
   ("Chennai", "Tamil Nadu"); ("Hosur", "Tamil Nadu");
   ("Bangalore", "Karnataka"); ("Bengaluru", "Karnataka");
   ("Manesar", "Haryana"); ("Gurgaon", "Haryana"); ("Gurugram", "Haryana");
   ("Noida", "Uttar Pradesh"); ("Haridwar", "Uttarakhand");
   ("Bawal", "Haryana"); ("Dharuhera", "Haryana")].

(** [table.get(k)] on one of the two constant dictionaries. *)
Fixpoint assoc (k : string) (l : list (string * string)) : option string :=
  match l with
  | [] => None
  | (k', v) :: l' => if String.eqb k' k then Some v else assoc k l'
  end.

Record stats : Type := {
  st_divisions : nat;
  st_facilities : nat;
  st_events : nat;
  st_jobs : nat;
  st_sources : nat
}.

Definition stats0 : stats :=
  {| st_divisions := 0; st_facilities := 0; st_events := 0;
     st_jobs := 0; st_sources := 0 |}.

Definition incr_sources (s : stats) : stats :=
  {| st_divisions := st_divisions s; st_facilities := st_facilities s;
     st_events := st_events s; st_jobs := st_jobs s;
     st_sources := S (st_sources s) |}.
Definition incr_facilities (s : stats) : stats :=
  {| st_divisions := st_divisions s; st_facilities := S (st_facilities s);
     st_events := st_events s; st_jobs := st_jobs s;
     st_sources := st_sources s |}.
Definition incr_events (s : stats) : stats :=
  {| st_divisions := st_divisions s; st_facilities := st_facilities s;
     st_events := S (st_events s); st_jobs := st_jobs s;
     st_sources := st_sources s |}.
Definition incr_jobs (s : stats) : stats :=
  {| st_divisions := st_divisions s; st_facilities := st_facilities s;
     st_events := st_events s; st_jobs := S (st_jobs s);
     st_sources := st_sources s |}.

(** Truth of an [Optional[int]] key. *)
Definition id_truthy (id : option Z) : bool :=
  match id with
  | Some z => negb (z =? 0)%Z
  | None => false
  end.

Definition _normalize_name (name : jval) : res string :=
  if negb (Item.truthy name) then Ok ""
  else match name with
       | JStr s => Ok (PyStr.collapse_ws (PyStr.strip (PyStr.lower s)))
       | _ => Raise AttributeError
       end.

Definition _extract_city_from_text (text : jval) : res (option string) :=
  match text with
  | JStr t =>
      Ok (List.find (fun city => PyStr.contains (PyStr.lower city) (PyStr.lower t))
                    (fst <$> city_to_state))
  | _ => Raise AttributeError
  end.

Definition _infer_division (text : jval) : res string :=
  match text with
  | JStr t =>
      let text_upper := PyStr.upper t in
      match List.find (fun kv => PyStr.contains (fst kv) text_upper) division_map with
      | Some (_, full_name) => Ok full_name
      | None =>
          if PyStr.contains "WIRING" text_upper || PyStr.contains "HARNESS" text_upper
          then Ok "Wiring Systems"
          else if PyStr.contains "VISION" text_upper || PyStr.contains "MIRROR" text_upper
          then Ok "Vision Systems"
          else if PyStr.contains "POLYMER" text_upper then Ok "Polymers"
          else if PyStr.contains "SEATING" text_upper then Ok "Seating Systems"
          else if PyStr.contains "LOGISTIC" text_upper then Ok "Logistics"
          else Ok "Unknown"
      end
  | _ => Raise AttributeError
  end.

Definition _ensure_company : M Z := fun d =>
  match List.filter (fun r => String.eqb (co_name r) "Motherson") (rows (companies d)) with
  | r :: _ => (Ok (co_id r), d)
  | [] =>
      let '(t, id) :=
        table_insert (fun id => {| co_id := id; co_name := "Motherson" |}) (companies d) in
      (Ok id, set_companies t d)
  end.

(** No [try] here: [division_name.upper()] on a value that is not a
    [str] raises into the caller. *)
Definition _ensure_division (company_id : Z) (division_name : jval) : M Z :=
  match division_name with
  | JStr s =>
      let normalized := default s (assoc (PyStr.upper s) division_map) in
      fun d =>
        match List.filter (fun r => (dv_company_id r =? company_id)%Z
                                    && String.eqb (dv_name r) normalized)
                          (rows (divisions d)) with
        | r :: _ => (Ok (dv_id r), d)
        | [] =>
            let '(t, id) :=
              table_insert (fun id => {| dv_id := id; dv_company_id := company_id;
                                         dv_name := normalized |}) (divisions d) in
            (Ok id, set_divisions t d)
        end
  | _ => lift (Raise AttributeError)
  end.

(** [INSERT OR IGNORE INTO sources]: a row with the same non-null [url]
    makes the statement write no row; the sequence of the table still
    advances, and the [lastrowid] of the fresh connection is then [0]. *)
Definition _insert_source (source_data : gmap string jval) : M (option Z) :=
  try_except
    (url <- lift (bind_text (Item.get source_data "url" (JStr "unknown"))) ;;
     title <- lift (bind_text (Item.get source_data "title" (JStr "Untitled"))) ;;
     fetched_at <- lift (bind_text (Item.get_none source_data "fetched_at")) ;;
     mime <- lift (bind_text (Item.get source_data "mime" (JStr "text/html"))) ;;
     publish_dt <- lift (bind_text (Item.get_none source_data "publish_dt")) ;;
     source_type <- lift (bind_text (Item.get source_data "source_type" (JStr "web"))) ;;
     fun d =>
       if existsb (fun r => sql_eq_text (s_url r) url) (rows (sources d))
       then (Ok (Some 0%Z), set_sources (table_skip (sources d)) d)
       else
         let '(t, id) :=
           table_insert (fun id => {| s_id := id; s_url := url; s_title := title;
                                      s_fetched_at := fetched_at; s_mime_type := mime;
                                      s_publish_date := publish_dt;
                                      s_source_type := source_type |}) (sources d) in
         (Ok (Some id), set_sources t d))
    None.

Definition _insert_facility (fac_data : gmap string jval) (division_id : Z)
    : M (option Z) :=
  try_except
    (name_q <- lift (bind_text (Item.get fac_data "name" (JStr ""))) ;;
     city_q <- lift (bind_text (Item.get fac_data "city" (JStr ""))) ;;
     fun d =>
       match List.filter
               (fun r => sql_eq_text (sql_lower (f_name r)) (sql_lower name_q)
                         && sql_eq_text (sql_lower (f_city r)) (sql_lower city_q))
               (rows (facilities d)) with
       | r :: _ => (Ok (Some (f_id r)), d)
       | [] =>
           (normalized <- lift (_normalize_name (Item.get fac_data "name" (JStr ""))) ;;
            name <- lift (bind_text (Item.get fac_data "name" (JStr ""))) ;;
            city <- lift (bind_text (Item.get_none fac_data "city")) ;;
            state <- lift (bind_text (Item.get_none fac_data "state")) ;;
            country <- lift (bind_text (Item.get fac_data "country" (JStr "India"))) ;;
            fun d =>
              let '(t, id) :=
                table_insert (fun id => {| f_id := id; f_division_id := Some division_id;
                                           f_name := name; f_city := city;
                                           f_state := state; f_country := country;
                                           f_normalized_name := Some normalized |})
                             (facilities d) in
              (Ok (Some id), set_facilities t d)) d
       end)
    None.

(** [_insert_event] on the dictionary literals of [build_graph]: they
    carry [facility_id] and [event_type], [status], and in the
    structured branch [event_date] and [expansion_type] (read as [None]
    when absent); none carries [confidence], which is the default. *)
Definition _insert_event (facility_id : Z)
    (event_type event_date status expansion_type : jval) : M (option Z) :=
  try_except
    (event_type <- lift (bind_text event_type) ;;
     event_date <- lift (bind_text event_date) ;;
     status <- lift (bind_text status) ;;
     expansion_type <- lift (bind_text expansion_type) ;;
     fun d =>
       let '(t, id) :=
         table_insert (fun id => {| e_id := id; e_facility_id := Some facility_id;
                                    e_event_type := event_type;
                                    e_event_date := event_date; e_status := status;
                                    e_expansion_type := expansion_type;
                                    e_confidence := Some (8 # 10) |}) (events d) in
       (Ok (Some id), set_events t d))
    None.

Definition _insert_job (job_data : gmap string jval) (source_id : option Z)
    : M (option Z) :=
  try_except
    (title <- lift (bind_text (Item.get job_data "title" (JStr ""))) ;;
     location <- lift (bind_text (Item.get job_data "location" (JStr "India"))) ;;
     posted_date <- lift (bind_text (Item.get_none job_data "posted_date")) ;;
     description <- lift (bind_text (Item.get_none job_data "description")) ;;
     let is_factory_role :=
       if Item.truthy (Item.get_none job_data "is_factory_role") then 1%Z else 0%Z in
     fun d =>
       let '(t, id) :=
         table_insert (fun id => {| j_id := id; j_facility_id := None;
                                    j_title := title; j_location := location;
                                    j_division_id := None;
                                    j_is_factory_role := Some is_factory_role;
                                    j_source_id := source_id;
                                    j_posted_date := posted_date;
                                    j_description := description |}) (jobs d) in
       (Ok (Some id), set_jobs t d))
    None.

(** [text[:500]] needs a [str]; the slice of anything else raises
    inside the [try]. *)
Definition _insert_evidence (source_id : option Z) (entity_type : string)
    (entity_id : Z) (text : jval) (confidence : Q) : M unit :=
  try_except
    (match text with
     | JStr s =>
         fun d =>
           let '(t, _) :=
             table_insert (fun id => {| ev_id := id; ev_source_id := source_id;
                                        ev_entity_type := Some entity_type;
                                        ev_entity_id := Some entity_id;
                                        ev_text_snippet := Some (PyStr.take 500 s);
                                        ev_confidence := Some confidence |})
                          (evidence d) in
           (Ok tt, set_evidence t d)
     | _ => lift (Raise TypeError)
     end)
    tt.

(** Body of [for fac_data in source_data['structured_facilities']]. *)
Definition structured_facility_step (company_id : Z) (source_id : option Z)
    (st : stats) (fac_data : gmap string jval) : M stats :=
  let division_name := Item.get fac_data "division" (JStr "Unknown") in
  division_id <- _ensure_division company_id division_name ;;
  facility_id <- _insert_facility fac_data division_id ;;
  match facility_id with
  | Some fid =>
      if id_truthy facility_id then
        _ <- _insert_event fid (JStr "operational")
               (Item.get_none fac_data "date")
               (Item.get fac_data "status" (JStr "operational"))
               (Item.get_none fac_data "expansion_type") ;;
        _ <- _insert_evidence source_id "FACILITY" fid
               (Item.get fac_data "name" (JStr "")) (9 # 10) ;;
        ret (incr_events (incr_facilities st))
      else ret st
  | None => ret st
  end.

(** Body of [for job_data in source_data['structured_jobs']]. *)
Definition structured_job_step (source_id : option Z)
    (st : stats) (job_data : gmap string jval) : M stats :=
  job_id <- _insert_job job_data source_id ;;
  ret (if id_truthy job_id then incr_jobs st else st).

(** Body of [for facility_entity in entities.get('facilities', [])]. *)
Definition entity_facility_step (company_id : Z) (source_id : option Z)
    (st : stats) (facility_entity : gmap string jval) : M stats :=
  let text := Item.get facility_entity "text" (JStr "") in
  city <- lift (_extract_city_from_text text) ;;
  let state := match city with
               | Some c => if String.eqb c "" then None else assoc c city_to_state
               | None => None
               end in
  division_name <- lift (_infer_division text) ;;
  division_id <- _ensure_division company_id (JStr division_name) ;;
  let fac_data : gmap string jval :=
    <["name" := text]>
    (<["city" := from_option JStr JNull city]>
    (<["state" := from_option JStr JNull state]>
    (<["division" := JStr division_name]>
    (<["status" := JStr "operational"]> ∅)))) in
  facility_id <- _insert_facility fac_data division_id ;;
  match facility_id with
  | Some fid =>
      if id_truthy facility_id then
        _ <- _insert_event fid (JStr "operational") JNull (JStr "operational") JNull ;;
        _ <- _insert_evidence source_id "FACILITY" fid text (8 # 10) ;;
        ret (incr_events (incr_facilities st))
      else ret st
  | None => ret st
  end.

(** Body of [for job_entity in entities.get('job_titles', [])]. *)
Definition entity_job_step (source_id : option Z)
    (st : stats) (job_entity : gmap string jval) : M stats :=
  let job_data : gmap string jval :=
    <["title" := Item.get job_entity "text" (JStr "")]>
    (<["location" := Item.get job_entity "location" (JStr "India")]>
    (<["is_factory_role" := Item.get job_entity "is_factory_role" (JBool true)]> ∅)) in
  job_id <- _insert_job job_data source_id ;;
  ret (if id_truthy job_id then incr_jobs st else st).

(** Body of [for item in extracted_data]. *)
Definition item_step (company_id : Z) (st : stats) (item : Item.item) : M stats :=
  let source_data := Item.source item in
  source_id <- _insert_source (Item.fields source_data) ;;
  let st := if id_truthy source_id then incr_sources st else st in
  st <- match Item.structured_facilities source_data with
        | Some facs => for_each (structured_facility_step company_id source_id) st facs
        | None => ret st
        end ;;
  st <- match Item.structured_jobs source_data with
        | Some js => for_each (structured_job_step source_id) st js
        | None => ret st
        end ;;
  st <- for_each (entity_facility_step company_id source_id) st
                 (Item.entities_facilities item) ;;
  for_each (entity_job_step source_id) st (Item.entities_job_titles item).

Definition build_graph (extracted_data : list Item.item) : M stats :=
  company_id <- _ensure_company ;;
  for_each (item_step company_id) stats0 extracted_data.

(** *** The query layer *)

(** [x or dflt] on a text cell: [NULL] and the empty text are falsy. *)
Definition or_text (x : option string) (dflt : string) : string :=
  match x with
  | Some s => if String.eqb s "" then dflt else s
  | None => dflt
  end.

(** [x or dflt] on a [REAL] cell. *)
Definition or_real (x : option Q) (dflt : Q) : Q :=
  match x with
  | Some q => if Qeq_bool q 0 then dflt else q
  | None => dflt
  end.

(** [if p:] on an optional text argument *)
Definition given (p : option string) : option string :=
  match p with
  | Some s => if String.eqb s "" then None else Some s
  | None => None
  end.

Definition is_null {A : Type} (x : option A) : bool :=
  match x with
  | Some _ => false
  | None => true
  end.

Definition sql_min (l : list (option string)) : option string :=
  fold_left (fun acc x =>
               match x, acc with
               | None, _ => acc
               | Some _, None => x
               | Some s, Some a => if String.ltb s a then x else acc
               end) l None.

Definition sql_max (l : list (option string)) : option string :=
  fold_left (fun acc x =>
               match x, acc with
               | None, _ => acc
               | Some _, None => x
               | Some s, Some a => if String.ltb a s then x else acc
               end) l None.

(** [LEFT JOIN events e ON f.id = e.facility_id] *)
Definition events_of (d : db) (f : facility_row) : list event_row :=
  List.filter (fun e => sql_eq_int (e_facility_id e) (Some (f_id f))) (rows (events d)).

(** [ORDER BY event_date DESC LIMIT 1]: an event with the greatest
    date, [NULL] being the least; among equal dates the first scanned
    (SQLite leaves that choice open). *)
Definition latest_event (es : list event_row) : option event_row :=
  fold_left (fun best e =>
               match best with
               | None => Some e
               | Some b => if sql_lt (e_event_date b) (e_event_date e)
                           then Some e else best
               end) es None.

(** [sources s JOIN evidence ev ON ev.source_id = s.id WHERE
    ev.entity_id = f.id AND ev.entity_type = 'FACILITY'] *)
Definition facility_sources (d : db) (f : facility_row) : list source_row :=
  flat_map (fun s =>
    flat_map (fun ev =>
      if sql_eq_int (ev_source_id ev) (Some (s_id s))
         && sql_eq_int (ev_entity_id ev) (Some (f_id f))
         && sql_eq_text (ev_entity_type ev) (Some "FACILITY")
      then [s] else []) (rows (evidence d))) (rows (sources d)).

(** [LEFT JOIN divisions d ON f.division_id = d.id]; [id] is the
    primary key, so at most one division matches. *)
Definition division_of (d : db) (f : facility_row) : option division_row :=
  List.find (fun dv => sql_eq_int (f_division_id f) (Some (dv_id dv)))
            (rows (divisions d)).

Record facility_result : Type := {
  fr_id : Z;
  fr_name : option string;
  fr_facility : option string;
  fr_city : option string;
  fr_state : option string;
  fr_country : option string;
  fr_division : option string;
  fr_first_date : option string;
  fr_last_event_date : option string;
  fr_status : string;
  fr_expansion_type : option string;
  fr_url : string;
  fr_source_title : string;
  fr_publish_date : option string;
  fr_confidence : Q
}.

(** The mapping built from the row of facility [f]. *)
Definition facility_result_of (d : db) (f : facility_row) : facility_result :=
  let es := events_of d f in
  let src := head (facility_sources d f) in
  {| fr_id := f_id f;
     fr_name := f_name f;
     fr_facility := f_name f;
     fr_city := f_city f;
     fr_state := f_state f;
     fr_country := f_country f;
     fr_division := dv_name <$> division_of d f;
     fr_first_date := sql_min (e_event_date <$> es);
     fr_last_event_date := sql_max (e_event_date <$> es);
     fr_status := or_text (latest_event es ≫= e_status) "operational";
     fr_expansion_type :=
       List.find (fun e => negb (is_null (e_expansion_type e))) es ≫= e_expansion_type;
     fr_url := or_text (src ≫= s_url)
                       "https://www.motherson.com/contact/address-directory";
     fr_source_title := or_text (src ≫= s_title) "Motherson Address Directory";
     fr_publish_date := src ≫= s_publish_date;
     fr_confidence := 9 # 10 |}.

(** The [WHERE] clause: [AND d.name = ?] and [AND f.state = ?] when the
    arguments are given. *)
Definition facility_where (d : db) (division state : option string)
    (f : facility_row) : bool :=
  match given division with
  | Some p => sql_eq_text (dv_name <$> division_of d f) (Some p)
  | None => true
  end &&
  match given state with
  | Some p => sql_eq_text (f_state f) (Some p)
  | None => true
  end.

(** The status filter, applied to the mapping after the defaults. *)
Definition status_filter (status : option string) (r : facility_result) : bool :=
  match given status with
  | Some p => String.eqb (PyStr.lower (fr_status r)) (PyStr.lower p)
  | None => true
  end.

(** [query_facilities]: one group per facility, in key order. *)
Definition query_facilities (d : db) (division state status : option string)
    : list facility_result :=
  List.filter (status_filter status)
    (facility_result_of d <$>
       List.filter (facility_where d division state) (rows (facilities d))).

(** A row of the two [SELECT DISTINCT] statements of [query_expansions]. *)
Record exp_row : Type := {
  r_facility : option string;
  r_city : option string;
  r_state : option string;
  r_division : option string;
  r_event_date : option string;
  r_expansion_type : option string;
  r_status : option string;
  r_confidence : option Q;
  r_url : option string;
  r_source_title : option string;
  r_publish_date : option string
}.

Definition text_same (x y : option string) : bool :=
  match x, y with
  | None, None => true
  | Some a, Some b => String.eqb a b
  | _, _ => false
  end.

Definition real_same (x y : option Q) : bool :=
  match x, y with
  | None, None => true
  | Some a, Some b => Qeq_bool a b
  | _, _ => false
  end.

(** Two rows are duplicates for [DISTINCT]. *)
Definition row_same (a b : exp_row) : bool :=
  text_same (r_facility a) (r_facility b) && text_same (r_city a) (r_city b)
  && text_same (r_state a) (r_state b) && text_same (r_division a) (r_division b)
  && text_same (r_event_date a) (r_event_date b)
  && text_same (r_expansion_type a) (r_expansion_type b)
  && text_same (r_status a) (r_status b) && real_same (r_confidence a) (r_confidence b)
  && text_same (r_url a) (r_url b) && text_same (r_source_title a) (r_source_title b)
  && text_same (r_publish_date a) (r_publish_date b).

Fixpoint distinct (l : list exp_row) : list exp_row :=
  match l with
  | [] => []
  | x :: l' => x :: List.filter (fun y => negb (row_same x y)) (distinct l')
  end.

Fixpoint insert_desc (x : exp_row) (l : list exp_row) : list exp_row :=
  match l with
  | [] => [x]
  | y :: l' =>
      if sql_lt (r_event_date x) (r_event_date y) then y :: insert_desc x l'
      else x :: l
  end.

(** [ORDER BY e.event_date DESC]; rows with the same date stay in scan
    order (SQLite leaves the order of ties open). *)
Definition order_by_date_desc (l : list exp_row) : list exp_row :=
  fold_right insert_desc [] l.

(** The rows the [FROM ... JOIN ... LEFT JOIN ...] clause makes of one
    event; [expansion_type] is the sixth column of the [SELECT]. *)
Definition joined_rows (d : db) (expansion_type : option string) (e : event_row)
    : list exp_row :=
  flat_map (fun f =>
    flat_map (fun dv =>
      flat_map (fun ev =>
        (fun s =>
           {| r_facility := f_name f;
              r_city := f_city f;
              r_state := f_state f;
              r_division := dv_name <$> dv;
              r_event_date := e_event_date e;
              r_expansion_type := expansion_type;
              r_status := e_status e;
              r_confidence := e_confidence e;
              r_url := s ≫= s_url;
              r_source_title := s ≫= s_title;
              r_publish_date := s ≫= s_publish_date |})
        <$> left_join
              match ev with
              | Some ev => List.filter (fun s => sql_eq_int (ev_source_id ev) (Some (s_id s)))
                                       (rows (sources d))
              | None => []
              end)
        (left_join
           (List.filter (fun ev => sql_eq_int (ev_entity_id ev) (Some (f_id f))
                                   && sql_eq_text (ev_entity_type ev) (Some "FACILITY"))
                        (rows (evidence d)))))
      (left_join
         (List.filter (fun dv => sql_eq_int (f_division_id f) (Some (dv_id dv)))
                      (rows (divisions d)))))
    (List.filter (fun f => sql_eq_int (e_facility_id e) (Some (f_id f)))
                 (rows (facilities d))).

(** The date bounds added to both statements. *)
Definition date_where (date_from date_to : option string) (e : event_row) : bool :=
  match given date_from with
  | Some p => sql_ge (e_event_date e) p || is_null (e_event_date e)
  | None => true
  end &&
  match given date_to with
  | Some p => sql_le (e_event_date e) p || is_null (e_event_date e)
  | None => true
  end.

(** [sql1]: events with a stored [expansion_type]. *)
Definition rows1 (d : db) (date_from date_to : option string) : list exp_row :=
  order_by_date_desc (distinct
    (flat_map (fun e => joined_rows d (e_expansion_type e) e)
       (List.filter (fun e => negb (is_null (e_expansion_type e))
                              && date_where date_from date_to e)
                    (rows (events d))))).

(** [sql2]: planned or under-construction events, tagged ['expansion']. *)
Definition rows2 (d : db) (date_from date_to : option string) : list exp_row :=
  order_by_date_desc (distinct
    (flat_map (fun e => joined_rows d (Some "expansion") e)
       (List.filter (fun e => (sql_eq_text (e_status e) (Some "planned")
                               || sql_eq_text (e_status e) (Some "under-construction"))
                              && date_where date_from date_to e)
                    (rows (events d))))).

Record expansion_result : Type := {
  xr_facility : option string;
  xr_city : option string;
  xr_state : option string;
  xr_division : option string;
  xr_event_date : option string;
  xr_timeline : string;
  xr_expansion_type : string;
  xr_status : string;
  xr_confidence : Q;
  xr_url : string;
  xr_source_title : string;
  xr_publish_date : option string
}.

Definition expansion_result_of (r : exp_row) : expansion_result :=
  {| xr_facility := r_facility r;
     xr_city := r_city r;
     xr_state := r_state r;
     xr_division := r_division r;
     xr_event_date := r_event_date r;
     xr_timeline := or_text (r_event_date r) "FY 2024-25";
     xr_expansion_type := or_text (r_expansion_type r) "greenfield";
     xr_status := or_text (r_status r) "planned";
     xr_confidence := or_real (r_confidence r) (7 # 10);
     xr_url := or_text (r_url r) "https://www.motherson.com";
     xr_source_title := or_text (r_source_title r) "Motherson Document";
     xr_publish_date := r_publish_date r |}.

(** [x.lower() if x else ''] *)
Definition lower_or_empty (x : option string) : string :=
  match x with
  | Some s => if String.eqb s "" then "" else PyStr.lower s
  | None => ""
  end.

(** [key = (r[0].lower() if r[0] else '', r[1].lower() if r[1] else '')] *)
Definition row_key (r : exp_row) : string * string :=
  (lower_or_empty (r_facility r), lower_or_empty (r_city r)).

(** The same key read off a returned mapping. *)
Definition result_key (x : expansion_result) : string * string :=
  (lower_or_empty (xr_facility x), lower_or_empty (xr_city x)).

(** Body of [for r in all_rows], on the pair [(seen, results)]. *)
Definition expansion_step (st : gset (string * string) * list expansion_result)
    (r : exp_row) : gset (string * string) * list expansion_result :=
  let '(seen, results) := st in
  let key := row_key r in
  if bool_decide (key ∈ seen) || bool_decide (key = ("", "")) then st
  else (seen ∪ {[key]}, results ++ [expansion_result_of r]).

Definition expansion_loop (all_rows : list exp_row)
    : gset (string * string) * list expansion_result :=
  fold_left expansion_step all_rows (∅, []).

Definition query_expansions (d : db) (date_from date_to : option string)
    : list expansion_result :=
  let all_rows := rows1 d date_from date_to ++ rows2 d date_from date_to in
  (expansion_loop all_rows).2.

(** The rows of [all_rows] that the loop turns into mappings, when it
    starts with the set [seen]. *)
Fixpoint kept_rows (seen : gset (string * string)) (all_rows : list exp_row)
    : list exp_row :=
  match all_rows with
  | [] => []
  | r :: rest =>
      if bool_decide (row_key r ∈ seen) || bool_decide (row_key r = ("", ""))
      then kept_rows seen rest
      else r :: kept_rows (seen ∪ {[row_key r]}) rest
  end.

(** The identity tables of [d'] extend those of [d]. *)
Definition grows (d d' : db) : Prop :=
  companies d' = companies d
  ∧ (∃ ds, rows (divisions d') = rows (divisions d) ++ ds)
  ∧ (∃ fs, rows (facilities d') = rows (facilities d) ++ fs).

(** The identity tables of [d'] are those of [d]. *)
Definition same_identity (d d' : db) : Prop :=
  companies d' = companies d
  ∧ divisions d' = divisions d
  ∧ facilities d' = facilities d.

(** The name [_ensure_division] stores for the division [s]. *)
Definition normalized_division (s : string) : string :=
  default s (assoc (PyStr.upper s) division_map).

Definition division_present (company_id : Z) (s : string) (d : db) : Prop :=
  ∃ r, r ∈ rows (divisions d)
       ∧ dv_company_id r = company_id ∧ dv_name r = normalized_division s.

Definition facility_present (n c : string) (d : db) : Prop :=
  ∃ r, r ∈ rows (facilities d)
       ∧ sql_lower (f_name r) = Some (PyStr.lower n)
       ∧ sql_lower (f_city r) = Some (PyStr.lower c).

Definition text_of (v : jval) : option string :=
  match v with
  | JStr s => Some s
  | _ => None
  end.

Definition bindable (v : jval) : Prop := ∃ o, bind_text v = Ok o.

(** The division, name and city of a pre-structured candidate, when
    all three are text. *)
Definition structured_key (fac_data : gmap string jval)
    : option (string * string * string) :=
  s ← text_of (Item.get fac_data "division" (JStr "Unknown"));
  n ← text_of (Item.get fac_data "name" (JStr ""));
  c ← text_of (Item.get_none fac_data "city");
  Some (s, n, c).

(** The same for a facility mention in which a city is found. *)
Definition entity_key (facility_entity : gmap string jval)
    : option (string * string * string) :=
  match Item.get facility_entity "text" (JStr "") with
  | JStr t =>
      match _extract_city_from_text (JStr t), _infer_division (JStr t) with
      | Ok (Some c), Ok s => Some (s, t, c)
      | _, _ => None
      end
  | _ => None
  end.

(** A candidate with a text division, name and city, whose state and
    country can be bound. *)
Definition keyed_structured (fac_data : gmap string jval) : Prop :=
  is_Some (structured_key fac_data)
  ∧ bindable (Item.get_none fac_data "state")
  ∧ bindable (Item.get fac_data "country" (JStr "India")).

Definition keyed_entity (facility_entity : gmap string jval) : Prop :=
  is_Some (entity_key facility_entity).

Definition keyed_item (item : Item.item) : Prop :=
  Forall keyed_structured (default [] (Item.structured_facilities (Item.source item)))
  ∧ Forall keyed_entity (Item.entities_facilities item).

(** The division and the facility of a key are in the store. *)
Definition key_present (company_id : Z) (k : option (string * string * string))
    (d : db) : Prop :=
  match k with
  | Some (s, n, c) => division_present company_id s d ∧ facility_present n c d
  | None => True
  end.

Definition item_present (company_id : Z) (item : Item.item) (d : db) : Prop :=
  Forall (fun fac => key_present company_id (structured_key fac) d)
         (default [] (Item.structured_facilities (Item.source item)))
  ∧ Forall (fun ent => key_present company_id (entity_key ent) d)
           (Item.entities_facilities item).

(** An item whose candidates all carry a text division and whose
    facility mentions all carry a text. *)
Definition text_item (item : Item.item) : Prop :=
  Forall (fun fac => is_Some (text_of (Item.get fac "division" (JStr "Unknown"))))
         (default [] (Item.structured_facilities (Item.source item)))
  ∧ Forall (fun ent => is_Some (text_of (Item.get ent "text" (JStr ""))))
           (Item.entities_facilities item).

(** A cell that is [NULL] or the empty text. *)
Definition blank (x : option string) : Prop := x = None ∨ x = Some "".

(** Some evidence row links a source to facility [f]. *)
Definition has_source_evidence (d : db) (f : facility_row) : Prop :=
  ∃ ev s, ev ∈ rows (evidence d) ∧ s ∈ rows (sources d)
          ∧ ev_source_id ev = Some (s_id s)
          ∧ ev_entity_id ev = Some (f_id f)
          ∧ ev_entity_type ev = Some "FACILITY".

(** *** Stored events and the rows of [query_expansions] *)

(** Event [e] is an event of the stored facility [f]: what [JOIN
    facilities f ON e.facility_id = f.id] pairs. *)
Definition event_at (d : db) (e : event_row) (f : facility_row) : Prop :=
  e ∈ rows (events d) ∧ f ∈ rows (facilities d) ∧ e_facility_id e = Some (f_id f).

(** The [WHERE] clause of the first statement, with the date bounds: an
    event of type (i) has a stored [expansion_type]. *)
Definition type_i (date_from date_to : option string) (e : event_row) : bool :=
  negb (is_null (e_expansion_type e)) && date_where date_from date_to e.

(** The [WHERE] clause of the second statement: an event of type (ii)
    is planned or under construction. *)
Definition type_ii (date_from date_to : option string) (e : event_row) : bool :=
  (sql_eq_text (e_status e) (Some "planned")
   || sql_eq_text (e_status e) (Some "under-construction"))
  && date_where date_from date_to e.

(** The deduplication key of the rows of facility [f]. *)
Definition site_key (f : facility_row) : string * string :=
  (lower_or_empty (f_name f), lower_or_empty (f_city f)).

(** The returned mappings with key [k]. *)
Definition expansions_with_key (d : db) (date_from date_to : option string)
    (k : string * string) : list expansion_result :=
  List.filter (fun x => bool_decide (result_key x = k))
              (query_expansions d date_from date_to).

(** *** The writes of ingestion *)

Definition has_company (id : Z) (d : db) : Prop :=
  ∃ r, r ∈ rows (companies d) ∧ co_id r = id.

Definition has_division (id : Z) (d : db) : Prop :=
  ∃ r, r ∈ rows (divisions d) ∧ dv_id r = id.

Definition has_facility (id : Z) (d : db) : Prop :=
  ∃ r, r ∈ rows (facilities d) ∧ f_id r = id.

(** The [WHERE] clause of the lookup of [_insert_facility]. *)
Definition same_site (name city : option string) (r : facility_row) : bool :=
  sql_eq_text (sql_lower (f_name r)) (sql_lower name)
  && sql_eq_text (sql_lower (f_city r)) (sql_lower city).

(** One [INSERT] of the kinds the helpers of [build_graph] issue, with
    what the helper has checked before it. *)
Inductive write (d : db) : db -> Prop :=
| write_company :
    List.filter (fun r => String.eqb (co_name r) "Motherson") (rows (companies d)) = [] ->
    write d (set_companies
               (table_insert (fun id => {| co_id := id; co_name := "Motherson" |})
                             (companies d)).1 d)
| write_division (company_id : Z) (name : string) :
    has_company company_id d ->
    List.filter (fun r => (dv_company_id r =? company_id)%Z && String.eqb (dv_name r) name)
                (rows (divisions d)) = [] ->
    write d (set_divisions
               (table_insert (fun id => {| dv_id := id; dv_company_id := company_id;
                                           dv_name := name |}) (divisions d)).1 d)
| write_source (url title fetched_at mime publish_dt source_type : option string) :
    existsb (fun r => sql_eq_text (s_url r) url) (rows (sources d)) = false ->
    write d (set_sources
               (table_insert (fun id => {| s_id := id; s_url := url; s_title := title;
                                           s_fetched_at := fetched_at; s_mime_type := mime;
                                           s_publish_date := publish_dt;
                                           s_source_type := source_type |}) (sources d)).1 d)
| write_facility (division_id : Z) (name city lookup_city state country : option string)
      (normalized : string) :
    has_division division_id d ->
    List.filter (same_site name lookup_city) (rows (facilities d)) = [] ->
    city = lookup_city \/ city = None ->
    write d (set_facilities
               (table_insert (fun id => {| f_id := id; f_division_id := Some division_id;
                                           f_name := name; f_city := city;
                                           f_state := state; f_country := country;
                                           f_normalized_name := Some normalized |})
                             (facilities d)).1 d)
| write_event (facility_id : Z) (event_date status expansion_type : option string) :
    has_facility facility_id d ->
    write d (set_events
               (table_insert (fun id => {| e_id := id; e_facility_id := Some facility_id;
                                           e_event_type := Some "operational";
                                           e_event_date := event_date; e_status := status;
                                           e_expansion_type := expansion_type;
                                           e_confidence := Some (8 # 10) |}) (events d)).1 d)
| write_evidence (source_id : option Z) (facility_id : Z) (snippet : string)
      (confidence : Q) :
    has_facility facility_id d ->
    String.length snippet <= 500 ->
    write d (set_evidence
               (table_insert (fun id => {| ev_id := id; ev_source_id := source_id;
                                           ev_entity_type := Some "FACILITY";
                                           ev_entity_id := Some facility_id;
                                           ev_text_snippet := Some snippet;
                                           ev_confidence := Some confidence |})
                             (evidence d)).1 d)
| write_job (title location posted_date description : option string) (flag : Z)
      (source_id : option Z) :
    flag = 0%Z \/ flag = 1%Z ->
    write d (set_jobs
               (table_insert (fun id => {| j_id := id; j_facility_id := None;
                                           j_title := title; j_location := location;
                                           j_division_id := None;
                                           j_is_factory_role := Some flag;
                                           j_source_id := source_id;
                                           j_posted_date := posted_date;
                                           j_description := description |}) (jobs d)).1 d)
| write_source_ignored (url : option string) :
    existsb (fun r => sql_eq_text (s_url r) url) (rows (sources d)) = true ->
    write d (set_sources (table_skip (sources d)) d).

(** Every table of [d'] begins with the rows of [d]. *)
Definition extends (d d' : db) : Prop :=
  rows (companies d) `prefix_of` rows (companies d')
  ∧ rows (divisions d) `prefix_of` rows (divisions d')
  ∧ rows (sources d) `prefix_of` rows (sources d')
  ∧ rows (facilities d) `prefix_of` rows (facilities d')
  ∧ rows (events d) `prefix_of` rows (events d')
  ∧ rows (evidence d) `prefix_of` rows (evidence d')
  ∧ rows (jobs d) `prefix_of` rows (jobs d').


(** The identity of a facility row whose name and city are not null. *)
Definition facility_key (r : facility_row) : option (string * string) :=
  match f_name r, f_city r with
  | Some n, Some c => Some (PyStr.lower n, PyStr.lower c)
  | _, _ => None
  end.

(** No two facility rows with a name and a city share the lower-case
    (name, city) pair. *)
Definition facility_keys_distinct (d : db) : Prop :=
  NoDup (omap facility_key (rows (facilities d))).

(** The two [UNIQUE] columns of the schema hold no value twice. *)
Definition unique_columns_ok (d : db) : Prop :=
  NoDup (co_name <$> rows (companies d))
  ∧ NoDup (omap s_url (rows (sources d))).

(** No snippet of the evidence table is longer than 500 characters. *)
Definition snippets_bounded (d : db) : Prop :=
  ∀ r s, r ∈ rows (evidence d) → ev_text_snippet r = Some s → String.length s ≤ 500.

(** An [AUTOINCREMENT] key column: the keys are positive, distinct and
    not above the table's sequence entry. *)
Definition keys_ok {R : Type} (key : R -> Z) (t : table R) : Prop :=
  (0 <= seq t)%Z
  ∧ NoDup (key <$> rows t)
  ∧ ∀ r, r ∈ rows t → (0 < key r <= seq t)%Z.

Definition primary_keys_ok (d : db) : Prop :=
  keys_ok co_id (companies d)
  ∧ keys_ok dv_id (divisions d)
  ∧ keys_ok s_id (sources d)
  ∧ keys_ok f_id (facilities d)
  ∧ keys_ok e_id (events d)
  ∧ keys_ok ev_id (evidence d)
  ∧ keys_ok j_id (jobs d).

(** *** [query_jobs] *)

(** A row of the [SELECT] of [query_jobs]. *)
Record job_join : Type := {
  jj_id : Z;
  jj_title : option string;
  jj_location : option string;
  jj_posted_date : option string;
  jj_description : option string;
  jj_facility : option string;
  jj_division : option string;
  jj_is_factory_role : option Z;
  jj_url : option string;
  jj_source_title : option string
}.

(** The rows the three [LEFT JOIN]s make of one job. *)
Definition job_rows (d : db) (j : job_row) : list job_join :=
  flat_map (fun f =>
    flat_map (fun dv =>
      (fun s =>
         {| jj_id := j_id j;
            jj_title := j_title j;
            jj_location := j_location j;
            jj_posted_date := j_posted_date j;
            jj_description := j_description j;
            jj_facility := f ≫= f_name;
            jj_division := dv_name <$> dv;
            jj_is_factory_role := j_is_factory_role j;
            jj_url := s ≫= s_url;
            jj_source_title := s ≫= s_title |})
      <$> left_join
            (List.filter (fun s => sql_eq_int (j_source_id j) (Some (s_id s)))
                         (rows (sources d))))
      (left_join
         (List.filter (fun dv => sql_eq_int (j_division_id j) (Some (dv_id dv)))
                      (rows (divisions d)))))
    (left_join
       (List.filter (fun f => sql_eq_int (j_facility_id j) (Some (f_id f)))
                    (rows (facilities d)))).

Fixpoint insert_newest (x : job_join) (l : list job_join) : list job_join :=
  match l with
  | [] => [x]
  | y :: l' =>
      if sql_lt (jj_posted_date x) (jj_posted_date y) then y :: insert_newest x l'
      else x :: l
  end.

(** [ORDER BY j.posted_date DESC NULLS LAST]; rows with the same date
    stay in scan order (SQLite leaves the order of ties open). *)
Definition order_by_posted_desc (l : list job_join) : list job_join :=
  fold_right insert_newest [] l.

(** [AND j.is_factory_role = 1], added under [if factory_only]. *)
Definition job_where (factory_only : bool) (j : job_row) : bool :=
  if factory_only then sql_eq_int (j_is_factory_role j) (Some 1%Z) else true.

Record job_result : Type := {
  jb_id : Z;
  jb_title : option string;
  jb_location : string;
  jb_posted_date : option string;
  jb_description : option string;
  jb_facility : string;
  jb_division : string;
  jb_is_factory_role : bool;
  jb_url : string;
  jb_source_title : string;
  jb_confidence : Q
}.

Definition job_result_of (r : job_join) : job_result :=
  {| jb_id := jj_id r;
     jb_title := jj_title r;
     jb_location := or_text (jj_location r) "India";
     jb_posted_date := jj_posted_date r;
     jb_description := jj_description r;
     jb_facility := or_text (jj_facility r) "Multiple Locations";
     jb_division := or_text (jj_division r) "Unknown";
     jb_is_factory_role := id_truthy (jj_is_factory_role r);
     jb_url := or_text (jj_url r) "https://careers.motherson.com";
     jb_source_title := or_text (jj_source_title r) "Motherson Careers";
     jb_confidence := 85 # 100 |}.

Definition query_jobs (d : db) (factory_only : bool) : list job_result :=
  job_result_of <$>
    order_by_posted_desc
      (flat_map (job_rows d) (List.filter (job_where factory_only) (rows (jobs d)))).

(** No job row names a facility or a division. *)
Definition jobs_unlinked (d : db) : Prop :=
  ∀ j, j ∈ rows (jobs d) → j_facility_id j = None ∧ j_division_id j = None.

(** Every stored [is_factory_role] is [0] or [1]. *)
Definition flags_boolean (d : db) : Prop :=
  ∀ j, j ∈ rows (jobs d) →
       j_is_factory_role j = Some 0%Z ∨ j_is_factory_role j = Some 1%Z.

(** The unfiltered [query_facilities] returns a record for the site of
    key [k]. *)
Definition listed (d : db) (k : option (string * string * string)) : Prop :=
  match k with
  | Some (_, n, c) =>
      ∃ r, r ∈ query_facilities d None None None
           ∧ sql_lower (fr_name r) = Some (PyStr.lower n)
           ∧ sql_lower (fr_city r) = Some (PyStr.lower c)
  | None => True
  end.

(** Every event has the type ['operational'] and the confidence 0.8. *)
Definition events_uniform (d : db) : Prop :=
  ∀ e, e ∈ rows (events d) →
       e_event_type e = Some "operational" ∧ e_confidence e = Some (8 # 10).

(** The keys of [t] were all given out after those of [t0]. *)
Definition keys_after {R : Type} (key : R -> Z) (t0 t : table R) : Prop :=
  (seq t0 <= seq t)%Z ∧ ∀ r, r ∈ rows t → (seq t0 < key r)%Z.

Definition keys_fresh (d0 d : db) : Prop :=
  keys_after co_id (companies d0) (companies d)
  ∧ keys_after dv_id (divisions d0) (divisions d)
  ∧ keys_after s_id (sources d0) (sources d)
  ∧ keys_after f_id (facilities d0) (facilities d)
  ∧ keys_after e_id (events d0) (events d)
  ∧ keys_after ev_id (evidence d0) (evidence d)
  ∧ keys_after j_id (jobs d0) (jobs d).

(** The evidence table of [d'] is that of [d] followed by rows that all
    name the source [source_id]. *)
Definition evidence_from (source_id : option Z) (d d' : db) : Prop :=
  ∃ new, rows (evidence d') = rows (evidence d) ++ new
         ∧ Forall (fun ev => ev_source_id ev = source_id) new.

(** What the counters of [build_graph] satisfy at every point of the
    run. *)
Definition counters_ok (st : stats) : Prop :=
  st_divisions st = 0 ∧ st_facilities st = st_events st.

(** [insert_jobs]: the entry [source_id] of a dictionary is an integer
    key or [None] and is kept beside the other entries. *)
Definition insert_jobs (jobs_data : list (gmap string jval * option Z)) : M unit :=
  for_each (fun _ job_data => _ <- _insert_job job_data.1 job_data.2 ;; ret tt)
           tt jobs_data.

End GraphBuilder.

(** ** [run.py]: the third step of the pipeline *)

Module Pipeline.
Import Database GraphBuilder.

(** [SELECT id FROM sources WHERE url = ?] inside [try ... except:
    pass]: the key of the first row found, [None] otherwise. *)
Definition lookup_source_id (source_data : gmap string jval) (d : db) : option Z :=
  match bind_text (Item.get source_data "url" (JStr "unknown")) with
  | Ok url =>
      match List.filter (fun r => sql_eq_text (s_url r) url) (rows (sources d)) with
      | r :: _ => Some (s_id r)
      | [] => None
      end
  | Raise _ => None
  end.

(** The dictionary appended to [jobs_data] for one structured job. *)
Definition job_entry (job : gmap string jval) : gmap string jval :=
  <["title" := Item.get job "title" (JStr "")]>
  (<["location" := Item.get job "location" (JStr "India")]>
  (<["division" := JNull]>
  (<["is_factory_role" := JBool true]>
  (<["posted_date" := JNull]>
  (<["description" := JNull]> ∅))))).

(** [jobs_data] after the loop over [extracted_data], read from the
    store [d] that [build_graph] left. *)
Definition jobs_data_of (extracted_data : list Item.item) (d : db)
    : list (gmap string jval * option Z) :=
  flat_map (fun item =>
    let source_data := Item.source item in
    let source_id := lookup_source_id (Item.fields source_data) d in
    match Item.structured_jobs source_data with
    | Some js => (fun job => (job_entry job, source_id)) <$> js
    | None => []
    end) extracted_data.

(** [step3_graph_building]; its [except] clause re-raises. *)
Definition step3_graph_building (extracted_data : list Item.item) : M unit :=
  bind (build_graph extracted_data) (fun _ => fun d =>
    match jobs_data_of extracted_data d with
    | [] => (Ok tt, d)
    | jobs_data => insert_jobs jobs_data d
    end).

(** The structured jobs of a batch, in order. *)
Definition structured_jobs_of (extracted_data : list Item.item)
    : list (gmap string jval) :=
  flat_map (fun item => default [] (Item.structured_jobs (Item.source item)))
           extracted_data.

End Pipeline.

(** ** Sample inputs *)

Module Samples.
Import Database GraphBuilder.

(** A directory row as the address scraper emits it when it finds no
    city in the text: [city] and [state] are [None]. *)
Definition fac_no_city : gmap string jval :=
  <["name" := JStr "Motherson Polymers Unit"]>
  (<["division" := JStr "SMP"]>
  (<["city" := JNull]>
  (<["state" := JNull]>
  (<["country" := JStr "India"]>
  (<["status" := JStr "operational"]>
  (<["date" := JNull]> ∅)))))).

Definition fac_planned : gmap string jval :=
  <["name" := JStr "Chennai Plant"]>
  (<["division" := JStr "MSWIL"]>
  (<["city" := JStr "Chennai"]>
  (<["state" := JStr "Tamil Nadu"]>
  (<["status" := JStr "planned"]> ∅)))).

Definition fac_brownfield : gmap string jval :=
  <["name" := JStr "CHENNAI PLANT"]>
  (<["division" := JStr "MSWIL"]>
  (<["city" := JStr "chennai"]>
  (<["status" := JStr "under-construction"]>
  (<["expansion_type" := JStr "brownfield"]>
  (<["date" := JStr "2024-05-01"]> ∅))))).

(** A candidate whose [division] is [None]. *)
Definition fac_null_division : gmap string jval :=
  <["name" := JStr "Pune Plant"]>
  (<["division" := JNull]>
  (<["city" := JStr "Pune"]> ∅)).

Definition fac_pune : gmap string jval :=
  <["name" := JStr "Chakan Plant"]>
  (<["division" := JStr "SMR"]>
  (<["city" := JStr "Chakan"]> ∅)).

(** A posting as the career scraper emits it: no [is_factory_role]. *)
Definition job_operator : gmap string jval :=
  <["title" := JStr "Machine Operator"]>
  (<["location" := JStr "Pune"]>
  (<["department" := JNull]>
  (<["url" := JStr "https://careers.motherson.com"]>
  (<["source" := JStr "motherson_careers"]> ∅)))).

Definition source_fields (url : string) : gmap string jval :=
  <["url" := JStr url]>
  (<["title" := JStr "Motherson Address Directory"]>
  (<["mime" := JStr "application/json"]>
  (<["source_type" := JStr "web"]> ∅))).

Definition directory_item (url : string) (facs : list (gmap string jval)) : Item.item :=
  {| Item.source := {| Item.fields := source_fields url;
                       Item.structured_facilities := Some facs;
                       Item.structured_jobs := None |};
     Item.entities_facilities := [];
     Item.entities_job_titles := [] |}.

Definition jobs_item (url : string) (js : list (gmap string jval)) : Item.item :=
  {| Item.source := {| Item.fields := source_fields url;
                       Item.structured_facilities := None;
                       Item.structured_jobs := Some js |};
     Item.entities_facilities := [];
     Item.entities_job_titles := [] |}.

(** The store after one ingestion of [batch] into [d]. *)
Definition ingest (batch : list Item.item) (d : db) : db := (build_graph batch d).2.

Definition db_planned : db := ingest [directory_item "https://a" [fac_planned]] empty_db.

(** The same site asserted a second time, in another letter case and
    with a stored expansion type. *)
Definition db_both : db := ingest [directory_item "https://b" [fac_brownfield]] db_planned.

(** One batch with a city-less directory row, ingested twice. *)
Definition batch_no_city : list Item.item :=
  [directory_item "https://www.motherson.com/contact/address-directory" [fac_no_city]].

Definition db_once : db := ingest batch_no_city empty_db.
Definition db_twice : db := ingest batch_no_city db_once.

(** The second row [db_twice] holds for the city-less directory entry. *)
Definition fac_row_2 : facility_row :=
  {| f_id := 2; f_division_id := Some 1%Z;
     f_name := Some "Motherson Polymers Unit"; f_city := None; f_state := None;
     f_country := Some "India";
     f_normalized_name := Some "motherson polymers unit" |}.

(** A batch whose first item has a candidate with a null division. *)
Definition batch_null_division : list Item.item :=
  [directory_item "https://a" [fac_null_division];
   directory_item "https://b" [fac_pune]].

Definition batch_jobs : list Item.item :=
  [jobs_item "https://careers.motherson.com" [job_operator]].

(** The same posting as a loose job-title mention. *)
Definition batch_job_mention : list Item.item :=
  [{| Item.source := {| Item.fields := source_fields "https://careers.motherson.com";
                        Item.structured_facilities := None;
                        Item.structured_jobs := None |};
      Item.entities_facilities := [];
      Item.entities_job_titles := [<["text" := JStr "Machine Operator"]> ∅] |}].

(** The row of the second statement of [query_expansions] on [db_planned]. *)
Definition row_planned : exp_row :=
  {| r_facility := Some "Chennai Plant"; r_city := Some "Chennai";
     r_state := Some "Tamil Nadu"; r_division := Some "Wiring Systems";
     r_event_date := None; r_expansion_type := Some "expansion";
     r_status := Some "planned"; r_confidence := Some (8 # 10);
     r_url := Some "https://a"; r_source_title := Some "Motherson Address Directory";
     r_publish_date := None |}.

(** The facility of [db_both] and its event with a stored expansion
    type. *)
Definition fac_row_chennai : facility_row :=
  {| f_id := 1; f_division_id := Some 1%Z;
     f_name := Some "Chennai Plant"; f_city := Some "Chennai";
     f_state := Some "Tamil Nadu"; f_country := Some "India";
     f_normalized_name := Some "chennai plant" |}.

Definition event_brownfield : event_row :=
  {| e_id := 2; e_facility_id := Some 1%Z; e_event_type := Some "operational";
     e_event_date := Some "2024-05-01"; e_status := Some "under-construction";
     e_expansion_type := Some "brownfield"; e_confidence := Some (8 # 10) |}.

(** Resolver candidates. *)
Definition cand_sanand_plant : gmap string pyval :=
  <["name" := VStr "Sanand Plant"]>
  (<["division" := VStr "Wiring Systems"]>
  (<["city" := VStr "Sanand"]>
  (<["state" := VStr "Gujarat"]>
  (<["confidence" := VFloat (8 # 10)]> ∅)))).

Definition cand_sanand_unit : gmap string pyval :=
  <["name" := VStr "Sanand Unit"]>
  (<["division" := VStr "Wiring Systems"]>
  (<["city" := VStr "Sanand"]>
  (<["state" := VStr "Gujarat"]>
  (<["confidence" := VFloat (9 # 10)]>
  (<["event_date" := VStr "2023-04-01"]> ∅))))).

Definition cand_pune : gmap string pyval :=
  <["name" := VStr "Pune Plant"]>
  (<["division" := VStr "Vision Systems"]>
  (<["city" := VStr "Pune"]> ∅)).



Definition candidates : list (gmap string pyval) :=
  [cand_sanand_plant; cand_pune; cand_sanand_unit].

Definition candidates_resolved : list (gmap string pyval) :=
  match EntityResolver.resolve_facilities candidates with
  | Ok l => l
  | Raise _ => []
  end.

End Samples.

(** * Properties *)

(** ** Text *)

Section text_facts.

Lemma map_chars_empty f s : PyStr.map_chars f s = "" ↔ s = "".
Proof. destruct s; simpl; split; congruence. Qed.

Lemma lower_empty s : PyStr.lower s = "" ↔ s = "".
Proof. apply map_chars_empty. Qed.

End text_facts.

(** ** The deduplication loop of [query_expansions] *)

Module ExpansionFacts.
Import Database GraphBuilder.

Lemma lower_or_empty_blank x : lower_or_empty x = "" ↔ blank x.
Proof.
  unfold lower_or_empty, blank. destruct x as [s|]; [|naive_solver].
  destruct (String.eqb_spec s "") as [->|Hne]; [naive_solver|].
  rewrite lower_empty. naive_solver.
Qed.

Lemma lower_or_empty_sql x : lower_or_empty x = default "" (sql_lower x).
Proof.
  destruct x as [s|]; simpl; [|done].
  by destruct (String.eqb_spec s "") as [->|].
Qed.

Lemma row_key_blank r : row_key r = ("", "") ↔ blank (r_facility r) ∧ blank (r_city r).
Proof.
  unfold row_key. rewrite <- !lower_or_empty_blank. split.
  - by intros [= -> ->].
  - by intros [-> ->].
Qed.

Lemma result_key_of r : result_key (expansion_result_of r) = row_key r.
Proof. done. Qed.

(** The loop, started anywhere, adds the mappings of the kept rows
    and their keys. *)
Lemma fold_expansion_step l : ∀ seen results,
  fold_left expansion_step l (seen, results)
  = (seen ∪ list_to_set (row_key <$> kept_rows seen l),
     results ++ (expansion_result_of <$> kept_rows seen l)).
Proof.
  induction l as [|r l IH]; intros seen results; simpl.
  - f_equal; [set_solver | by rewrite app_nil_r].
  - destruct (bool_decide (row_key r ∈ seen) || bool_decide (row_key r = ("", "")));
      rewrite IH; [done|].
    simpl. f_equal; [set_solver | by rewrite <- app_assoc].
Qed.

Lemma query_expansions_kept d date_from date_to :
  query_expansions d date_from date_to
  = expansion_result_of <$>
      kept_rows ∅ (rows1 d date_from date_to ++ rows2 d date_from date_to).
Proof.
  unfold query_expansions, expansion_loop. by rewrite fold_expansion_step.
Qed.

Lemma kept_rows_elem l : ∀ seen r,
  r ∈ kept_rows seen l → r ∈ l ∧ (row_key r ∉ seen) ∧ row_key r ≠ ("", "").
Proof.
  induction l as [|x l IH]; intros seen r; simpl; [by intros ?%elem_of_nil|].
  destruct (bool_decide (row_key x ∈ seen)) eqn:Hs;
    destruct (bool_decide (row_key x = ("", ""))) eqn:He; simpl;
    try (intros Hr; apply IH in Hr as [? ?]; split; [by right|done]).
  apply bool_decide_eq_false in Hs, He.
  intros [->|Hr]%elem_of_cons; [by split; [left|]|].
  apply IH in Hr as (? & ? & ?). split; [by right|]. split; [set_solver|done].
Qed.

(** Among the kept rows, those with key [k] are exactly the first row
    of the input with that key. *)
Lemma kept_rows_first l : ∀ seen k,
  k ∉ seen → k ≠ ("", "") →
  List.filter (fun r => bool_decide (row_key r = k)) (kept_rows seen l)
  = option_list (List.find (fun r => bool_decide (row_key r = k)) l).
Proof.
  induction l as [|x l IH]; intros seen k Hk Hne; simpl; [done|].
  destruct (bool_decide (row_key x ∈ seen)) eqn:Hs; simpl.
  { apply bool_decide_eq_true in Hs.
    rewrite bool_decide_eq_false_2; [by apply IH | by intros <-]. }
  destruct (bool_decide (row_key x = ("", ""))) eqn:He; simpl.
  { apply bool_decide_eq_true in He.
    rewrite bool_decide_eq_false_2; [by apply IH | congruence]. }
  apply bool_decide_eq_false in Hs, He.
  destruct (bool_decide (row_key x = k)) eqn:Hx; simpl.
  - apply bool_decide_eq_true in Hx. f_equal.
    destruct (List.filter _ _) as [|y ys] eqn:Hf; [done|].
    assert (Hy : In y (List.filter (fun r => bool_decide (row_key r = k))
                          (kept_rows (seen ∪ {[row_key x]}) l))).
    { rewrite Hf. by left. }
    apply filter_In in Hy as [Hy Hyk]. apply bool_decide_eq_true in Hyk.
    apply list_elem_of_In in Hy. apply kept_rows_elem in Hy as [_ [Hy _]].
    exfalso. apply Hy. rewrite Hyk, <- Hx. set_solver.
  - apply bool_decide_eq_false in Hx. apply IH; [set_solver|done].
Qed.

Lemma insert_desc_In x y l : In y (insert_desc x l) ↔ y = x ∨ In y l.
Proof.
  induction l as [|z l IH]; simpl; [naive_solver|].
  destruct (sql_lt _ _); simpl; [rewrite IH|]; naive_solver.
Qed.

Lemma order_by_date_desc_In y l : In y (order_by_date_desc l) ↔ In y l.
Proof.
  induction l as [|x l IH]; simpl; [done|].
  rewrite insert_desc_In, IH. naive_solver.
Qed.

Lemma distinct_In y l : In y (distinct l) → In y l.
Proof.
  revert y. induction l as [|x l IH]; intros y; simpl; [done|].
  intros [->|[Hy _]%filter_In]; [by left | right; by apply IH].
Qed.

Lemma joined_rows_expansion_type d xt e r :
  In r (joined_rows d xt e) → r_expansion_type r = xt.
Proof.
  unfold joined_rows. intros (f & _ & Hr)%in_flat_map.
  apply in_flat_map in Hr as (dv & _ & Hr).
  apply in_flat_map in Hr as (ev & _ & Hr).
  apply list_elem_of_In, list_elem_of_fmap in Hr as (s & -> & _). done.
Qed.

Lemma rows2_expansion_type d date_from date_to r :
  r ∈ rows2 d date_from date_to → r_expansion_type r = Some "expansion".
Proof.
  unfold rows2. intros Hr%list_elem_of_In.
  apply order_by_date_desc_In, distinct_In, in_flat_map in Hr as (e & _ & Hr).
  by apply joined_rows_expansion_type in Hr.
Qed.

Lemma find_app_Some {A : Type} (p : A → bool) l1 l2 x :
  List.find p l1 = Some x → List.find p (l1 ++ l2) = Some x.
Proof.
  induction l1 as [|y l1 IH]; simpl; [done|]. destruct (p y); auto.
Qed.

Lemma find_app_None {A : Type} (p : A → bool) l1 l2 :
  List.find p l1 = None → List.find p (l1 ++ l2) = List.find p l2.
Proof.
  induction l1 as [|y l1 IH]; simpl; [done|]. destruct (p y); [done|auto].
Qed.

Lemma find_is_Some {A : Type} (p : A → bool) l x :
  x ∈ l → p x = true → is_Some (List.find p l).
Proof.
  induction 1 as [x l|x y l _ IH]; simpl; intros Hp.
  - rewrite Hp. eauto.
  - destruct (p y); eauto.
Qed.

Lemma filter_fmap_result k l :
  List.filter (fun x => bool_decide (result_key x = k)) (expansion_result_of <$> l)
  = expansion_result_of <$> List.filter (fun r => bool_decide (row_key r = k)) l.
Proof.
  induction l as [|r l IH]; [done|].
  rewrite fmap_cons. cbn [List.filter]. rewrite result_key_of.
  destruct (bool_decide _); by rewrite IH.
Qed.

(** The returned mappings with key [k] are the mapping of the first row
    of [rows1 ++ rows2] with that key. *)
Lemma query_expansions_first d date_from date_to k :
  k ≠ ("", "") →
  List.filter (fun x => bool_decide (result_key x = k))
              (query_expansions d date_from date_to)
  = expansion_result_of <$>
      option_list (List.find (fun r => bool_decide (row_key r = k))
                             (rows1 d date_from date_to ++ rows2 d date_from date_to)).
Proof.
  intros Hk. rewrite query_expansions_kept, filter_fmap_result.
  by rewrite kept_rows_first by set_solver.
Qed.

Lemma left_join_inhabited {B : Type} (l : list B) : ∃ x, In x (left_join l).
Proof. destruct l as [|b l]; simpl; eauto. Qed.

(** Every event of a stored facility gives a row of the join. *)
Lemma joined_rows_of d xt e f :
  f ∈ rows (facilities d) → e_facility_id e = Some (f_id f) →
  ∃ r, In r (joined_rows d xt e)
       ∧ r_facility r = f_name f ∧ r_city r = f_city f.
Proof.
  intros Hf He.
  assert (HfF : In f (List.filter (fun f => sql_eq_int (e_facility_id e) (Some (f_id f)))
                                  (rows (facilities d)))).
  { apply filter_In. split; [by apply list_elem_of_In|].
    rewrite He. simpl. apply Z.eqb_refl. }
  destruct (left_join_inhabited
              (List.filter (fun dv => sql_eq_int (f_division_id f) (Some (dv_id dv)))
                           (rows (divisions d)))) as [dv Hdv].
  destruct (left_join_inhabited
              (List.filter (fun ev => sql_eq_int (ev_entity_id ev) (Some (f_id f))
                                      && sql_eq_text (ev_entity_type ev) (Some "FACILITY"))
                           (rows (evidence d)))) as [ev Hev].
  destruct (left_join_inhabited
              match ev with
              | Some ev => List.filter (fun s => sql_eq_int (ev_source_id ev) (Some (s_id s)))
                                       (rows (sources d))
              | None => []
              end) as [src Hsrc].
  eexists. split.
  - unfold joined_rows. apply in_flat_map. exists f. split; [exact HfF|].
    apply in_flat_map. exists dv. split; [exact Hdv|].
    apply in_flat_map. exists ev. split; [exact Hev|].
    apply list_elem_of_In, list_elem_of_fmap. exists src.
    split; [reflexivity|by apply list_elem_of_In].
  - done.
Qed.

(** Every row of the join is the row of an event of a stored facility. *)
Lemma joined_rows_elem d xt e r :
  In r (joined_rows d xt e) →
  ∃ f, f ∈ rows (facilities d) ∧ e_facility_id e = Some (f_id f)
       ∧ r_facility r = f_name f ∧ r_city r = f_city f
       ∧ r_expansion_type r = xt ∧ r_event_date r = e_event_date e
       ∧ r_status r = e_status e.
Proof.
  unfold joined_rows. intros (f & Hf & Hr)%in_flat_map.
  apply in_flat_map in Hr as (dv & _ & Hr).
  apply in_flat_map in Hr as (ev & _ & Hr).
  apply list_elem_of_In, list_elem_of_fmap in Hr as (s & -> & _).
  apply filter_In in Hf as [Hf He]. exists f.
  split; [by apply list_elem_of_In|]. split; [|done].
  destruct (e_facility_id e) as [z|]; [|done]. simpl in He.
  by apply Z.eqb_eq in He as ->.
Qed.

Lemma text_same_eq x y : text_same x y = true ↔ x = y.
Proof.
  destruct x as [a|], y as [b|]; simpl; try (split; congruence).
  rewrite String.eqb_eq. split; congruence.
Qed.

Lemma real_same_refl x : real_same x x = true.
Proof. destruct x as [q|]; simpl; [|done]. apply Qeq_bool_iff. reflexivity. Qed.

Lemma real_same_trans x y z :
  real_same x y = true → real_same y z = true → real_same x z = true.
Proof.
  destruct x as [a|], y as [b|], z as [c|]; simpl; try done.
  rewrite !Qeq_bool_iff. intros H1 H2. by rewrite H1.
Qed.

(** [DISTINCT] compares all eleven columns. *)
Lemma row_same_spec a b :
  row_same a b = true ↔
  r_facility a = r_facility b ∧ r_city a = r_city b ∧ r_state a = r_state b
  ∧ r_division a = r_division b ∧ r_event_date a = r_event_date b
  ∧ r_expansion_type a = r_expansion_type b ∧ r_status a = r_status b
  ∧ real_same (r_confidence a) (r_confidence b) = true
  ∧ r_url a = r_url b ∧ r_source_title a = r_source_title b
  ∧ r_publish_date a = r_publish_date b.
Proof.
  unfold row_same. rewrite !andb_true_iff, !text_same_eq. tauto.
Qed.

Lemma row_same_refl a : row_same a a = true.
Proof. apply row_same_spec. by rewrite real_same_refl. Qed.

Lemma row_same_trans a b c :
  row_same a b = true → row_same b c = true → row_same a c = true.
Proof.
  rewrite !row_same_spec.
  intros (?&?&?&?&?&?&?&Hq1&?&?&?) (?&?&?&?&?&?&?&Hq2&?&?&?).
  split_and!; try congruence. by eapply real_same_trans.
Qed.

(** [DISTINCT] keeps a copy of every row. *)
Lemma distinct_keeps y l :
  In y l → ∃ y', In y' (distinct l) ∧ row_same y' y = true.
Proof.
  induction l as [|x l IH]; simpl; [done|]. intros [->|Hy].
  - exists y. split; [by left|apply row_same_refl].
  - destruct (IH Hy) as (y' & Hy' & Hsame).
    destruct (row_same x y') eqn:Hx.
    + exists x. split; [by left|]. by eapply row_same_trans.
    + exists y'. split; [|done]. right. apply filter_In. split; [done|].
      by rewrite Hx.
Qed.

(** The first statement returns a row for every stored event of type
    (i), and only rows of such events. *)
Lemma rows1_of d date_from date_to e f :
  event_at d e f → type_i date_from date_to e = true →
  ∃ r, r ∈ rows1 d date_from date_to ∧ row_key r = site_key f.
Proof.
  intros (He & Hf & Hef) Hty.
  destruct (joined_rows_of d (e_expansion_type e) e f Hf Hef) as (r & Hr & Hn & Hc).
  destruct (distinct_keeps r
    (flat_map (fun e => joined_rows d (e_expansion_type e) e)
       (List.filter (fun e => negb (is_null (e_expansion_type e))
                              && date_where date_from date_to e)
                    (rows (events d))))) as (r' & Hr' & Hsame).
  { apply in_flat_map. exists e. split; [|done].
    apply filter_In. split; [by apply list_elem_of_In|done]. }
  apply row_same_spec in Hsame as (Hn' & Hc' & _).
  exists r'. split.
  - unfold rows1. by apply list_elem_of_In, order_by_date_desc_In.
  - unfold row_key, site_key. by rewrite Hn', Hc', Hn, Hc.
Qed.

Lemma rows1_elem d date_from date_to r :
  r ∈ rows1 d date_from date_to →
  ∃ e f, event_at d e f ∧ type_i date_from date_to e = true
         ∧ row_key r = site_key f
         ∧ r_expansion_type r = e_expansion_type e
         ∧ r_event_date r = e_event_date e ∧ r_status r = e_status e.
Proof.
  unfold rows1. intros Hr%list_elem_of_In.
  apply order_by_date_desc_In, distinct_In, in_flat_map in Hr as (e & He & Hr).
  apply filter_In in He as [He Hty].
  apply joined_rows_elem in Hr as (f & Hf & Hef & Hn & Hc & Hx & Hd & Hs).
  exists e, f. split; [by rewrite <- list_elem_of_In in He|].
  split; [done|]. split; [|done]. unfold row_key, site_key. by rewrite Hn, Hc.
Qed.

Lemma rows2_of d date_from date_to e f :
  event_at d e f → type_ii date_from date_to e = true →
  ∃ r, r ∈ rows2 d date_from date_to ∧ row_key r = site_key f.
Proof.
  intros (He & Hf & Hef) Hty.
  destruct (joined_rows_of d (Some "expansion") e f Hf Hef) as (r & Hr & Hn & Hc).
  destruct (distinct_keeps r
    (flat_map (fun e => joined_rows d (Some "expansion") e)
       (List.filter (fun e => (sql_eq_text (e_status e) (Some "planned")
                               || sql_eq_text (e_status e) (Some "under-construction"))
                              && date_where date_from date_to e)
                    (rows (events d))))) as (r' & Hr' & Hsame).
  { apply in_flat_map. exists e. split; [|done].
    apply filter_In. split; [by apply list_elem_of_In|done]. }
  apply row_same_spec in Hsame as (Hn' & Hc' & _).
  exists r'. split.
  - unfold rows2. by apply list_elem_of_In, order_by_date_desc_In.
  - unfold row_key, site_key. by rewrite Hn', Hc', Hn, Hc.
Qed.

Lemma filter_none_of {A : Type} (p : A → bool) (l : list A) :
  (∀ x, In x l → p x = false) → List.filter p l = [].
Proof.
  induction l as [|x l IH]; intros Hl; simpl; [done|].
  rewrite (Hl x) by (by left). apply IH. intros y Hy. apply Hl. by right.
Qed.

Lemma find_key_elem k l r :
  List.find (fun r => bool_decide (row_key r = k)) l = Some r →
  r ∈ l ∧ row_key r = k.
Proof.
  intros [Hin Hk]%find_some. split; [by apply list_elem_of_In|].
  by apply bool_decide_eq_true in Hk.
Qed.

Lemma site_key_sql f1 f2 :
  sql_lower (f_name f1) = sql_lower (f_name f2) →
  sql_lower (f_city f1) = sql_lower (f_city f2) →
  site_key f1 = site_key f2.
Proof. intros Hn Hc. unfold site_key. by rewrite !lower_or_empty_sql, Hn, Hc. Qed.

(** C4. [query_expansions] puts the rows of the events with a stored
    expansion type (type (i)) before the rows of the planned and
    under-construction events (type (ii)) and keeps, for each lower-case
    (facility, city) key, the first row only. For every key [k] at most
    one mapping with key [k] is returned. For every key other than the
    empty one: exactly one is returned as soon as the store holds an
    event of either type for a facility with that key, so two stored
    facilities that differ only in letter case give one mapping; when
    the store holds a type-(i) event for the key, the mapping returned
    is the one of the first row of the first statement with that key,
    which is the row of a stored type-(i) event; and only when it holds
    none is the mapping the one of a type-(ii) row. *)
Theorem query_expansions_dedup_first_wins
    (d : db) (date_from date_to : option string) (k : string * string) :
  length (expansions_with_key d date_from date_to k) ≤ 1
  ∧ (k ≠ ("", "") →
  (∀ e f, event_at d e f → site_key f = k →
            type_i date_from date_to e || type_ii date_from date_to e = true →
            length (expansions_with_key d date_from date_to k) = 1)
  ∧ (∀ e1 f1 e2 f2, event_at d e1 f1 → event_at d e2 f2 →
        type_i date_from date_to e1 || type_ii date_from date_to e1 = true →
        type_i date_from date_to e2 || type_ii date_from date_to e2 = true →
        sql_lower (f_name f1) = sql_lower (f_name f2) →
        sql_lower (f_city f1) = sql_lower (f_city f2) →
        site_key f1 = k →
        site_key f2 = k ∧ length (expansions_with_key d date_from date_to k) = 1)
  ∧ (∀ e f, event_at d e f → site_key f = k → type_i date_from date_to e = true →
        ∃ r e1 f1,
          List.find (fun r => bool_decide (row_key r = k)) (rows1 d date_from date_to)
          = Some r
          ∧ expansions_with_key d date_from date_to k = [expansion_result_of r]
          ∧ event_at d e1 f1 ∧ type_i date_from date_to e1 = true
          ∧ site_key f1 = k
          ∧ r_expansion_type r = e_expansion_type e1
          ∧ r_event_date r = e_event_date e1 ∧ r_status r = e_status e1)
  ∧ ((∀ e f, event_at d e f → site_key f = k → type_i date_from date_to e = false) →
     ∀ e f, event_at d e f → site_key f = k → type_ii date_from date_to e = true →
        ∃ r, List.find (fun r => bool_decide (row_key r = k)) (rows2 d date_from date_to)
             = Some r
             ∧ expansions_with_key d date_from date_to k = [expansion_result_of r]
             ∧ r_expansion_type r = Some "expansion")).
Proof.
  unfold expansions_with_key. split.
  { destruct (decide (k = ("", ""))) as [->|Hk].
    - rewrite query_expansions_kept, filter_fmap_result.
      rewrite filter_none_of; [simpl; lia|].
      intros r Hr%list_elem_of_In. apply kept_rows_elem in Hr as (_ & _ & Hne).
      by apply bool_decide_eq_false.
    - rewrite query_expansions_first by done. destruct (List.find _ _); simpl; lia. }
  intros Hk. rewrite query_expansions_first by done.
  assert (Hrow : ∀ e f, event_at d e f → site_key f = k →
            type_i date_from date_to e || type_ii date_from date_to e = true →
            ∃ r, r ∈ rows1 d date_from date_to ++ rows2 d date_from date_to
                 ∧ row_key r = k).
  { intros e f Hef Hf [Hty|Hty]%orb_true_iff.
    - destruct (rows1_of d date_from date_to e f Hef Hty) as (r & Hr & Hrk).
      exists r. split; [apply elem_of_app; by left|congruence].
    - destruct (rows2_of d date_from date_to e f Hef Hty) as (r & Hr & Hrk).
      exists r. split; [apply elem_of_app; by right|congruence]. }
  assert (Hone : ∀ e f, event_at d e f → site_key f = k →
            type_i date_from date_to e || type_ii date_from date_to e = true →
            length (expansion_result_of <$> option_list
                      (List.find (fun r => bool_decide (row_key r = k))
                         (rows1 d date_from date_to ++ rows2 d date_from date_to))) = 1).
  { intros e f Hef Hf Hty. destruct (Hrow e f Hef Hf Hty) as (r & Hr & Hrk).
    destruct (find_is_Some (fun r => bool_decide (row_key r = k)) _ r Hr) as [r' ->];
      [by apply bool_decide_eq_true|done]. }
  split_and!.
  - exact Hone.
  - intros e1 f1 e2 f2 H1 H2 Hty1 Hty2 Hn Hc Hk1.
    assert (site_key f2 = k) as Hk2 by (by rewrite <- (site_key_sql f1 f2 Hn Hc)).
    split; [done|]. by eapply Hone.
  - intros e f Hef Hf Hty.
    destruct (rows1_of d date_from date_to e f Hef Hty) as (r0 & Hr0 & Hrk0).
    destruct (find_is_Some (fun r => bool_decide (row_key r = k))
                (rows1 d date_from date_to) r0 Hr0) as [r Hfind];
      [apply bool_decide_eq_true; congruence|].
    pose proof (find_key_elem _ _ _ Hfind) as [Hr Hrk].
    destruct (rows1_elem d date_from date_to r Hr)
      as (e1 & f1 & Hef1 & Hty1 & Hkey1 & Hx & Hd & Hs).
    exists r, e1, f1. split; [done|].
    split; [by rewrite (find_app_Some _ _ _ _ Hfind)|].
    split_and!; try done. congruence.
  - intros Hnone e f Hef Hf Hty.
    assert (Hfind1 : List.find (fun r => bool_decide (row_key r = k))
                               (rows1 d date_from date_to) = None).
    { destruct (List.find _ (rows1 d date_from date_to)) as [r|] eqn:Hfind; [|done].
      apply find_key_elem in Hfind as [Hr Hrk].
      destruct (rows1_elem d date_from date_to r Hr)
        as (e1 & f1 & Hef1 & Hty1 & Hkey1 & _).
      rewrite (Hnone e1 f1 Hef1) in Hty1; [done|congruence]. }
    destruct (rows2_of d date_from date_to e f Hef Hty) as (r0 & Hr0 & Hrk0).
    destruct (find_is_Some (fun r => bool_decide (row_key r = k))
                (rows2 d date_from date_to) r0 Hr0) as [r Hfind];
      [apply bool_decide_eq_true; congruence|].
    exists r. split; [done|]. split; [by rewrite find_app_None, Hfind|].
    apply find_key_elem in Hfind as [Hr _]. by eapply rows2_expansion_type.
Qed.

(** C10. [query_expansions] never returns a fully anonymous row: a row
    whose facility name and city are both empty or null is skipped, so
    no returned mapping has both fields blank and the empty key never
    enters [seen], whatever the store and the date bounds. *)
Theorem query_expansions_drops_anonymous_rows
    (d : db) (date_from date_to : option string) :
  let all_rows := rows1 d date_from date_to ++ rows2 d date_from date_to in
  (("", "") ∉ (expansion_loop all_rows).1)
  ∧ (∀ x, x ∈ query_expansions d date_from date_to →
          ¬ (blank (xr_facility x) ∧ blank (xr_city x)))
  ∧ (∀ r, r ∈ all_rows → blank (r_facility r) → blank (r_city r) →
          r ∉ kept_rows ∅ all_rows).
Proof.
  intros all_rows. split; [|split].
  - unfold expansion_loop. rewrite fold_expansion_step. simpl.
    intros [?%elem_of_empty|Hin]%elem_of_union; [done|].
    apply elem_of_list_to_set, list_elem_of_fmap in Hin as (r & Hk & Hr).
    apply kept_rows_elem in Hr as (_ & _ & Hne). by rewrite Hk in Hne.
  - intros x. rewrite query_expansions_kept.
    intros (r & -> & Hr)%list_elem_of_fmap.
    apply kept_rows_elem in Hr as (_ & _ & Hne).
    intros Hb. apply Hne, row_key_blank. exact Hb.
  - intros r _ Hf Hc Hr. apply kept_rows_elem in Hr as (_ & _ & Hne).
    apply Hne, row_key_blank. done.
Qed.

(** C7, as the code has it. Every row of the second statement (events
    whose status is planned or under-construction) carries the tag
    ["expansion"], which is a non-empty text, so the mapping built from it
    has [expansion_type = "expansion"]: the default ["greenfield"] is not
    applied to it. *)
Theorem type_ii_rows_keep_expansion_tag
    (d : db) (date_from date_to : option string) (r : exp_row) :
  r ∈ rows2 d date_from date_to →
  r_expansion_type r = Some "expansion"
  ∧ xr_expansion_type (expansion_result_of r) = "expansion".
Proof.
  intros Hr%rows2_expansion_type. split; [done|].
  unfold expansion_result_of. simpl. by rewrite Hr.
Qed.

End ExpansionFacts.

(** ** [query_facilities] *)

Module FacilityFacts.
Import Database GraphBuilder.

Lemma sql_eq_int_true x y : sql_eq_int x (Some y) = true ↔ x = Some y.
Proof.
  destruct x as [a|]; simpl; [|naive_solver].
  rewrite Z.eqb_eq. naive_solver.
Qed.

Lemma sql_eq_text_true x y : sql_eq_text x (Some y) = true ↔ x = Some y.
Proof.
  destruct x as [a|]; simpl; [|naive_solver].
  rewrite String.eqb_eq. naive_solver.
Qed.

(** The join of the evidence subqueries is empty exactly when no
    evidence row links a source to the facility. *)
Lemma facility_sources_nil d f :
  facility_sources d f = [] ↔ ¬ has_source_evidence d f.
Proof.
  unfold facility_sources, has_source_evidence. split.
  - intros Hnil (ev & s & Hev & Hs & H1 & H2 & H3).
    assert (In s []) as []. rewrite <- Hnil.
    apply in_flat_map. exists s. split; [by apply list_elem_of_In|].
    apply in_flat_map. exists ev. split; [by apply list_elem_of_In|].
    rewrite H1, H2, H3. simpl. rewrite Z.eqb_refl, Z.eqb_refl. by left.
  - intros Hno. destruct (flat_map _ _) as [|s0 l] eqn:Hfm; [done|].
    exfalso. apply Hno.
    assert (In s0 (s0 :: l)) as Hin by (by left). rewrite <- Hfm in Hin.
    apply in_flat_map in Hin as (s & Hs & Hin).
    apply in_flat_map in Hin as (ev & Hev & Hin).
    destruct (sql_eq_int (ev_source_id ev) _) eqn:E1; [|done].
    destruct (sql_eq_int (ev_entity_id ev) _) eqn:E2; [|done].
    destruct (sql_eq_text (ev_entity_type ev) _) eqn:E3; [|done].
    exists ev, s. rewrite !list_elem_of_In.
    apply sql_eq_int_true in E1, E2. apply sql_eq_text_true in E3. done.
Qed.

Lemma query_facilities_elem d division state status f :
  f ∈ rows (facilities d) →
  facility_where d division state f = true →
  status_filter status (facility_result_of d f) = true →
  facility_result_of d f ∈ query_facilities d division state status.
Proof.
  intros Hf Hw Hs. unfold query_facilities.
  apply list_elem_of_In, filter_In. split; [|done].
  apply list_elem_of_In, list_elem_of_fmap. exists f. split; [done|].
  apply list_elem_of_In, filter_In. split; [by apply list_elem_of_In|done].
Qed.

(** C8. A facility that no evidence row links to a source is still
    returned by [query_facilities] (by the unfiltered call, and by every
    call whose filters it passes), and its mapping has
    [source_title = "Motherson Address Directory"] and the fixed
    address-directory URL, which is not null. *)
Theorem query_facilities_defaults_without_evidence (d : db) (f : facility_row) :
  f ∈ rows (facilities d) →
  ¬ has_source_evidence d f →
  let x := facility_result_of d f in
  x ∈ query_facilities d None None None
  ∧ fr_id x = f_id f
  ∧ fr_source_title x = "Motherson Address Directory"
  ∧ fr_url x = "https://www.motherson.com/contact/address-directory"
  ∧ (∀ division state status,
       facility_where d division state f = true →
       status_filter status x = true →
       x ∈ query_facilities d division state status).
Proof.
  intros Hf Hno%facility_sources_nil x.
  split; [by apply query_facilities_elem|].
  split; [done|]. subst x. split; [|split].
  - unfold facility_result_of. simpl. by rewrite Hno.
  - unfold facility_result_of. simpl. by rewrite Hno.
  - intros division state status Hw Hs. by apply query_facilities_elem.
Qed.

End FacilityFacts.

(** ** The entity resolver *)

Module ResolverFacts.
Import EntityResolver.

Lemma loc_lower_empty loc : loc_lower loc = "" ↔ loc = "".
Proof.
  unfold loc_lower. destruct (String.eqb_spec loc "") as [->|Hne]; [done|].
  by rewrite lower_empty.
Qed.

Lemma loc_tokens_empty : loc_tokens "" = ∅.
Proof. done. Qed.

Lemma size_zero_iff (X : gset string) : (size X =? 0) = true ↔ X = ∅.
Proof. rewrite Nat.eqb_eq, size_empty_iff. by unfold_leibniz. Qed.

(** C2, as the code has it. Rule 1 of [should_merge] returns [True]
    exactly when the normalized names are identical and non-empty and
    either the location token sets intersect, or at least one of the two
    locations is empty and the name is longer than five characters. *)
Theorem rule1_merges_iff (norm_name1 norm_name2 loc1 loc2 : string) :
  rule1 norm_name1 norm_name2 loc1 loc2 = Some true
  ↔ norm_name1 = norm_name2 ∧ norm_name1 ≠ ""
    ∧ (loc_tokens loc1 ∩ loc_tokens loc2 ≠ ∅
       ∨ ((loc1 = "" ∨ loc2 = "") ∧ 5 < String.length norm_name1)).
Proof.
  unfold rule1.
  destruct (String.eqb_spec norm_name1 norm_name2) as [<-|Hne]; simpl;
    [|naive_solver].
  destruct (String.eqb_spec norm_name1 "") as [->|Hn]; simpl; [naive_solver|].
  destruct (String.eqb_spec (loc_lower loc1) "") as [H1|H1]; simpl.
  { apply loc_lower_empty in H1 as ->. rewrite loc_tokens_empty.
    destruct (Nat.ltb_spec 5 (String.length norm_name1)); split;
      try naive_solver;
      intros (_ & _ & [Hi|[_ ?]]); [set_solver|lia]. }
  destruct (String.eqb_spec (loc_lower loc2) "") as [H2|H2]; simpl.
  { apply loc_lower_empty in H2 as ->. rewrite loc_tokens_empty.
    destruct (Nat.ltb_spec 5 (String.length norm_name1)); split;
      try naive_solver;
      intros (_ & _ & [Hi|[_ ?]]); [set_solver|lia]. }
  rewrite loc_lower_empty in H1, H2.
  fold (loc_tokens loc1) (loc_tokens loc2).
  destruct (size (loc_tokens loc1 ∩ loc_tokens loc2) =? 0) eqn:Hs; simpl.
  - apply size_zero_iff in Hs. naive_solver.
  - assert (loc_tokens loc1 ∩ loc_tokens loc2 ≠ ∅).
    { intros Hx%size_zero_iff. congruence. }
    naive_solver.
Qed.

(** When Rule 1 returns, [should_merge] returns the same answer. *)
Lemma should_merge_rule1 name1 loc1 name2 loc2 threshold n1 n2 b :
  normalize_name name1 = Ok n1 → normalize_name name2 = Ok n2 →
  rule1 n1 n2 loc1 loc2 = Some b →
  should_merge name1 loc1 name2 loc2 threshold = Ok b.
Proof. unfold should_merge. intros -> -> H. simpl. by rewrite H. Qed.



Lemma resolve_singleton fac : resolve_facilities [fac] = Ok [tagged fac 1].
Proof.
  unfold resolve_facilities, division_groups. simpl.
  unfold resolve_division, enumerate. simpl.
  case_bool_decide; [set_solver|done].
Qed.

(** *** The merge groups partition the input *)

Lemma unmerged_add_notin M j T :
  j ∉ T → unmerged (M ∪ {[j]}) T = unmerged M T.
Proof.
  induction T as [|x T IH]; intros Hj; simpl; [done|].
  apply not_elem_of_cons in Hj as [Hjx HjT]. rewrite IH by done.
  destruct (decide (x ∈ M)) as [Hx|Hx].
  - rewrite !bool_decide_eq_false_2; [done| |]; set_solver.
  - rewrite !bool_decide_eq_true_2; [done| |]; set_solver.
Qed.

(** Marking a free index of [T] as merged leaves one free index less. *)
Lemma unmerged_add M j T :
  NoDup T → j ∈ T → j ∉ M →
  length (unmerged (M ∪ {[j]}) T) + 1 = length (unmerged M T).
Proof.
  induction T as [|x T IH]; intros Hnd Hj HjM; [by apply elem_of_nil in Hj|].
  apply NoDup_cons in Hnd as [HxT Hnd]. simpl.
  destruct (decide (j = x)) as [->|Hne].
  - rewrite unmerged_add_notin by done.
    rewrite bool_decide_eq_false_2 by set_solver.
    rewrite bool_decide_eq_true_2 by done. simpl. lia.
  - apply elem_of_cons in Hj as [?|Hj]; [done|].
    specialize (IH Hnd Hj HjM).
    destruct (decide (x ∈ M)) as [Hx|Hx].
    + rewrite !bool_decide_eq_false_2; [done| |]; set_solver.
    + rewrite !bool_decide_eq_true_2; [simpl; lia| |]; set_solver.
Qed.

Lemma unmerged_empty T : unmerged ∅ T = T.
Proof.
  induction T as [|x T IH]; simpl; [done|].
  rewrite bool_decide_eq_true_2 by set_solver. by rewrite IH.
Qed.

Lemma merge_group_count G m :
  _merge_facility_group G = Ok m → merge_count_of m = Z.of_nat (length G).
Proof.
  unfold _merge_facility_group. destruct G as [|base others]; [done|].
  destruct (foldlM _ _ _) as [merged|]; simpl; [|done].
  intros [= <-]. unfold merge_count_of. by rewrite lookup_insert_eq.
Qed.

Lemma sum_merge_count_app R m :
  sum_merge_count (R ++ [m]) = (sum_merge_count R + merge_count_of m)%Z.
Proof. induction R as [|r R IH]; simpl; [lia|]. rewrite IH. lia. Qed.

(** The inner loop: every candidate it adds to the group is a free
    index above [i], which it marks as merged. *)
Lemma inner_loop_count i fac1 n js :
  (∀ j f, (j, f) ∈ js → j < n) →
  ∀ M G M' G',
    foldlM (inner_step i fac1) (M, G) js = Ok (M', G') →
    length G' + length (unmerged M' (seq (S i) (n - S i)))
    = length G + length (unmerged M (seq (S i) (n - S i)))
    ∧ length G ≤ length G'.
Proof.
  induction js as [|[j fac2] js IH]; intros Hjs M G M' G'; simpl.
  { intros [= <- <-]. lia. }
  assert (Hjs' : ∀ j f, (j, f) ∈ js → j < n).
  { intros j' f' ?. apply (Hjs j' f'). by right. }
  assert (Hj : j < n) by (apply (Hjs j fac2); by left).
  destruct (bool_decide (j ≤ i)) eqn:Hle; simpl; [by apply IH|].
  destruct (bool_decide (j ∈ M)) eqn:HjM; simpl; [by apply IH|].
  apply bool_decide_eq_false in Hle, HjM.
  destruct (normalize_location (Py.get_none fac1 "city") _) as [loc1|];
    simpl; [|done].
  destruct (normalize_location (Py.get_none fac2 "city") _) as [loc2|];
    simpl; [|done].
  destruct (should_merge _ _ _ _ _) as [[|]|]; simpl; [| by apply IH | done].
  intros Hrun. apply IH in Hrun as [Heq Hlen]; [|done].
  rewrite length_app in Heq, Hlen. simpl in Heq, Hlen.
  assert (length (unmerged (M ∪ {[j]}) (seq (S i) (n - S i))) + 1
          = length (unmerged M (seq (S i) (n - S i)))).
  { apply unmerged_add; [apply NoDup_seq| |done]. apply elem_of_seq. lia. }
  lia.
Qed.

Lemma enumerate_lt {A : Type} (l : list A) j x : (j, x) ∈ enumerate l → j < length l.
Proof.
  unfold enumerate. intros Hin%elem_of_zip_l. apply elem_of_seq in Hin. lia.
Qed.

(** The outer loop: what it adds to the sum of [merge_count] is the
    number of indices still free when it starts. *)
Lemma outer_loop_count fac_list : ∀ l p M R M' R',
  p + length l = length fac_list →
  foldlM (outer_step fac_list) (M, R) (zip (seq p (length l)) l) = Ok (M', R') →
  sum_merge_count R'
  = (sum_merge_count R + Z.of_nat (length (unmerged M (seq p (length l)))))%Z
  ∧ length R' ≤ length R + length (unmerged M (seq p (length l))).
Proof.
  induction l as [|fac1 l IH]; intros p M R M' R' Hp; simpl.
  { intros [= <- <-]. lia. }
  simpl in Hp.
  destruct (bool_decide (p ∈ M)) eqn:HpM; simpl.
  { apply bool_decide_eq_true in HpM.
    rewrite bool_decide_eq_false_2 by (intros ?; done).
    apply IH. lia. }
  apply bool_decide_eq_false in HpM.
  rewrite bool_decide_eq_true_2 by done. simpl.
  destruct (foldlM (inner_step p fac1) _ _) as [[M1 G]|] eqn:Hinner; simpl; [|done].
  destruct (_merge_facility_group G) as [m|] eqn:Hm; simpl; [|done].
  intros Hrun. apply IH in Hrun as [Hsum Hlen]; [|lia].
  apply (inner_loop_count p fac1 (length fac_list)) in Hinner as [Hcnt HG];
    [|intros j f; apply enumerate_lt].
  replace (length fac_list - S p) with (length l) in Hcnt by lia.
  apply merge_group_count in Hm.
  rewrite sum_merge_count_app, Hm in Hsum.
  rewrite length_app in Hlen. simpl in *. lia.
Qed.

Lemma group_append_total div fac groups :
  group_total (group_append div fac groups) = S (group_total groups).
Proof.
  induction groups as [|[d facs] groups IH]; simpl; [done|].
  destruct (Py.eqb d div); simpl.
  - rewrite length_app. simpl. lia.
  - rewrite IH. lia.
Qed.

Lemma division_groups_total facilities :
  group_total (division_groups facilities) = length facilities.
Proof.
  unfold division_groups.
  assert (H : ∀ groups,
    group_total (fold_left (fun groups fac =>
        group_append (Py.get fac "division" (VStr "Unknown")) fac groups)
      facilities groups) = length facilities + group_total groups).
  { induction facilities as [|fac facs IH]; intros groups; simpl; [done|].
    rewrite IH, group_append_total. lia. }
  rewrite H. simpl. lia.
Qed.

Lemma resolve_division_count R g R1 :
  resolve_division R g = Ok R1 →
  sum_merge_count R1 = (sum_merge_count R + Z.of_nat (length g.2))%Z
  ∧ length R1 ≤ length R + length g.2.
Proof.
  unfold resolve_division.
  destruct (foldlM (outer_step g.2) _ _) as [[M1 R1']|] eqn:Houter; simpl; [|done].
  intros [= <-].
  apply (outer_loop_count g.2 g.2 0) in Houter as [Hs1 Hl1]; [|done].
  by rewrite unmerged_empty, length_seq in Hs1, Hl1.
Qed.

Lemma resolve_groups_count groups : ∀ R R',
  foldlM resolve_division R groups = Ok R' →
  sum_merge_count R' = (sum_merge_count R + Z.of_nat (group_total groups))%Z
  ∧ length R' ≤ length R + group_total groups.
Proof.
  induction groups as [|g groups IH]; intros R R'.
  { intros [= <-]. simpl. lia. }
  change (group_total (g :: groups)) with (length g.2 + group_total groups).
  cbn [foldlM].
  destruct (resolve_division R g) as [R1|] eqn:Hg; simpl; [|done].
  intros Hrun. apply IH in Hrun as [Hsum Hlen].
  apply resolve_division_count in Hg as [Hs1 Hl1]. lia.
Qed.

Lemma resolve_facilities_count (facilities resolved : list (gmap string pyval)) :
  resolve_facilities facilities = Ok resolved →
  sum_merge_count resolved = Z.of_nat (length facilities)
  ∧ length resolved ≤ length facilities.
Proof.
  unfold resolve_facilities. destruct facilities as [|fac facs] eqn:E.
  { by intros [= <-]. }
  rewrite <- E. intros Hrun%resolve_groups_count.
  rewrite division_groups_total in Hrun. simpl in Hrun. lia.
Qed.


(** *** The resolver returns on well-typed candidates *)

Lemma foldlM_total {A B : Type} (f : A → B → res A) (P : A → Prop) (Q : B → Prop) :
  (∀ a b, P a → Q b → ∃ a', f a b = Ok a' ∧ P a') →
  ∀ l a, P a → Forall Q l → ∃ a', foldlM f a l = Ok a' ∧ P a'.
Proof.
  intros Hf. induction l as [|b l IH]; intros a Ha Hl; simpl; [eauto|].
  apply Forall_cons in Hl as [Hb Hl].
  destruct (Hf a b Ha Hb) as (a' & -> & Ha'). simpl. by apply IH.
Qed.

Lemma text_like_normalize_name v :
  text_like v = true → ∃ s, normalize_name v = Ok s.
Proof.
  unfold normalize_name. destruct v as [|b|z|q|s]; simpl; intros H; eauto;
    rewrite ?H; simpl; eauto.
  destruct (negb _); eauto.
Qed.

Lemma text_like_location_part v :
  text_like v = true → ∃ p, location_part v = Ok p.
Proof.
  unfold location_part. destruct v as [|b|z|q|s]; simpl; intros H; eauto;
    try (apply negb_true_iff in H; rewrite H; eauto).
  destruct (negb _); eauto.
Qed.

Lemma well_typed_get fac k dflt :
  well_typed fac → field_ok k dflt = true → field_ok k (Py.get fac k dflt) = true.
Proof.
  intros Hfac Hd. unfold Py.get. destruct (fac !! k) as [v|] eqn:Hk; simpl; [|done].
  by apply (Hfac k v).
Qed.

Lemma well_typed_location fac :
  well_typed fac →
  ∃ loc, normalize_location (Py.get_none fac "city") (Py.get_none fac "state") = Ok loc.
Proof.
  intros Hfac. unfold normalize_location.
  destruct (text_like_location_part (Py.get_none fac "city")) as [p1 ->].
  { by apply (well_typed_get fac "city" VNone). }
  destruct (text_like_location_part (Py.get_none fac "state")) as [p2 ->].
  { by apply (well_typed_get fac "state" VNone). }
  simpl. eauto.
Qed.

Lemma well_typed_should_merge fac1 fac2 loc1 loc2 threshold :
  well_typed fac1 → well_typed fac2 →
  ∃ b, should_merge (Py.get fac1 "name" (VStr "")) loc1
                    (Py.get fac2 "name" (VStr "")) loc2 threshold = Ok b.
Proof.
  intros H1 H2. unfold should_merge.
  destruct (text_like_normalize_name (Py.get fac1 "name" (VStr ""))) as [n1 ->].
  { by apply (well_typed_get fac1 "name" (VStr "")). }
  destruct (text_like_normalize_name (Py.get fac2 "name" (VStr ""))) as [n2 ->].
  { by apply (well_typed_get fac2 "name" (VStr "")). }
  simpl. destruct (rule1 _ _ _ _); eauto.
Qed.

Lemma well_typed_insert merged k v :
  well_typed merged → field_ok k v = true → well_typed (<[k := v]> merged).
Proof. intros. by apply map_Forall_insert_2. Qed.

Lemma lt_text_like a b :
  text_like a = true → Py.truthy a = true →
  text_like b = true → Py.truthy b = true →
  ∃ r, Py.lt a b = Ok r.
Proof.
  destruct a as [|?|?|?|s]; simpl; intros Ha Ta; try congruence;
    try (rewrite Ta in Ha; done).
  destruct b as [|?|?|?|t]; simpl; intros Hb Tb; try congruence;
    try (rewrite Tb in Hb; done).
  eauto.
Qed.

Lemma lt_num_like a b :
  num_like a = true → Py.truthy a = true →
  num_like b = true → Py.truthy b = true →
  ∃ r, Py.lt a b = Ok r.
Proof.
  destruct a as [|?|?|?|s]; simpl; intros Ha Ta; try congruence;
    try (rewrite Ha in Ta; done);
    (destruct b as [|?|?|?|t]; simpl; intros Hb Tb; try congruence;
     try (rewrite Hb in Tb; done); eauto).
Qed.

(** One field of a well-typed member merges into a well-typed record
    without an exception. *)
Lemma merge_field_total merged k v :
  well_typed merged → field_ok k v = true →
  ∃ merged', merge_field merged (k, v) = Ok merged' ∧ well_typed merged'.
Proof.
  intros Hm Hv. unfold merge_field.
  set (m1 := if negb (Py.truthy (Py.get_none merged k)) && Py.truthy v
             then <[k := v]> merged else merged).
  assert (Hm1 : well_typed m1).
  { subst m1. destruct (_ && _); [by apply well_typed_insert|done]. }
  clearbody m1.
  assert (Hcur : field_ok k (Py.get_none m1 k) = true).
  { apply well_typed_get; [done|]. unfold field_ok.
    repeat (case_bool_decide; simpl; try done). }
  assert (∃ m2, (if (bool_decide (k = "event_date") || bool_decide (k = "announcement_date"))
                    && Py.truthy v
                 then if negb (Py.truthy (Py.get_none m1 k)) then Ok (<[k := v]> m1)
                      else b ← Py.lt v (Py.get_none m1 k);
                           Ok (if b : bool then <[k := v]> m1 else m1)
                 else Ok m1) = Ok m2 ∧ well_typed m2) as (m2 & -> & Hm2).
  { destruct ((bool_decide (k = "event_date") || bool_decide (k = "announcement_date"))
              && Py.truthy v) eqn:Hd; [|eauto].
    apply andb_true_iff in Hd as [Hk Tv].
    destruct (Py.truthy (Py.get_none m1 k)) eqn:Tc; simpl;
      [|eauto using well_typed_insert].
    assert (text_like v = true ∧ text_like (Py.get_none m1 k) = true) as [Hv' Hc'].
    { revert Hv Hcur. unfold field_ok.
      apply orb_true_iff in Hk as [->%bool_decide_eq_true| ->%bool_decide_eq_true];
        simpl; done. }
    destruct (lt_text_like v (Py.get_none m1 k)) as [b ->]; [done..|].
    simpl. destruct b; eauto using well_typed_insert. }
  simpl. clear Hcur.
  assert (Hcur : field_ok k (Py.get_none m2 k) = true).
  { apply well_typed_get; [done|]. unfold field_ok.
    repeat (case_bool_decide; simpl; try done). }
  destruct (bool_decide (k = "confidence") && Py.truthy v) eqn:Hd; [|eauto].
  apply andb_true_iff in Hd as [->%bool_decide_eq_true Tv].
  destruct (Py.truthy (Py.get_none m2 "confidence")) eqn:Tc; simpl;
    [|eauto using well_typed_insert].
  unfold Py.gt.
  destruct (lt_num_like (Py.get_none m2 "confidence") v) as [b ->]; [done..|].
  simpl. destruct b; eauto using well_typed_insert.
Qed.

Lemma merge_group_total G :
  G ≠ [] → Forall well_typed G → ∃ m, _merge_facility_group G = Ok m.
Proof.
  destruct G as [|base others]; [done|]. intros _ [Hb Ho]%Forall_cons.
  unfold _merge_facility_group.
  destruct (foldlM_total
              (fun merged fac => foldlM merge_field merged (map_to_list fac))
              well_typed well_typed) with (l := others) (a := base)
    as (m & -> & _); [|done..|simpl; eauto].
  intros merged fac Hm Hfac.
  apply (foldlM_total merge_field well_typed
           (fun kv => field_ok kv.1 kv.2 = true)); [|done|].
  - intros a [k v] Ha Hkv. by apply merge_field_total.
  - apply Forall_forall. intros [k v] Hkv%elem_of_map_to_list. by apply (Hfac k v).
Qed.

Lemma inner_loop_total i fac1 js M G :
  well_typed fac1 → Forall (fun jf => well_typed jf.2) js →
  Forall well_typed G → G ≠ [] →
  ∃ M' G', foldlM (inner_step i fac1) (M, G) js = Ok (M', G')
           ∧ Forall well_typed G' ∧ G' ≠ [].
Proof.
  intros H1 Hjs HG Hne.
  destruct (foldlM_total (inner_step i fac1)
              (fun st => Forall well_typed st.2 ∧ st.2 ≠ [])
              (fun jf => well_typed jf.2)) with (l := js) (a := (M, G))
    as ([M' G'] & Hrun & HG' & Hne'); [|done..|eauto].
  clear Hjs HG Hne M G. intros [M G] [j fac2] [HG Hne] H2. simpl in *.
  unfold inner_step.
  destruct (bool_decide (j ≤ i) || bool_decide (j ∈ M)); [eauto|].
  destruct (well_typed_location fac1 H1) as [loc1 ->].
  destruct (well_typed_location fac2 H2) as [loc2 ->]. simpl.
  destruct (well_typed_should_merge fac1 fac2 loc1 loc2 default_threshold H1 H2)
    as [b ->].
  simpl. destruct b; [|eauto].
  eexists. split; [done|]. simpl. split.
  - apply Forall_app. split; [done|]. by apply Forall_singleton.
  - by destruct G.
Qed.

Lemma enumerate_well_typed (fac_list : list (gmap string pyval)) :
  Forall well_typed fac_list →
  Forall (fun jf : nat * gmap string pyval => well_typed jf.2) (enumerate fac_list).
Proof.
  intros Hall. apply Forall_forall. intros [j fac] Hin%elem_of_zip_r.
  by apply (proj1 (Forall_forall _ _) Hall).
Qed.

Lemma outer_loop_total fac_list st :
  Forall well_typed fac_list →
  ∃ st', foldlM (outer_step fac_list) st (enumerate fac_list) = Ok st'.
Proof.
  intros Hall.
  destruct (foldlM_total (outer_step fac_list) (fun _ => True)
              (fun jf => well_typed jf.2)) with (l := enumerate fac_list) (a := st)
    as (st' & -> & _); [|done|by apply enumerate_well_typed|eauto].
  intros [M R] [i fac1] _ H1. simpl in H1. unfold outer_step.
  destruct (bool_decide (i ∈ M)); [eauto|].
  destruct (inner_loop_total i fac1 (enumerate fac_list) M [fac1])
    as (M' & G' & -> & HG' & Hne');
    [done|by apply enumerate_well_typed|by apply Forall_singleton|done|].
  simpl. destruct (merge_group_total G' Hne' HG') as [m ->]. simpl. eauto.
Qed.

Lemma group_append_well_typed div fac groups :
  well_typed fac →
  Forall (fun g : pyval * list (gmap string pyval) => Forall well_typed g.2) groups →
  Forall (fun g : pyval * list (gmap string pyval) => Forall well_typed g.2)
         (group_append div fac groups).
Proof.
  intros Hfac. induction groups as [|[d facs] groups IH]; simpl; intros Hg.
  - apply Forall_singleton. simpl. by apply Forall_singleton.
  - apply Forall_cons in Hg as [Hd Hg]. destruct (Py.eqb d div).
    + apply Forall_cons. split; [|done]. simpl in *.
      apply Forall_app. split; [done|]. by apply Forall_singleton.
    + apply Forall_cons. split; [done|]. by apply IH.
Qed.

Lemma division_groups_well_typed facilities :
  Forall well_typed facilities →
  Forall (fun g : pyval * list (gmap string pyval) => Forall well_typed g.2)
         (division_groups facilities).
Proof.
  unfold division_groups.
  assert (H : ∀ groups,
    Forall well_typed facilities →
    Forall (fun g : pyval * list (gmap string pyval) => Forall well_typed g.2) groups →
    Forall (fun g : pyval * list (gmap string pyval) => Forall well_typed g.2)
      (fold_left (fun groups fac =>
          group_append (Py.get fac "division" (VStr "Unknown")) fac groups)
        facilities groups)).
  { induction facilities as [|fac facs IH]; intros groups Hall Hg; simpl; [done|].
    apply Forall_cons in Hall as [Hfac Hall].
    apply IH; [done|]. by apply group_append_well_typed. }
  intros Hall. by apply H.
Qed.

(** On candidates whose fields have the types of the upstream
    interface, [resolve_facilities] raises nothing: it returns records. *)
Lemma resolve_facilities_returns (facilities : list (gmap string pyval)) :
  Forall well_typed facilities →
  ∃ resolved, resolve_facilities facilities = Ok resolved.
Proof.
  intros Hall. unfold resolve_facilities. destruct facilities as [|fac facs] eqn:E.
  { eauto. }
  rewrite <- E in *. clear E fac facs.
  destruct (foldlM_total resolve_division (fun _ => True)
              (fun g => Forall well_typed g.2))
    with (l := division_groups facilities) (a := @nil (gmap string pyval))
    as (out & -> & _); [|done|by apply division_groups_well_typed|eauto].
  intros R g _ Hg. unfold resolve_division.
  destruct (outer_loop_total g.2 (∅, R) Hg) as [[M' R'] ->]. simpl. eauto.
Qed.

(** X28. On candidates whose fields have the types of the upstream
    interface, [resolve_facilities] raises nothing: it returns records,
    and their merge counts add up to the number of candidates. *)
Corollary resolve_facilities_returns_partition (facilities : list (gmap string pyval)) :
  Forall well_typed facilities →
  ∃ resolved, resolve_facilities facilities = Ok resolved
              ∧ sum_merge_count resolved = Z.of_nat (length facilities)
              ∧ length resolved ≤ length facilities.
Proof.
  intros [resolved Hrun]%resolve_facilities_returns.
  exists resolved. split; [done|]. by apply resolve_facilities_count.
Qed.

End ResolverFacts.

(** ** Ingestion *)

Module IngestionFacts.
Import Database GraphBuilder Samples.

(** A posting without the key [is_factory_role] is stored with the
    flag [0], whatever the store and the source. *)
Lemma insert_job_without_flag job_data source_id d id d' :
  job_data !! "is_factory_role" = None →
  _insert_job job_data source_id d = (Ok (Some id), d') →
  ∃ row, rows (jobs d') = rows (jobs d) ++ [row]
         ∧ j_is_factory_role row = Some 0%Z.
Proof.
  intros Hflag. unfold _insert_job, try_except, bind, lift, Item.get_none, Item.get.
  rewrite Hflag. simpl.
  destruct (bind_text (default (JStr "") (job_data !! "title"))); [|by intros [=]].
  destruct (bind_text (default (JStr "India") (job_data !! "location"))); [|by intros [=]].
  destruct (bind_text (default JNull (job_data !! "posted_date"))); [|by intros [=]].
  destruct (bind_text (default JNull (job_data !! "description"))); [|by intros [=]].
  intros [= <- <-]. simpl. eauto.
Qed.

(** C1. Ingesting one batch twice. The batch holds one directory row
    without a city, which is stored with a [NULL] city; the lookup of the
    second run compares [LOWER(city)] with [LOWER(NULL)], finds nothing and
    inserts the facility again. Both runs return; the divisions stay at
    one row, the facilities go from one to two. *)
Theorem second_ingestion_adds_a_facility :
  (∃ st, (build_graph batch_no_city empty_db).1 = Ok st)
  ∧ (∃ st, (build_graph batch_no_city db_once).1 = Ok st)
  ∧ total_divisions (get_statistics db_once) = 1
  ∧ total_divisions (get_statistics db_twice) = 1
  ∧ total_facilities (get_statistics db_once) = 1
  ∧ total_facilities (get_statistics db_twice) = 2.
Proof. repeat split; first [by eexists; vm_compute | by vm_compute]. Qed.

(** C3. A batch of two items whose first item has a candidate with a
    null division: [_ensure_division] raises [AttributeError], nothing
    catches it, [build_graph] ends with that exception and the second
    item is never read, although alone it is ingested without error. *)
Theorem null_division_aborts_the_batch :
  (build_graph batch_null_division empty_db).1 = Raise AttributeError
  ∧ rows (facilities (build_graph batch_null_division empty_db).2) = []
  ∧ s_url <$> rows (sources (build_graph batch_null_division empty_db).2)
    = [Some "https://a"]
  ∧ f_name <$> rows (facilities (ingest [directory_item "https://b" [fac_pune]] empty_db))
    = [Some "Chakan Plant"].
Proof. by vm_compute. Qed.

(** C6. A pre-structured job candidate without [is_factory_role] is
    stored with [is_factory_role = 0]; the same posting as a loose
    job-title mention is stored with [1]. *)
Theorem structured_job_without_flag_is_stored_false :
  job_operator !! "is_factory_role" = None
  ∧ (j_title <$> rows (jobs (ingest batch_jobs empty_db))) = [Some "Machine Operator"]
  ∧ (j_is_factory_role <$> rows (jobs (ingest batch_jobs empty_db))) = [Some 0%Z]
  ∧ (j_is_factory_role <$> rows (jobs (ingest batch_job_mention empty_db))) = [Some 1%Z].
Proof. by vm_compute. Qed.

End IngestionFacts.

(** ** Idempotence of ingestion on keyed candidates *)

Module IdempotenceFacts.
Import Database GraphBuilder.

Lemma grows_refl d : grows d d.
Proof. split; [done|]. split; exists []; by rewrite app_nil_r. Qed.

Lemma grows_trans d1 d2 d3 : grows d1 d2 → grows d2 d3 → grows d1 d3.
Proof.
  intros (Hc1 & [ds1 Hd1] & [fs1 Hf1]) (Hc2 & [ds2 Hd2] & [fs2 Hf2]).
  split; [congruence|]. split.
  - exists (ds1 ++ ds2). by rewrite Hd2, Hd1, app_assoc.
  - exists (fs1 ++ fs2). by rewrite Hf2, Hf1, app_assoc.
Qed.

Lemma same_identity_refl d : same_identity d d.
Proof. done. Qed.

Lemma same_identity_trans d1 d2 d3 :
  same_identity d1 d2 → same_identity d2 d3 → same_identity d1 d3.
Proof. intros (?&?&?) (?&?&?). repeat split; congruence. Qed.

Lemma same_identity_grows d d' : same_identity d d' → grows d d'.
Proof.
  intros (Hc & Hd & Hf). split; [done|]. rewrite Hd, Hf.
  split; exists []; by rewrite app_nil_r.
Qed.

Lemma division_present_grows cid s d d' :
  grows d d' → division_present cid s d → division_present cid s d'.
Proof.
  intros (_ & [ds Hd] & _) (r & Hr & ?). exists r. split; [|done].
  rewrite Hd. apply elem_of_app. by left.
Qed.

Lemma facility_present_grows n c d d' :
  grows d d' → facility_present n c d → facility_present n c d'.
Proof.
  intros (_ & _ & [fs Hf]) (r & Hr & ?). exists r. split; [|done].
  rewrite Hf. apply elem_of_app. by left.
Qed.

Lemma key_present_grows cid k d d' :
  grows d d' → key_present cid k d → key_present cid k d'.
Proof.
  destruct k as [[[s n] c]|]; simpl; [|done]. intros Hg [Hd Hf].
  eauto using division_present_grows, facility_present_grows.
Qed.

Lemma bind_ok {A B : Type} (m : M A) (f : A → M B) d a d' :
  m d = (Ok a, d') → bind m f d = f a d'.
Proof. unfold bind. by intros ->. Qed.

(** A loop whose body never raises, only extends the identity tables,
    leaves its element present, and changes no identity table when the
    element is already present: the whole loop does the same for the
    whole list. *)
Lemma for_each_spec {A B : Type} (f : A → B → M A)
    (good : B → Prop) (C : B → db → Prop) :
  (∀ b d d', grows d d' → C b d → C b d') →
  (∀ a b d, good b →
     ∃ a' d', f a b d = (Ok a', d') ∧ grows d d' ∧ C b d'
              ∧ (C b d → same_identity d d')) →
  ∀ l a d, Forall good l →
    ∃ a' d', for_each f a l d = (Ok a', d') ∧ grows d d'
             ∧ Forall (fun b => C b d') l
             ∧ (Forall (fun b => C b d) l → same_identity d d').
Proof.
  intros Hmono Hstep. induction l as [|b l IH]; intros a d Hl; simpl.
  { exists a, d. split; [done|]. split; [apply grows_refl|]. done. }
  apply Forall_cons in Hl as [Hb Hl].
  destruct (Hstep a b d Hb) as (a1 & d1 & Hrun & Hg1 & Hc1 & Hs1).
  destruct (IH a1 d1 Hl) as (a2 & d2 & Hrun2 & Hg2 & Hc2 & Hs2).
  exists a2, d2. rewrite (bind_ok _ _ _ _ _ Hrun). split; [done|].
  split; [by eapply grows_trans|]. split.
  - apply Forall_cons. split; [by eapply Hmono|done].
  - intros [Hb0 Hl0]%Forall_cons.
    specialize (Hs1 Hb0). eapply same_identity_trans; [done|]. apply Hs2.
    eapply Forall_impl; [exact Hl0|]. intros x Hx. simpl in Hx.
    eapply Hmono; [|exact Hx]. by apply same_identity_grows.
Qed.

Lemma ensure_company_spec d :
  ∃ cid d0, _ensure_company d = (Ok cid, d0)
            ∧ divisions d0 = divisions d ∧ facilities d0 = facilities d
            ∧ (∀ d', companies d' = companies d0 → _ensure_company d' = (Ok cid, d')).
Proof.
  unfold _ensure_company.
  destruct (List.filter _ (rows (companies d))) as [|r rs] eqn:Hf.
  - eexists _, _. split; [done|]. split; [done|]. split; [done|].
    intros d' ->. simpl. rewrite List.filter_app, Hf. done.
  - eexists _, _. split; [done|]. split; [done|]. split; [done|].
    intros d' ->. by rewrite Hf.
Qed.

Lemma ensure_division_spec cid s d :
  ∃ id d', _ensure_division cid (JStr s) d = (Ok id, d')
           ∧ grows d d' ∧ division_present cid s d'
           ∧ (division_present cid s d → d' = d).
Proof.
  unfold _ensure_division. fold (normalized_division s).
  destruct (List.filter _ (rows (divisions d))) as [|r rs] eqn:Hf.
  - eexists _, _. split; [done|]. split; [|split].
    + split; [done|]. split; [by eexists|]. exists []. by rewrite app_nil_r.
    + eexists. split; [apply elem_of_app; right; by apply list_elem_of_singleton|].
      done.
    + intros (r & Hr & Hc & Hn). exfalso.
      assert (In r []) as []. rewrite <- Hf. apply filter_In.
      split; [by apply list_elem_of_In|].
      rewrite Hc, Hn, Z.eqb_refl, String.eqb_refl. done.
  - exists (dv_id r), d. split; [done|]. split; [apply grows_refl|]. split; [|done].
    assert (In r (r :: rs)) as Hin by (by left). rewrite <- Hf in Hin.
    apply filter_In in Hin as [Hin Hp].
    apply andb_true_iff in Hp as [Hc%Z.eqb_eq Hn%String.eqb_eq].
    exists r. by rewrite list_elem_of_In.
Qed.

Lemma get_of_get_none fac k v dflt :
  Item.get_none fac k = JStr v → Item.get fac k dflt = JStr v.
Proof.
  unfold Item.get_none, Item.get. destruct (fac !! k); simpl; [done|discriminate].
Qed.

Lemma insert_facility_spec fac division_id n c d :
  Item.get fac "name" (JStr "") = JStr n →
  Item.get_none fac "city" = JStr c →
  bindable (Item.get_none fac "state") →
  bindable (Item.get fac "country" (JStr "India")) →
  ∃ id d', _insert_facility fac division_id d = (Ok (Some id), d')
           ∧ grows d d' ∧ facility_present n c d'
           ∧ (facility_present n c d → d' = d).
Proof.
  intros Hn Hc [st Hst] [co Hco].
  unfold _insert_facility, try_except, bind, lift.
  rewrite Hn, (get_of_get_none _ _ _ _ Hc), Hc, Hst, Hco. simpl.
  destruct (List.filter _ (rows (facilities d))) as [|r rs] eqn:Hf.
  - assert (∃ nn, _normalize_name (JStr n) = Ok nn) as [nn ->].
    { unfold _normalize_name. destruct (negb _); eauto. }
    simpl. eexists _, _. split; [done|]. split; [|split].
    + split; [done|]. split; [exists []; by rewrite app_nil_r|]. by eexists.
    + eexists. split; [apply elem_of_app; right; by apply list_elem_of_singleton|].
      done.
    + intros (r & Hr & Hrn & Hrc). exfalso.
      assert (In r []) as []. rewrite <- Hf. apply filter_In.
      split; [by apply list_elem_of_In|].
      rewrite Hrn, Hrc. simpl. by rewrite !String.eqb_refl.
  - exists (f_id r), d. split; [done|]. split; [apply grows_refl|]. split; [|done].
    assert (In r (r :: rs)) as Hin by (by left). rewrite <- Hf in Hin.
    apply filter_In in Hin as [Hin Hp].
    apply andb_true_iff in Hp as [Hp1 Hp2].
    exists r. rewrite list_elem_of_In. split; [done|].
    destruct (sql_lower (f_name r)) as [a|]; simpl in Hp1; [|done].
    destruct (sql_lower (f_city r)) as [b|]; simpl in Hp2; [|done].
    apply String.eqb_eq in Hp1, Hp2. by subst.
Qed.

(** The helpers that write other tables always return and leave the
    identity tables as they are. *)
Lemma insert_source_spec sd d :
  ∃ r d', _insert_source sd d = (Ok r, d') ∧ same_identity d d'.
Proof.
  unfold _insert_source, try_except, bind, lift.
  repeat (destruct (bind_text _); simpl; [|by eexists _, _]).
  destruct (existsb _ _); by eexists _, _.
Qed.

Lemma insert_event_spec fid et ed stt xt d :
  ∃ r d', _insert_event fid et ed stt xt d = (Ok r, d') ∧ same_identity d d'.
Proof.
  unfold _insert_event, try_except, bind, lift.
  repeat (destruct (bind_text _); simpl; [|by eexists _, _]).
  by eexists _, _.
Qed.

Lemma insert_job_spec job src d :
  ∃ r d', _insert_job job src d = (Ok r, d') ∧ same_identity d d'.
Proof.
  unfold _insert_job, try_except, bind, lift.
  repeat (destruct (bind_text _); simpl; [|by eexists _, _]).
  by eexists _, _.
Qed.

Lemma insert_evidence_spec src ty eid text conf d :
  ∃ d', _insert_evidence src ty eid text conf d = (Ok tt, d') ∧ same_identity d d'.
Proof.
  unfold _insert_evidence, try_except, lift. destruct text; simpl; by eexists.
Qed.

(** What follows the facility insert in both facility branches. *)
Lemma after_insert_spec (facility_id : option Z) (st : stats)
    (event : Z → M (option Z)) (evid : Z → M unit) d :
  (∀ fid d, ∃ r d', event fid d = (Ok r, d') ∧ same_identity d d') →
  (∀ fid d, ∃ d', evid fid d = (Ok tt, d') ∧ same_identity d d') →
  ∃ st' d',
    match facility_id with
    | Some fid =>
        if id_truthy facility_id then
          bind (event fid) (fun _ =>
            bind (evid fid) (fun _ => ret (incr_events (incr_facilities st))))
        else ret st
    | None => ret st
    end d = (Ok st', d') ∧ same_identity d d'.
Proof.
  intros Hev Hevid. destruct facility_id as [fid|]; [|by eexists _, _].
  destruct (id_truthy _); [|by eexists _, _].
  destruct (Hev fid d) as (r & d1 & Hr & Hs1).
  destruct (Hevid fid d1) as (d2 & Hr2 & Hs2).
  rewrite (bind_ok _ _ _ _ _ Hr), (bind_ok _ _ _ _ _ Hr2).
  eexists _, _. split; [done|]. by eapply same_identity_trans.
Qed.

Lemma structured_key_Some fac s n c :
  structured_key fac = Some (s, n, c) →
  Item.get fac "division" (JStr "Unknown") = JStr s
  ∧ Item.get fac "name" (JStr "") = JStr n
  ∧ Item.get_none fac "city" = JStr c.
Proof.
  unfold structured_key.
  destruct (Item.get fac "division" _); simpl; try done.
  destruct (Item.get fac "name" _); simpl; try done.
  destruct (Item.get_none fac "city"); simpl; try done.
  by intros [= -> -> ->].
Qed.

Lemma structured_facility_step_spec cid src st fac d :
  keyed_structured fac →
  ∃ st' d', structured_facility_step cid src st fac d = (Ok st', d')
            ∧ grows d d' ∧ key_present cid (structured_key fac) d'
            ∧ (key_present cid (structured_key fac) d → same_identity d d').
Proof.
  intros ([[[s n] c] Hk] & Hst & Hco). rewrite Hk.
  apply structured_key_Some in Hk as (Hs & Hn & Hc).
  unfold structured_facility_step. rewrite Hs.
  destruct (ensure_division_spec cid s d) as (did & d1 & Hr1 & Hg1 & Hp1 & He1).
  rewrite (bind_ok _ _ _ _ _ Hr1).
  destruct (insert_facility_spec fac did n c d1 Hn Hc Hst Hco)
    as (fid & d2 & Hr2 & Hg2 & Hp2 & He2).
  rewrite (bind_ok _ _ _ _ _ Hr2).
  destruct (after_insert_spec (Some fid) st
              (fun fid => _insert_event fid (JStr "operational")
                            (Item.get_none fac "date")
                            (Item.get fac "status" (JStr "operational"))
                            (Item.get_none fac "expansion_type"))
              (fun fid => _insert_evidence src "FACILITY" fid
                            (Item.get fac "name" (JStr "")) (9 # 10)) d2)
    as (st' & d3 & Hr3 & Hs3).
  { intros. apply insert_event_spec. }
  { intros. apply insert_evidence_spec. }
  exists st', d3. split; [exact Hr3|].
  assert (grows d d3) as Hg.
  { eapply grows_trans; [done|]. eapply grows_trans; [done|].
    by apply same_identity_grows. }
  split; [done|]. split.
  - split.
    + eapply division_present_grows; [|done].
      eapply grows_trans; [done|]. by apply same_identity_grows.
    + eapply facility_present_grows; [|done]. by apply same_identity_grows.
  - intros [Hd Hf]. specialize (He1 Hd). subst d1.
    specialize (He2 Hf). by subst d2.
Qed.

Lemma bind_lift {A B : Type} (r : res A) (f : A → M B) d a :
  r = Ok a → bind (lift r) f d = f a d.
Proof. by intros ->. Qed.

Lemma entity_key_Some ent s t c :
  entity_key ent = Some (s, t, c) →
  Item.get ent "text" (JStr "") = JStr t
  ∧ _extract_city_from_text (JStr t) = Ok (Some c)
  ∧ _infer_division (JStr t) = Ok s.
Proof.
  unfold entity_key. destruct (Item.get ent "text" _) as [| | |t']; try done.
  destruct (_extract_city_from_text (JStr t')) as [[c'|]|] eqn:Hc; try done.
  destruct (_infer_division (JStr t')) as [s'|] eqn:Hs; try done.
  by intros [= <- <- <-].
Qed.

Lemma entity_facility_step_spec cid src st ent d :
  keyed_entity ent →
  ∃ st' d', entity_facility_step cid src st ent d = (Ok st', d')
            ∧ grows d d' ∧ key_present cid (entity_key ent) d'
            ∧ (key_present cid (entity_key ent) d → same_identity d d').
Proof.
  intros [[[s t] c] Hk]. rewrite Hk.
  apply entity_key_Some in Hk as (Ht & Hc & Hs).
  unfold entity_facility_step. rewrite Ht.
  rewrite (bind_lift _ _ _ _ Hc), (bind_lift _ _ _ _ Hs).
  destruct (ensure_division_spec cid s d) as (did & d1 & Hr1 & Hg1 & Hp1 & He1).
  rewrite (bind_ok _ _ _ _ _ Hr1).
  set (state := if String.eqb c "" then None else assoc c city_to_state).
  set (fac_data := <["name" := JStr t]> (<["city" := from_option JStr JNull (Some c)]>
                   (<["state" := from_option JStr JNull state]>
                   (<["division" := JStr s]> (<["status" := JStr "operational"]> ∅))))
                   : gmap string jval).
  destruct (insert_facility_spec fac_data did t c d1)
    as (fid & d2 & Hr2 & Hg2 & Hp2 & He2).
  { unfold Item.get, fac_data. by rewrite lookup_insert_eq. }
  { unfold Item.get_none, Item.get, fac_data.
    by rewrite lookup_insert_ne, lookup_insert_eq by done. }
  { unfold Item.get_none, Item.get, fac_data.
    rewrite !lookup_insert_ne, lookup_insert_eq by done.
    destruct state; by eexists. }
  { unfold Item.get, fac_data. rewrite !lookup_insert_ne by done.
    rewrite lookup_empty. by eexists. }
  rewrite (bind_ok _ _ _ _ _ Hr2).
  destruct (after_insert_spec (Some fid) st
              (fun fid => _insert_event fid (JStr "operational") JNull
                            (JStr "operational") JNull)
              (fun fid => _insert_evidence src "FACILITY" fid (JStr t) (8 # 10)) d2)
    as (st' & d3 & Hr3 & Hs3).
  { intros. apply insert_event_spec. }
  { intros. apply insert_evidence_spec. }
  exists st', d3. split; [exact Hr3|].
  assert (grows d d3) as Hg.
  { eapply grows_trans; [done|]. eapply grows_trans; [done|].
    by apply same_identity_grows. }
  split; [done|]. split.
  - split.
    + eapply division_present_grows; [|done].
      eapply grows_trans; [done|]. by apply same_identity_grows.
    + eapply facility_present_grows; [|done]. by apply same_identity_grows.
  - intros [Hd Hf]. specialize (He1 Hd). subst d1.
    specialize (He2 Hf). by subst d2.
Qed.

Lemma job_loop_spec (f : stats → gmap string jval → M stats) st l d :
  (∀ st job d, ∃ st' d', f st job d = (Ok st', d') ∧ same_identity d d') →
  ∃ st' d', for_each f st l d = (Ok st', d') ∧ same_identity d d'.
Proof.
  intros Hf.
  destruct (for_each_spec f (fun _ => True) (fun _ _ => True)) with (l := l) (a := st) (d := d)
    as (st' & d' & Hr & _ & _ & Hs); [done| |by apply Forall_true|].
  - intros a b d0 _. destruct (Hf a b d0) as (a' & d1 & ? & ?).
    exists a', d1. eauto using same_identity_grows.
  - exists st', d'. split; [done|]. apply Hs. by apply Forall_true.
Qed.

Lemma structured_job_step_spec src st job d :
  ∃ st' d', structured_job_step src st job d = (Ok st', d') ∧ same_identity d d'.
Proof.
  unfold structured_job_step.
  destruct (insert_job_spec job src d) as (r & d1 & Hr & Hs).
  rewrite (bind_ok _ _ _ _ _ Hr). by eexists _, _.
Qed.

Lemma entity_job_step_spec src st ent d :
  ∃ st' d', entity_job_step src st ent d = (Ok st', d') ∧ same_identity d d'.
Proof.
  unfold entity_job_step.
  edestruct insert_job_spec as (r & d1 & Hr & Hs).
  rewrite (bind_ok _ _ _ _ _ Hr). by eexists _, _.
Qed.

Lemma item_step_spec cid st item d :
  keyed_item item →
  ∃ st' d', item_step cid st item d = (Ok st', d')
            ∧ grows d d' ∧ item_present cid item d'
            ∧ (item_present cid item d → same_identity d d').
Proof.
  intros [Hfacs Hents]. unfold item_step, item_present.
  destruct (insert_source_spec (Item.fields (Item.source item)) d)
    as (sid & d1 & Hr1 & Hs1).
  rewrite (bind_ok _ _ _ _ _ Hr1).
  set (st1 := if id_truthy sid then incr_sources st else st).
  set (facs := default [] (Item.structured_facilities (Item.source item))) in *.
  destruct (for_each_spec (structured_facility_step cid sid) keyed_structured
              (fun fac d => key_present cid (structured_key fac) d))
    with (l := facs) (a := st1) (d := d1)
    as (st2 & d2 & Hr2 & Hg2 & Hc2 & Hs2); [| |done|].
  { intros. by eapply key_present_grows. }
  { intros. by apply structured_facility_step_spec. }
  assert (Hr2' : match Item.structured_facilities (Item.source item) with
                 | Some facs => for_each (structured_facility_step cid sid) st1 facs
                 | None => ret st1
                 end d1 = (Ok st2, d2)).
  { subst facs. by destruct (Item.structured_facilities _). }
  rewrite (bind_ok _ _ _ _ _ Hr2').
  assert (∃ st3 d3, match Item.structured_jobs (Item.source item) with
                    | Some js => for_each (structured_job_step sid) st2 js
                    | None => ret st2
                    end d2 = (Ok st3, d3) ∧ same_identity d2 d3)
    as (st3 & d3 & Hr3 & Hs3).
  { destruct (Item.structured_jobs _) as [js|]; [|by eexists _, _].
    apply job_loop_spec. intros. apply structured_job_step_spec. }
  rewrite (bind_ok _ _ _ _ _ Hr3).
  destruct (for_each_spec (entity_facility_step cid sid) keyed_entity
              (fun ent d => key_present cid (entity_key ent) d))
    with (l := Item.entities_facilities item) (a := st3) (d := d3)
    as (st4 & d4 & Hr4 & Hg4 & Hc4 & Hs4); [| |done|].
  { intros. by eapply key_present_grows. }
  { intros. by apply entity_facility_step_spec. }
  rewrite (bind_ok _ _ _ _ _ Hr4).
  destruct (job_loop_spec (entity_job_step sid) st4 (Item.entities_job_titles item) d4)
    as (st5 & d5 & Hr5 & Hs5).
  { intros. apply entity_job_step_spec. }
  exists st5, d5. split; [done|].
  assert (grows d d1) by (by apply same_identity_grows).
  assert (grows d2 d3) by (by apply same_identity_grows).
  assert (grows d4 d5) by (by apply same_identity_grows).
  assert (grows d d3) by eauto using grows_trans.
  split; [eauto using grows_trans|]. split; [split|].
  - eapply Forall_impl; [exact Hc2|]. intros fac Hfac. simpl in Hfac.
    eapply key_present_grows; [|exact Hfac]. eauto using grows_trans.
  - eapply Forall_impl; [exact Hc4|]. intros ent Hent. simpl in Hent.
    by eapply key_present_grows.
  - intros [Hp1 Hp2].
    assert (same_identity d1 d2) as Hs12.
    { apply Hs2. eapply Forall_impl; [exact Hp1|]. intros fac Hfac.
      simpl in Hfac. by eapply key_present_grows. }
    assert (same_identity d3 d4) as Hs34.
    { apply Hs4. eapply Forall_impl; [exact Hp2|]. intros ent Hent.
      simpl in Hent. by eapply key_present_grows. }
    eauto using same_identity_trans.
Qed.

(** X26. On a batch whose facility candidates all have a text division,
    name and city, ingestion is idempotent on the identity tables: both
    runs return, and the second leaves the companies, divisions and
    facilities tables exactly as the first left them. *)
Theorem keyed_batch_is_idempotent (batch : list Item.item) (d : db) :
  Forall keyed_item batch →
  ∃ st1 d1 st2 d2,
    build_graph batch d = (Ok st1, d1)
    ∧ build_graph batch d1 = (Ok st2, d2)
    ∧ same_identity d1 d2
    ∧ total_divisions (get_statistics d2) = total_divisions (get_statistics d1)
    ∧ total_facilities (get_statistics d2) = total_facilities (get_statistics d1).
Proof.
  intros Hbatch. unfold build_graph.
  destruct (ensure_company_spec d) as (cid & d0 & Hr0 & _ & _ & Hagain).
  rewrite (bind_ok _ _ _ _ _ Hr0).
  destruct (for_each_spec (item_step cid) keyed_item (item_present cid))
    with (l := batch) (a := stats0) (d := d0)
    as (st1 & d1 & Hr1 & Hg1 & Hc1 & _); [| |done|].
  { intros item da db Hg [H1 H2]. split.
    - eapply Forall_impl; [exact H1|]. intros x Hx. simpl in Hx.
      by eapply key_present_grows.
    - eapply Forall_impl; [exact H2|]. intros x Hx. simpl in Hx.
      by eapply key_present_grows. }
  { intros. by apply item_step_spec. }
  destruct (for_each_spec (item_step cid) keyed_item (item_present cid))
    with (l := batch) (a := stats0) (d := d1)
    as (st2 & d2 & Hr2 & _ & _ & Hs2); [| |done|].
  { intros item da db Hg [H1 H2]. split.
    - eapply Forall_impl; [exact H1|]. intros x Hx. simpl in Hx.
      by eapply key_present_grows.
    - eapply Forall_impl; [exact H2|]. intros x Hx. simpl in Hx.
      by eapply key_present_grows. }
  { intros. by apply item_step_spec. }
  exists st1, d1, st2, d2. split; [done|].
  assert (_ensure_company d1 = (Ok cid, d1)) as Hr0'.
  { apply Hagain. by destruct Hg1. }
  rewrite (bind_ok _ _ _ _ _ Hr0'). split; [done|].
  specialize (Hs2 Hc1). split; [done|].
  destruct Hs2 as (_ & Hd & Hf). unfold get_statistics. simpl. by rewrite Hd, Hf.
Qed.

(** *** Which failures leave [build_graph] *)

Lemma try_except_total {A : Type} (m : M A) (dflt : A) d :
  ∃ r d', try_except m dflt d = (Ok r, d').
Proof. unfold try_except. destruct (m d) as [[a|e] d']; eauto. Qed.

Lemma for_each_total {A B : Type} (f : A → B → M A) (good : B → Prop) :
  (∀ a b d, good b → ∃ a' d', f a b d = (Ok a', d')) →
  ∀ l a d, Forall good l → ∃ a' d', for_each f a l d = (Ok a', d').
Proof.
  intros Hf. induction l as [|b l IH]; intros a d Hl; simpl; [by eexists _, _|].
  apply Forall_cons in Hl as [Hb Hl].
  destruct (Hf a b d Hb) as (a1 & d1 & Hr). rewrite (bind_ok _ _ _ _ _ Hr).
  by apply IH.
Qed.

Lemma text_of_Some v : is_Some (text_of v) → ∃ s, v = JStr s.
Proof. destruct v; intros [? [=]]; eauto. Qed.

Lemma structured_facility_step_total cid src st fac d :
  is_Some (text_of (Item.get fac "division" (JStr "Unknown"))) →
  ∃ st' d', structured_facility_step cid src st fac d = (Ok st', d').
Proof.
  intros [s Hs]%text_of_Some. unfold structured_facility_step. rewrite Hs.
  destruct (ensure_division_spec cid s d) as (did & d1 & Hr1 & _).
  rewrite (bind_ok _ _ _ _ _ Hr1).
  unfold _insert_facility at 1.
  edestruct (try_except_total (A := option Z)) as (fid & d2 & Hr2).
  rewrite (bind_ok _ _ _ _ _ Hr2).
  destruct (after_insert_spec fid st
              (fun fid => _insert_event fid (JStr "operational")
                            (Item.get_none fac "date")
                            (Item.get fac "status" (JStr "operational"))
                            (Item.get_none fac "expansion_type"))
              (fun fid => _insert_evidence src "FACILITY" fid
                            (Item.get fac "name" (JStr "")) (9 # 10)) d2)
    as (st' & d3 & Hr3 & _).
  { intros. apply insert_event_spec. }
  { intros. apply insert_evidence_spec. }
  exists st', d3. exact Hr3.
Qed.

Lemma infer_division_text t : ∃ s, _infer_division (JStr t) = Ok s.
Proof.
  unfold _infer_division. destruct (List.find _ _) as [[? ?]|]; [eauto|].
  repeat (destruct (_ || _); [eauto|]).
  repeat (destruct (PyStr.contains _ _); [eauto|]). eauto.
Qed.

Lemma entity_facility_step_total cid src st ent d :
  is_Some (text_of (Item.get ent "text" (JStr ""))) →
  ∃ st' d', entity_facility_step cid src st ent d = (Ok st', d').
Proof.
  intros [t Ht]%text_of_Some. unfold entity_facility_step. rewrite Ht.
  assert (∃ c, _extract_city_from_text (JStr t) = Ok c) as [c Hc] by (by eexists).
  rewrite (bind_lift _ _ _ _ Hc).
  destruct (infer_division_text t) as [s Hs]. rewrite (bind_lift _ _ _ _ Hs).
  destruct (ensure_division_spec cid s d) as (did & d1 & Hr1 & _).
  rewrite (bind_ok _ _ _ _ _ Hr1).
  unfold _insert_facility at 1.
  edestruct (try_except_total (A := option Z)) as (fid & d2 & Hr2).
  rewrite (bind_ok _ _ _ _ _ Hr2).
  destruct (after_insert_spec fid st
              (fun fid => _insert_event fid (JStr "operational") JNull
                            (JStr "operational") JNull)
              (fun fid => _insert_evidence src "FACILITY" fid (JStr t) (8 # 10)) d2)
    as (st' & d3 & Hr3 & _).
  { intros. apply insert_event_spec. }
  { intros. apply insert_evidence_spec. }
  exists st', d3. exact Hr3.
Qed.

(** X27. The failures of the helpers with a [try] never leave
    [build_graph]: on a batch whose divisions and mention texts are
    text, it returns whatever else the items hold. *)
Lemma build_graph_returns (batch : list Item.item) (d : db) :
  Forall text_item batch → ∃ st d', build_graph batch d = (Ok st, d').
Proof.
  intros Hbatch. unfold build_graph.
  destruct (ensure_company_spec d) as (cid & d0 & Hr0 & _).
  rewrite (bind_ok _ _ _ _ _ Hr0).
  apply (for_each_total (item_step cid) text_item); [|done].
  clear. intros st item d [Hfacs Hents]. unfold item_step.
  destruct (insert_source_spec (Item.fields (Item.source item)) d)
    as (sid & d1 & Hr1 & _).
  rewrite (bind_ok _ _ _ _ _ Hr1).
  set (st1 := if id_truthy sid then incr_sources st else st).
  assert (∃ st2 d2, match Item.structured_facilities (Item.source item) with
                    | Some facs => for_each (structured_facility_step cid sid) st1 facs
                    | None => ret st1
                    end d1 = (Ok st2, d2)) as (st2 & d2 & Hr2).
  { destruct (Item.structured_facilities _) as [facs|]; [|by eexists _, _].
    simpl in Hfacs. eapply for_each_total; [|exact Hfacs].
    intros. by apply structured_facility_step_total. }
  rewrite (bind_ok _ _ _ _ _ Hr2).
  assert (∃ st3 d3, match Item.structured_jobs (Item.source item) with
                    | Some js => for_each (structured_job_step sid) st2 js
                    | None => ret st2
                    end d2 = (Ok st3, d3)) as (st3 & d3 & Hr3).
  { destruct (Item.structured_jobs _) as [js|]; [|by eexists _, _].
    edestruct (job_loop_spec (structured_job_step sid)) as (? & ? & ? & _); [|eauto].
    intros. apply structured_job_step_spec. }
  rewrite (bind_ok _ _ _ _ _ Hr3).
  destruct (for_each_total (entity_facility_step cid sid)
              (fun ent => is_Some (text_of (Item.get ent "text" (JStr "")))))
    with (l := Item.entities_facilities item) (a := st3) (d := d3)
    as (st4 & d4 & Hr4); [|done|].
  { intros. by apply entity_facility_step_total. }
  rewrite (bind_ok _ _ _ _ _ Hr4).
  edestruct (job_loop_spec (entity_job_step sid)) as (? & ? & ? & _); [|eauto].
  intros. apply entity_job_step_spec.
Qed.

End IdempotenceFacts.

(** ** Instances and counterexamples *)

Module Instances.
Import Database GraphBuilder EntityResolver Samples.

(** C2: Rule 1 merges two candidates of the same normalized name when
    only one of them has a location; the rule of the specification does
    not, and Rule 2 does not apply either. *)
Lemma rule1_merges_with_one_empty_location :
  normalize_name (VStr "Chennai Plant") = Ok "chennai"
  ∧ rule1 "chennai" "chennai" "" "chennai tamil nadu" = Some true
  ∧ rule_a_of_spec "chennai" "chennai" "" "chennai tamil nadu" = false
  ∧ rule2 "chennai" "chennai" "" "chennai tamil nadu" default_threshold = false
  ∧ should_merge (VStr "Chennai Plant") "" (VStr "chennai") "chennai tamil nadu"
      default_threshold = Ok true.
Proof. by vm_compute. Qed.


(** C7: the planned event of [db_planned] has no stored expansion type;
    its row comes from the second statement alone and is returned with
    [expansion_type = "expansion"]. *)
Lemma planned_event_is_returned_as_expansion :
  (e_status <$> rows (events db_planned)) = [Some "planned"]
  ∧ (e_expansion_type <$> rows (events db_planned)) = [None]
  ∧ rows1 db_planned None None = []
  ∧ rows2 db_planned None None = [row_planned]
  ∧ (xr_expansion_type <$> query_expansions db_planned None None) = ["expansion"]
  ∧ "expansion" ≠ "greenfield".
Proof. by vm_compute. Qed.

Lemma type_ii_rows_keep_expansion_tag_witness :
  row_planned ∈ rows2 db_planned None None
  ∧ xr_expansion_type (expansion_result_of row_planned) = "expansion".
Proof.
  assert (H : row_planned ∈ rows2 db_planned None None).
  { apply list_elem_of_In. vm_compute. left. reflexivity. }
  split; [exact H|].
  exact (proj2 (ExpansionFacts.type_ii_rows_keep_expansion_tag
                  db_planned None None row_planned H)).
Defined.

Lemma query_expansions_dedup_first_wins_witness :
  ∃ r e1 f1,
    List.find (fun r => bool_decide (row_key r = ("chennai plant", "chennai")))
              (rows1 db_both None None) = Some r
    ∧ expansions_with_key db_both None None ("chennai plant", "chennai")
      = [expansion_result_of r]
    ∧ event_at db_both e1 f1 ∧ type_i None None e1 = true
    ∧ site_key f1 = ("chennai plant", "chennai")
    ∧ r_expansion_type r = e_expansion_type e1
    ∧ r_event_date r = e_event_date e1 ∧ r_status r = e_status e1.
Proof.
  assert (Hk : ("chennai plant", "chennai") ≠ ("", "")) by discriminate.
  assert (Hef : event_at db_both event_brownfield fac_row_chennai).
  { split; [|split; [|reflexivity]].
    - apply list_elem_of_In. vm_compute. right. left. reflexivity.
    - apply list_elem_of_In. vm_compute. left. reflexivity. }
  exact (proj1 (proj2 (proj2
           (proj2 (ExpansionFacts.query_expansions_dedup_first_wins
                     db_both None None ("chennai plant", "chennai")) Hk)))
           event_brownfield fac_row_chennai Hef eq_refl eq_refl).
Defined.

Lemma query_facilities_defaults_without_evidence_witness :
  fac_row_2 ∈ rows (facilities db_twice)
  ∧ ¬ has_source_evidence db_twice fac_row_2
  ∧ fr_source_title (facility_result_of db_twice fac_row_2)
    = "Motherson Address Directory".
Proof.
  assert (H1 : fac_row_2 ∈ rows (facilities db_twice)).
  { apply list_elem_of_In. vm_compute. right. left. reflexivity. }
  assert (H2 : ¬ has_source_evidence db_twice fac_row_2).
  { apply FacilityFacts.facility_sources_nil. vm_compute. reflexivity. }
  split; [exact H1|]. split; [exact H2|].
  exact (proj1 (proj2 (proj2
    (FacilityFacts.query_facilities_defaults_without_evidence
       db_twice fac_row_2 H1 H2)))).
Defined.


(** A batch to which the idempotence theorem applies. *)
Example keyed_batch_example :
  Forall keyed_item [directory_item "https://a" [fac_planned; fac_brownfield]].
Proof.
  apply Forall_cons_2; [|apply Forall_nil_2].
  split; [|apply Forall_nil_2]. simpl.
  apply Forall_cons_2; [|apply Forall_cons_2; [|apply Forall_nil_2]];
    (split; [vm_compute; by eexists|]; split; vm_compute; by eexists).
Qed.

(** The examples of the specification. *)
Example normalize_sanand :
  normalize_name (VStr "Sanand Plant") = Ok "sanand"
  ∧ normalize_name (VStr "sanand") = Ok "sanand".
Proof. by vm_compute. Qed.

Example jaccard_third : calculate_similarity "a b" "a c" = 1 # 3.
Proof. by vm_compute. Qed.

Example sanand_plant_unit_merge :
  merge_count_of <$> candidates_resolved = [2%Z; 1%Z].
Proof. by vm_compute. Qed.

Example short_name_no_location_not_merged :
  should_merge (VStr "Pune") "" (VStr "pune") "" default_threshold = Ok false.
Proof. by vm_compute. Qed.

Example case_variants_give_one_row :
  (xr_facility <$> query_expansions db_both None None) = [Some "Chennai Plant"]
  ∧ (xr_expansion_type <$> query_expansions db_both None None) = ["brownfield"].
Proof. by vm_compute. Qed.

End Instances.

(** ** The writes of [build_graph] and what they keep *)

Module WriteFacts.
Import Database GraphBuilder.

Lemma bind_inv {A B : Type} (m : M A) (f : A → M B) d r d' :
  bind m f d = (r, d') →
  (∃ a d1, m d = (Ok a, d1) ∧ f a d1 = (r, d'))
  ∨ (∃ e, m d = (Raise e, d') ∧ r = Raise e).
Proof.
  unfold bind. destruct (m d) as [[a|e] d1]; intros H; [left|right].
  - by exists a, d1.
  - injection H as <- <-. by exists e.
Qed.

Lemma try_except_inv {A : Type} (m : M A) (dflt : A) d r d' :
  try_except m dflt d = (r, d') →
  ∃ r0, m d = (r0, d') ∧ r = Ok (match r0 with Ok a => a | Raise _ => dflt end).
Proof.
  unfold try_except. destruct (m d) as [[a|e] d1]; intros [= <- <-]; eauto.
Qed.

Lemma lift_inv {A : Type} (x : res A) d r d' : lift x d = (r, d') → r = x ∧ d' = d.
Proof. by intros [= <- <-]. Qed.

(** A write keeps the rows that are there. *)
Lemma write_extends d d' : write d d' → extends d d'.
Proof.
  destruct 1; unfold extends; simpl;
    repeat split; first [done | by apply prefix_app_r].
Qed.

Global Instance extends_refl : Reflexive extends.
Proof. intros d. by repeat split. Qed.

Global Instance extends_trans : Transitive extends.
Proof.
  intros d1 d2 d3 (?&?&?&?&?&?&?) (?&?&?&?&?&?&?).
  repeat split; by etrans.
Qed.

Lemma writes_extends d d' : rtc write d d' → extends d d'.
Proof.
  induction 1 as [|d1 d2 d3 Hw _ IH]; [done|].
  etrans; [by apply write_extends|done].
Qed.

Lemma has_company_extends d d' id : extends d d' → has_company id d → has_company id d'.
Proof.
  intros (Hp & _) (r & Hr & Hid). exists r. split; [|done].
  by eapply elem_of_prefix.
Qed.


Lemma has_facility_extends d d' id : extends d d' → has_facility id d → has_facility id d'.
Proof.
  intros (_ & _ & _ & Hp & _) (r & Hr & Hid). exists r. split; [|done].
  by eapply elem_of_prefix.
Qed.

Lemma filter_head_elem {A : Type} (p : A → bool) l x xs :
  List.filter p l = x :: xs → x ∈ l ∧ p x = true.
Proof.
  intros Hf. assert (In x (List.filter p l)) as Hin by (rewrite Hf; by left).
  apply filter_In in Hin as [Hin Hp]. by rewrite list_elem_of_In.
Qed.

Lemma ensure_company_writes d r d' :
  _ensure_company d = (r, d') →
  rtc write d d' ∧ ∃ cid, r = Ok cid ∧ has_company cid d'.
Proof.
  unfold _ensure_company.
  destruct (List.filter _ (rows (companies d))) as [|c cs] eqn:Hf.
  - intros [= <- <-]. split; [apply rtc_once; by constructor|].
    eexists. split; [reflexivity|]. eexists. simpl.
    split; [apply elem_of_app; right; by apply list_elem_of_singleton|done].
  - intros [= <- <-]. split; [done|]. eexists. split; [reflexivity|].
    apply filter_head_elem in Hf as [Hc _]. by exists c.
Qed.

Lemma ensure_division_writes cid v d r d' :
  has_company cid d →
  _ensure_division cid v d = (r, d') →
  rtc write d d' ∧ (∀ id, r = Ok id → has_division id d').
Proof.
  intros Hc. unfold _ensure_division. destruct v as [| | |s];
    try (intros [-> ->]%lift_inv; by split).
  destruct (List.filter _ (rows (divisions d))) as [|x xs] eqn:Hf.
  - intros [= <- <-]. split; [apply rtc_once; by constructor|].
    intros id [= <-]. eexists. simpl.
    split; [apply elem_of_app; right; by apply list_elem_of_singleton|done].
  - intros [= <- <-]. split; [done|]. intros id [= <-].
    apply filter_head_elem in Hf as [Hx _]. by exists x.
Qed.

Lemma insert_source_writes sd d r d' :
  _insert_source sd d = (r, d') → rtc write d d' ∧ ∃ o, r = Ok o.
Proof.
  unfold _insert_source, try_except, bind, lift.
  repeat (destruct (bind_text _); simpl;
          [|intros [= <- <-]; split; [done|by eexists]]).
  destruct (existsb _ _) eqn:He; intros [= <- <-].
  - split; [apply rtc_once; by eapply write_source_ignored|by eexists].
  - split; [apply rtc_once; by constructor|by eexists].
Qed.

Lemma insert_facility_writes did fac d r d' :
  has_division did d →
  _insert_facility fac did d = (r, d') →
  rtc write d d' ∧ ∃ o, r = Ok o ∧ ∀ fid, o = Some fid → has_facility fid d'.
Proof.
  intros Hdiv. unfold _insert_facility, try_except, bind, lift.
  destruct (bind_text (Item.get fac "name" (JStr ""))) as [name|]; simpl;
    [|intros [= <- <-]; split; [done|by eexists]].
  assert (Hcity : (∃ v, Item.get fac "city" (JStr "") = v ∧ Item.get_none fac "city" = v)
                  ∨ (Item.get fac "city" (JStr "") = JStr "" ∧ Item.get_none fac "city" = JNull)).
  { unfold Item.get_none, Item.get. destruct (fac !! "city"); [left; by eexists|by right]. }
  destruct Hcity as [(v & -> & ->)|[-> ->]]; simpl.
  - destruct (bind_text v) as [city|]; simpl;
      [|intros [= <- <-]; split; [done|by eexists]].
    destruct (List.filter _ (rows (facilities d))) as [|x xs] eqn:Hf.
    + destruct (_normalize_name _) as [nn|]; simpl;
        [|intros [= <- <-]; split; [done|by eexists]].
      repeat (destruct (bind_text _); simpl;
              [|intros [= <- <-]; split; [done|by eexists]]).
      intros [= <- <-]. split.
      * apply rtc_once. eapply (write_facility d did name city city); eauto.
      * eexists. split; [done|]. intros fid [= <-]. eexists. simpl.
        split; [apply elem_of_app; right; by apply list_elem_of_singleton|done].
    + intros [= <- <-]. split; [done|]. eexists. split; [done|].
      intros fid [= <-]. apply filter_head_elem in Hf as [Hx _]. by exists x.
  - destruct (List.filter _ (rows (facilities d))) as [|x xs] eqn:Hf.
    + destruct (_normalize_name _) as [nn|]; simpl;
        [|intros [= <- <-]; split; [done|by eexists]].
      repeat (destruct (bind_text _); simpl;
              [|intros [= <- <-]; split; [done|by eexists]]).
      intros [= <- <-]. split.
      * apply rtc_once. eapply (write_facility d did name None (Some "")); eauto.
      * eexists. split; [done|]. intros fid [= <-]. eexists. simpl.
        split; [apply elem_of_app; right; by apply list_elem_of_singleton|done].
    + intros [= <- <-]. split; [done|]. eexists. split; [done|].
      intros fid [= <-]. apply filter_head_elem in Hf as [Hx _]. by exists x.
Qed.

Lemma insert_event_writes fid ed stt xt d r d' :
  has_facility fid d →
  _insert_event fid (JStr "operational") ed stt xt d = (r, d') →
  rtc write d d' ∧ ∃ o, r = Ok o.
Proof.
  intros Hf. unfold _insert_event, try_except, bind, lift. simpl.
  repeat (destruct (bind_text _); simpl;
          [|intros [= <- <-]; split; [done|by eexists]]).
  intros [= <- <-]. split; [apply rtc_once; by constructor|by eexists].
Qed.

Lemma take_length n s : String.length (PyStr.take n s) ≤ n.
Proof.
  unfold PyStr.take. revert s. induction n as [|n IH]; intros [|c s]; simpl; try lia.
  specialize (IH s). lia.
Qed.

Lemma insert_evidence_writes src fid text conf d r d' :
  has_facility fid d →
  _insert_evidence src "FACILITY" fid text conf d = (r, d') →
  rtc write d d' ∧ r = Ok tt.
Proof.
  intros Hf. unfold _insert_evidence, try_except, lift.
  destruct text; simpl; intros [= <- <-]; try by split.
  split; [|done]. apply rtc_once. constructor; [done|apply take_length].
Qed.

Lemma insert_job_writes job src d r d' :
  _insert_job job src d = (r, d') → rtc write d d' ∧ ∃ o, r = Ok o.
Proof.
  unfold _insert_job, try_except, bind, lift.
  repeat (destruct (bind_text _); simpl;
          [|intros [= <- <-]; split; [done|by eexists]]).
  intros [= <- <-]. split; [|by eexists].
  apply rtc_once. constructor. destruct (Item.truthy _); auto.
Qed.

(** What follows the facility insert in both facility branches. *)
Lemma after_insert_writes (o : option Z) (st : stats) src ed stt xt text conf d r d' :
  (∀ fid, o = Some fid → has_facility fid d) →
  match o with
  | Some fid =>
      if id_truthy o then
        bind (_insert_event fid (JStr "operational") ed stt xt) (fun _ =>
          bind (_insert_evidence src "FACILITY" fid text conf) (fun _ =>
            ret (incr_events (incr_facilities st))))
      else ret st
  | None => ret st
  end d = (r, d') →
  rtc write d d'.
Proof.
  intros Hfid. destruct o as [fid|]; [|by intros [= <- <-]].
  destruct (id_truthy _); [|by intros [= <- <-]].
  specialize (Hfid fid eq_refl).
  intros [(a & d1 & H1 & H)|(e & H1 & ->)]%bind_inv.
  - apply insert_event_writes in H1 as [Hw1 _]; [|done].
    apply bind_inv in H as [(b & d2 & H2 & H)|(e & H2 & ->)].
    + apply insert_evidence_writes in H2 as [Hw2 _].
      * injection H as <- <-. by etrans.
      * eapply has_facility_extends; [|done]. by apply writes_extends.
    + apply insert_evidence_writes in H2 as [Hw2 _]; [by etrans|].
      eapply has_facility_extends; [|done]. by apply writes_extends.
  - by apply insert_event_writes in H1 as [Hw1 _].
Qed.

Lemma facility_tail_writes cid src st fac v text conf ed stt xt d r d' :
  has_company cid d →
  bind (_ensure_division cid v) (fun division_id =>
    bind (_insert_facility fac division_id) (fun facility_id =>
      match facility_id with
      | Some fid =>
          if id_truthy facility_id then
            bind (_insert_event fid (JStr "operational") ed stt xt) (fun _ =>
              bind (_insert_evidence src "FACILITY" fid text conf) (fun _ =>
                ret (incr_events (incr_facilities st))))
          else ret st
      | None => ret st
      end)) d = (r, d') →
  rtc write d d'.
Proof.
  intros Hc [(did & d1 & H1 & H)|(e & H1 & ->)]%bind_inv.
  - apply ensure_division_writes in H1 as [Hw1 Hd]; [|done].
    specialize (Hd did eq_refl).
    apply bind_inv in H as [(o & d2 & H2 & H)|(e & H2 & ->)].
    + apply insert_facility_writes in H2 as (Hw2 & o' & [= <-] & Hfid); [|done].
      apply after_insert_writes in H; [|done]. etrans; [done|]. by etrans.
    + apply insert_facility_writes in H2 as (Hw2 & _); [|done]. by etrans.
  - by apply ensure_division_writes in H1 as [Hw1 _].
Qed.

Lemma structured_facility_step_writes cid src st fac d r d' :
  has_company cid d →
  structured_facility_step cid src st fac d = (r, d') → rtc write d d'.
Proof. intros Hc. unfold structured_facility_step. by apply facility_tail_writes. Qed.

Lemma entity_facility_step_writes cid src st ent d r d' :
  has_company cid d →
  entity_facility_step cid src st ent d = (r, d') → rtc write d d'.
Proof.
  intros Hc. unfold entity_facility_step.
  intros [(city & d1 & [_ ->]%lift_inv & H)|(e & [_ ->]%lift_inv & _)]%bind_inv;
    [|done].
  apply bind_inv in H as [(dn & d1 & [_ ->]%lift_inv & H)|(e & [_ ->]%lift_inv & _)];
    [|done].
  by eapply facility_tail_writes.
Qed.

Lemma job_step_writes (job : gmap string jval) src st d r d' :
  bind (_insert_job job src)
       (fun job_id => ret (if id_truthy job_id then incr_jobs st else st)) d = (r, d') →
  rtc write d d'.
Proof.
  intros [(o & d1 & H1 & H)|(e & H1 & ->)]%bind_inv.
  - apply insert_job_writes in H1 as [Hw _]. by injection H as <- <-.
  - by apply insert_job_writes in H1 as [Hw _].
Qed.

(** A loop whose body only writes, under a condition the writes keep. *)
Lemma for_each_writes {A B : Type} (f : A → B → M A) (I : db → Prop) :
  (∀ d d', extends d d' → I d → I d') →
  (∀ a b d r d', I d → f a b d = (r, d') → rtc write d d') →
  ∀ l a d r d', I d → for_each f a l d = (r, d') → rtc write d d'.
Proof.
  intros Hmono Hf. induction l as [|b l IH]; intros a d r d' HI; simpl.
  { by intros [= <- <-]. }
  intros [(a1 & d1 & H1 & H)|(e & H1 & ->)]%bind_inv.
  - pose proof (Hf _ _ _ _ _ HI H1) as Hw1. etrans; [done|].
    eapply IH; [|done]. eapply Hmono; [|done]. by apply writes_extends.
  - by eapply Hf.
Qed.

Lemma item_step_writes cid st item d r d' :
  has_company cid d →
  item_step cid st item d = (r, d') → rtc write d d'.
Proof.
  intros Hc. unfold item_step.
  assert (Hmono : ∀ d d', extends d d' → has_company cid d → has_company cid d').
  { intros. by eapply has_company_extends. }
  intros [(sid & d1 & H1 & H)|(e & H1 & ->)]%bind_inv;
    [|by apply insert_source_writes in H1 as [? _]].
  apply insert_source_writes in H1 as [Hw1 _].
  assert (Hc1 : has_company cid d1) by (eapply Hmono; [by apply writes_extends|done]).
  etrans; [done|]. clear Hw1 Hc d. revert H.
  intros [(st2 & d2 & H2 & H)|(e & H2 & ->)]%bind_inv.
  2: { destruct (Item.structured_facilities _); [|by inversion H2].
       eapply (for_each_writes _ (has_company cid)); [done| |done|done].
       intros. by eapply structured_facility_step_writes. }
  assert (Hw2 : rtc write d1 d2).
  { destruct (Item.structured_facilities _); [|by injection H2 as <- <-].
    eapply (for_each_writes _ (has_company cid)); [done| |done|done].
    intros. by eapply structured_facility_step_writes. }
  assert (Hc2 : has_company cid d2) by (eapply Hmono; [by apply writes_extends|done]).
  etrans; [done|]. clear Hw2 H2 Hc1 d1. revert H.
  intros [(st3 & d3 & H3 & H)|(e & H3 & ->)]%bind_inv.
  2: { destruct (Item.structured_jobs _); [|by inversion H3].
       eapply (for_each_writes _ (fun _ => True)); [done| |done|done].
       intros. by eapply job_step_writes. }
  assert (Hw3 : rtc write d2 d3).
  { destruct (Item.structured_jobs _); [|by injection H3 as <- <-].
    eapply (for_each_writes _ (fun _ => True)); [done| |done|done].
    intros. by eapply job_step_writes. }
  assert (Hc3 : has_company cid d3) by (eapply Hmono; [by apply writes_extends|done]).
  etrans; [done|]. clear Hw3 H3 Hc2 d2. revert H.
  intros [(st4 & d4 & H4 & H)|(e & H4 & ->)]%bind_inv.
  2: { eapply (for_each_writes _ (has_company cid)); [done| |done|done].
       intros. by eapply entity_facility_step_writes. }
  assert (Hw4 : rtc write d3 d4).
  { eapply (for_each_writes _ (has_company cid)); [done| |done|done].
    intros. by eapply entity_facility_step_writes. }
  etrans; [done|].
  eapply (for_each_writes _ (fun _ => True)); [done| |done|done].
  intros. by eapply job_step_writes.
Qed.

(** Whatever the batch and however the call ends, what [build_graph]
    does to the store is a sequence of guarded inserts. *)
Lemma build_graph_writes batch d r d' :
  build_graph batch d = (r, d') → rtc write d d'.
Proof.
  unfold build_graph.
  intros [(cid & d1 & H1 & H)|(e & H1 & ->)]%bind_inv;
    [|by apply ensure_company_writes in H1 as [? _]].
  apply ensure_company_writes in H1 as (Hw1 & cid' & [= <-] & Hc).
  etrans; [done|].
  eapply (for_each_writes _ (has_company cid)); [| |done|done].
  - intros. by eapply has_company_extends.
  - intros. by eapply item_step_writes.
Qed.

(** A condition every guarded insert keeps holds after any sequence of
    them. *)
Lemma writes_keep (I : db → Prop) :
  (∀ d d', I d → write d d' → I d') →
  ∀ d d', rtc write d d' → I d → I d'.
Proof. intros Hstep d d'. induction 1; eauto. Qed.


Lemma write_snippets_bounded d d' : snippets_bounded d → write d d' → snippets_bounded d'.
Proof.
  intros Hb Hw. inversion Hw; subst; clear Hw; try exact Hb.
  intros r s [Hr| ->%list_elem_of_singleton]%elem_of_app; [by apply Hb|].
  by intros [= <-].
Qed.

Lemma lower_key_fresh name city (l : list facility_row) n c :
  List.filter (same_site name city) l = [] →
  name = Some n → city = Some c →
  (PyStr.lower n, PyStr.lower c) ∉ omap facility_key l.
Proof.
  intros Hnone -> -> (r & Hr & Hk)%list_elem_of_omap.
  assert (Hin : In r (List.filter (same_site (Some n) (Some c)) l)).
  { apply filter_In. split; [by apply list_elem_of_In|].
    unfold facility_key in Hk. unfold same_site.
    destruct (f_name r) as [n'|]; [|done]. destruct (f_city r) as [c'|]; [|done].
    injection Hk as Hn Hc. simpl. rewrite Hn, Hc, !String.eqb_refl. done. }
  by rewrite Hnone in Hin.
Qed.

Lemma write_facility_keys_distinct d d' :
  facility_keys_distinct d → write d d' → facility_keys_distinct d'.
Proof.
  intros Hnd Hw. inversion Hw as [| | |did name city lookup st co nn Hdiv Hnone Hcity| | | |];
    subst; clear Hw; try exact Hnd.
  unfold facility_keys_distinct. simpl. rewrite omap_app. apply NoDup_app.
  split; [exact Hnd|]. unfold facility_key at 2 3. simpl.
  destruct name as [n|]; [|split; [by intros ? _ ?%elem_of_nil|constructor]].
  destruct city as [c|]; [|split; [by intros ? _ ?%elem_of_nil|constructor]].
  destruct Hcity as [<-|?]; [|done].
  split; [|apply NoDup_singleton].
  intros k Hk ->%list_elem_of_singleton. revert Hk.
  by eapply lower_key_fresh.
Qed.

Lemma write_unique_columns_ok d d' :
  unique_columns_ok d → write d d' → unique_columns_ok d'.
Proof.
  intros [Hco Hsrc] Hw.
  inversion Hw as [Hnone| |url t fa mi pd sty Hnone| | | | |]; subst; clear Hw;
    try (by split).
  - split; [|exact Hsrc]. simpl. rewrite fmap_app. apply NoDup_app.
    split; [exact Hco|]. split; [|apply NoDup_singleton].
    intros n (r & -> & Hr)%list_elem_of_fmap Hn%list_elem_of_singleton.
    assert (Hin : In r (List.filter (fun r => String.eqb (co_name r) "Motherson")
                                    (rows (companies d)))).
    { apply filter_In. split; [by apply list_elem_of_In|].
      by apply String.eqb_eq. }
    by rewrite Hnone in Hin.
  - split; [exact Hco|]. simpl. rewrite omap_app. apply NoDup_app.
    split; [exact Hsrc|]. simpl.
    destruct url as [u|]; [|split; [by intros ? _ ?%elem_of_nil|constructor]].
    split; [|apply NoDup_singleton].
    intros k (r & Hr & Hk)%list_elem_of_omap ->%list_elem_of_singleton.
    assert (Hex : existsb (fun r => sql_eq_text (s_url r) (Some u)) (rows (sources d)) = true).
    { apply existsb_exists. exists r. split; [by apply list_elem_of_In|].
      rewrite Hk. simpl. apply String.eqb_refl. }
    congruence.
Qed.

Lemma table_insert_keys_ok {R : Type} (key : R → Z) (mk : Z → R) (t : table R) :
  (∀ id, key (mk id) = id) →
  keys_ok key t → keys_ok key (table_insert mk t).1.
Proof.
  intros Hkey (Hseq & Hnd & Hin). unfold keys_ok. simpl. split_and!.
  - lia.
  - rewrite fmap_app. apply NoDup_app. split_and!; [done| |apply NoDup_singleton].
    intros k (r & -> & Hr)%list_elem_of_fmap Hk%list_elem_of_singleton.
    rewrite Hkey in Hk. specialize (Hin r Hr). lia.
  - intros r [Hr| ->%list_elem_of_singleton]%elem_of_app.
    + specialize (Hin r Hr). lia.
    + rewrite Hkey. lia.
Qed.

Lemma table_skip_keys_ok {R : Type} (key : R → Z) (t : table R) :
  keys_ok key t → keys_ok key (table_skip t).
Proof.
  intros (Hseq & Hnd & Hin). unfold keys_ok. simpl. split_and!; [lia|done|].
  intros r Hr. specialize (Hin r Hr). lia.
Qed.

Lemma write_primary_keys_ok d d' : primary_keys_ok d → write d d' → primary_keys_ok d'.
Proof.
  intros (?&?&?&?&?&?&?) Hw. inversion Hw; subst; clear Hw;
    unfold primary_keys_ok; split_and!; try done;
    first [by apply table_insert_keys_ok | by apply table_skip_keys_ok].
Qed.

Lemma write_jobs_unlinked d d' : jobs_unlinked d → write d d' → jobs_unlinked d'.
Proof.
  intros Hu Hw. inversion Hw; subst; clear Hw; try exact Hu.
  intros j [Hj| ->%list_elem_of_singleton]%elem_of_app; [by apply Hu|done].
Qed.

Lemma write_flags_boolean d d' : flags_boolean d → write d d' → flags_boolean d'.
Proof.
  intros Hb Hw. inversion Hw as [| | | | | |t l pd ds flag sid Hflag|]; subst; clear Hw;
    try exact Hb.
  intros j [Hj| ->%list_elem_of_singleton]%elem_of_app; [by apply Hb|].
  simpl. destruct Hflag as [-> | ->]; auto.
Qed.


Lemma empty_db_keys_ok : primary_keys_ok empty_db.
Proof.
  unfold primary_keys_ok, keys_ok. simpl.
  split_and!; try done; try apply NoDup_nil_2;
    intros r Hr; by apply elem_of_nil in Hr.
Qed.

(** X1. [build_graph] only appends: whatever the batch holds and however
    the call ends (also when an exception leaves it half-way), every
    table of the store begins with exactly the rows it had before; no
    row is changed, moved or deleted. *)
Theorem build_graph_only_appends (batch : list Item.item) (d : db) :
  extends d (build_graph batch d).2.
Proof.
  destruct (build_graph batch d) as [r d'] eqn:E. simpl.
  apply writes_extends. by eapply build_graph_writes.
Qed.



(** X3. [build_graph] never stores the same site twice under names and
    cities that differ only in letter case: if no two facility rows with
    a name and a city share the lower-case (name, city) pair, none do
    after the call. *)
Theorem build_graph_keeps_sites_distinct (batch : list Item.item) (d : db) :
  facility_keys_distinct d → facility_keys_distinct (build_graph batch d).2.
Proof.
  intros Hd. destruct (build_graph batch d) as [r d'] eqn:E. simpl.
  apply build_graph_writes in E.
  by apply (writes_keep facility_keys_distinct write_facility_keys_distinct d d').
Qed.

Lemma build_graph_keeps_sites_distinct_witness :
  facility_keys_distinct (build_graph Samples.batch_no_city empty_db).2.
Proof. apply build_graph_keeps_sites_distinct. apply NoDup_nil_2. Defined.

(** X4. [build_graph] never runs into the two [UNIQUE] constraints of
    the schema: company names and non-null source URLs that were
    distinct stay distinct. *)
Theorem build_graph_keeps_unique_columns (batch : list Item.item) (d : db) :
  unique_columns_ok d → unique_columns_ok (build_graph batch d).2.
Proof.
  intros Hd. destruct (build_graph batch d) as [r d'] eqn:E. simpl.
  apply build_graph_writes in E.
  by apply (writes_keep unique_columns_ok write_unique_columns_ok d d').
Qed.

Lemma build_graph_keeps_unique_columns_witness :
  unique_columns_ok (build_graph Samples.batch_no_city empty_db).2.
Proof.
  apply build_graph_keeps_unique_columns. split; apply NoDup_nil_2.
Defined.

(** X5. Every evidence snippet [build_graph] writes is cut to 500
    characters: a store whose snippets are that short stays so. *)
Theorem build_graph_keeps_snippets_short (batch : list Item.item) (d : db) :
  snippets_bounded d → snippets_bounded (build_graph batch d).2.
Proof.
  intros Hd. destruct (build_graph batch d) as [r d'] eqn:E. simpl.
  apply build_graph_writes in E.
  by apply (writes_keep snippets_bounded write_snippets_bounded d d').
Qed.

Lemma build_graph_keeps_snippets_short_witness :
  snippets_bounded (build_graph Samples.batch_no_city empty_db).2.
Proof.
  apply build_graph_keeps_snippets_short. intros r s Hr. by apply elem_of_nil in Hr.
Defined.

(** X6. [build_graph] leaves the key columns to [AUTOINCREMENT]: in
    every table the keys stay positive, pairwise distinct and bounded by
    the table's sequence entry. *)
Theorem build_graph_keeps_primary_keys (batch : list Item.item) (d : db) :
  primary_keys_ok d → primary_keys_ok (build_graph batch d).2.
Proof.
  intros Hd. destruct (build_graph batch d) as [r d'] eqn:E. simpl.
  apply build_graph_writes in E.
  by apply (writes_keep primary_keys_ok write_primary_keys_ok d d').
Qed.

Lemma build_graph_keeps_primary_keys_witness :
  primary_keys_ok (build_graph Samples.batch_no_city empty_db).2.
Proof. apply build_graph_keeps_primary_keys. exact empty_db_keys_ok. Defined.

(** A condition on the accumulator that every round keeps holds when
    the loop returns. *)
Lemma for_each_acc {A B : Type} (f : A → B → M A) (P : A → Prop) :
  (∀ a b d a' d', P a → f a b d = (Ok a', d') → P a') →
  ∀ l a d a' d', P a → for_each f a l d = (Ok a', d') → P a'.
Proof.
  intros Hf. induction l as [|b l IH]; intros a d a' d' Ha; simpl.
  { by intros [= <- <-]. }
  intros [(a1 & d1 & H1 & H)|(e & _ & [=])]%bind_inv.
  eapply IH; [|done]. by eapply Hf.
Qed.

Lemma facility_tail_counters cid src st fac v text conf ed stt xt d st' d' :
  counters_ok st →
  bind (_ensure_division cid v) (fun division_id =>
    bind (_insert_facility fac division_id) (fun facility_id =>
      match facility_id with
      | Some fid =>
          if id_truthy facility_id then
            bind (_insert_event fid (JStr "operational") ed stt xt) (fun _ =>
              bind (_insert_evidence src "FACILITY" fid text conf) (fun _ =>
                ret (incr_events (incr_facilities st))))
          else ret st
      | None => ret st
      end)) d = (Ok st', d') →
  counters_ok st'.
Proof.
  intros [Hd Hfe] [(did & d1 & _ & H)|(e & _ & [=])]%bind_inv.
  apply bind_inv in H as [(o & d2 & _ & H)|(e & _ & [=])].
  destruct o as [fid|]; [|by injection H as <- <-].
  destruct (id_truthy _); [|by injection H as <- <-].
  apply bind_inv in H as [(a & d3 & _ & H)|(e & _ & [=])].
  apply bind_inv in H as [(b & d4 & _ & H)|(e & _ & [=])].
  injection H as <- <-. split; simpl; [done|by f_equal].
Qed.

Lemma job_step_counters (job : gmap string jval) src st d st' d' :
  counters_ok st →
  bind (_insert_job job src)
       (fun job_id => ret (if id_truthy job_id then incr_jobs st else st)) d
  = (Ok st', d') →
  counters_ok st'.
Proof.
  intros Hst [(o & d1 & _ & H)|(e & _ & [=])]%bind_inv.
  injection H as <- <-. by destruct (id_truthy o).
Qed.

Lemma item_step_counters cid st item d st' d' :
  counters_ok st → item_step cid st item d = (Ok st', d') → counters_ok st'.
Proof.
  intros Hst. unfold item_step.
  intros [(sid & d1 & _ & H)|(e & _ & [=])]%bind_inv.
  assert (Hst1 : counters_ok (if id_truthy sid then incr_sources st else st))
    by (by destruct (id_truthy sid)).
  apply bind_inv in H as [(st2 & d2 & H2 & H)|(e & _ & [=])].
  assert (Hst2 : counters_ok st2).
  { destruct (Item.structured_facilities _); [|by injection H2 as <- <-].
    eapply (for_each_acc _ counters_ok); [|exact Hst1|done].
    intros ????? Ha. unfold structured_facility_step. by apply facility_tail_counters. }
  apply bind_inv in H as [(st3 & d3 & H3 & H)|(e & _ & [=])].
  assert (Hst3 : counters_ok st3).
  { destruct (Item.structured_jobs _); [|by injection H3 as <- <-].
    eapply (for_each_acc _ counters_ok); [|done|done].
    intros ????? Ha. by apply job_step_counters. }
  apply bind_inv in H as [(st4 & d4 & H4 & H)|(e & _ & [=])].
  assert (Hst4 : counters_ok st4).
  { eapply (for_each_acc _ counters_ok); [|done|done].
    intros a b d0 a' d0' Ha. unfold entity_facility_step.
    intros [(city & d5 & [_ ->]%lift_inv & H5)|(e & _ & [=])]%bind_inv.
    apply bind_inv in H5 as [(dn & d6 & [_ ->]%lift_inv & H5)|(e & _ & [=])].
    by eapply facility_tail_counters. }
  eapply (for_each_acc _ counters_ok); [|done|done].
  intros ????? Ha. by apply job_step_counters.
Qed.

(** X7. The counters [build_graph] returns: the [divisions] counter is
    never incremented, so it is [0] whatever was stored, and the
    [facilities] and [events] counters are always equal. *)
Theorem build_graph_counters (batch : list Item.item) (d d' : db) (st : stats) :
  build_graph batch d = (Ok st, d') →
  st_divisions st = 0 ∧ st_facilities st = st_events st.
Proof.
  unfold build_graph.
  intros [(cid & d1 & _ & H)|(e & _ & [=])]%bind_inv.
  change (counters_ok st).
  apply (for_each_acc (item_step cid) counters_ok)
    with (l := batch) (a := stats0) (d := d1) (d' := d'); [|by split|done].
  intros a b d0 a' d0' Ha. by apply item_step_counters.
Qed.

Lemma build_graph_counters_witness :
  ∃ st d', build_graph Samples.batch_no_city empty_db = (Ok st, d')
           ∧ st_divisions st = 0 ∧ st_facilities st = st_events st.
Proof.
  assert (Hok : is_ok (build_graph Samples.batch_no_city empty_db).1 = true)
    by (vm_compute; reflexivity).
  destruct (build_graph Samples.batch_no_city empty_db) as [r d'] eqn:E.
  destruct r as [st|e]; [|discriminate Hok].
  exists st, d'. split; [reflexivity|]. exact (build_graph_counters _ _ _ _ E).
Defined.

(** X8. [_ensure_division] gives one division one row: once a name has
    been stored for a company, a later call with any name that the
    abbreviation table maps to the same stored name returns the same key
    and writes nothing. *)
Theorem ensure_division_again (cid : Z) (s s' : string) (d d' : db) (id : Z) :
  normalized_division s' = normalized_division s →
  _ensure_division cid (JStr s) d = (Ok id, d') →
  _ensure_division cid (JStr s') d' = (Ok id, d').
Proof.
  intros Hs. unfold _ensure_division.
  change (default s' (assoc (PyStr.upper s') division_map)) with (normalized_division s').
  change (default s (assoc (PyStr.upper s) division_map)) with (normalized_division s).
  rewrite Hs.
  destruct (List.filter _ (rows (divisions d))) as [|r rs] eqn:Hf.
  - intros [= <- <-]. simpl. rewrite List.filter_app, Hf. simpl.
    by rewrite Z.eqb_refl, String.eqb_refl.
  - intros [= <- <-]. by rewrite Hf.
Qed.

Lemma ensure_division_again_witness :
  _ensure_division 1 (JStr "wiring")
    (_ensure_division 1 (JStr "MSWIL") empty_db).2
  = (Ok 1%Z, (_ensure_division 1 (JStr "MSWIL") empty_db).2).
Proof.
  apply (ensure_division_again 1 "MSWIL" "wiring" empty_db); reflexivity.
Defined.

(** X9. The lookup of [_insert_facility] ignores letter case and the
    division: once a facility with a text name and city has been
    stored or found, a later call whose name and city differ from it
    only in letter case returns the same key and writes nothing, for
    whatever division it is made. *)
Theorem insert_facility_again (fac fac' : gmap string jval) (did did' : Z)
    (n c n' c' : string) (d d' : db) (id : Z) :
  Item.get fac "name" (JStr "") = JStr n →
  Item.get_none fac "city" = JStr c →
  Item.get fac' "name" (JStr "") = JStr n' →
  Item.get_none fac' "city" = JStr c' →
  PyStr.lower n' = PyStr.lower n →
  PyStr.lower c' = PyStr.lower c →
  _insert_facility fac did d = (Ok (Some id), d') →
  _insert_facility fac' did' d' = (Ok (Some id), d').
Proof.
  intros Hn Hc Hn' Hc' Hln Hlc.
  unfold _insert_facility, try_except, bind, lift.
  rewrite Hn, (IdempotenceFacts.get_of_get_none _ _ _ _ Hc), Hc.
  rewrite Hn', (IdempotenceFacts.get_of_get_none _ _ _ _ Hc'). simpl.
  rewrite Hln, Hlc.
  destruct (List.filter _ (rows (facilities d))) as [|r rs] eqn:Hf.
  - destruct (_normalize_name (JStr n)) as [nn|]; simpl; [|discriminate].
    destruct (bind_text (Item.get_none fac "state")) as [st|]; simpl; [|discriminate].
    destruct (bind_text (Item.get fac "country" (JStr "India"))) as [co|]; simpl;
      [|discriminate].
    intros [= <- <-]. simpl. rewrite List.filter_app, Hf. simpl.
    by rewrite !String.eqb_refl.
  - intros [= <- <-]. by rewrite Hf.
Qed.

Lemma insert_facility_again_witness :
  _insert_facility Samples.fac_brownfield 7
    (_insert_facility Samples.fac_planned 1 empty_db).2
  = (Ok (Some 1%Z), (_insert_facility Samples.fac_planned 1 empty_db).2).
Proof.
  apply (insert_facility_again Samples.fac_planned Samples.fac_brownfield 1 7
           "Chennai Plant" "Chennai" "CHENNAI PLANT" "chennai" empty_db);
    reflexivity.
Defined.

Lemma set_sources_same d : set_sources (sources d) d = d.
Proof. by destruct d. Qed.

(** X10. A source URL is stored once and the first record wins: when a
    source with a text URL has been inserted (or was found stored), a
    later [_insert_source] with the same URL adds no row to any table,
    whatever its other fields say (at most the sequence of the sources
    table advances), and returns a falsy key ([0] or [None]), so
    [build_graph] does not count it. *)
Theorem insert_source_again (sd sd' : gmap string jval) (u : string)
    (d d' : db) (id : Z) :
  Item.get sd "url" (JStr "unknown") = JStr u →
  Item.get sd' "url" (JStr "unknown") = JStr u →
  _insert_source sd d = (Ok (Some id), d') →
  ∃ o t, _insert_source sd' d' = (Ok o, set_sources t d')
         ∧ rows t = rows (sources d')
         ∧ (seq (sources d') <= seq t)%Z
         ∧ id_truthy o = false.
Proof.
  intros Hu Hu'. unfold _insert_source, try_except, bind, lift.
  rewrite Hu, Hu'. simpl.
  intros Hfirst.
  assert (Hstored : existsb (fun r => sql_eq_text (s_url r) (Some u))
                            (rows (sources d')) = true).
  { revert Hfirst.
    repeat (destruct (bind_text _); simpl; [|discriminate]).
    destruct (existsb _ (rows (sources d))) eqn:He; intros [= <- <-]; [exact He|].
    simpl. rewrite existsb_app. simpl. by rewrite String.eqb_refl, orb_true_r. }
  clear Hfirst.
  repeat (destruct (bind_text _); simpl;
          [|exists None, (sources d'); rewrite set_sources_same;
            split; [done|]; split; [done|]; split; [lia|done]]).
  rewrite Hstored. exists (Some 0%Z), (table_skip (sources d')).
  split; [done|]. split; [done|]. split; [simpl; lia|done].
Qed.

Lemma insert_source_again_witness :
  ∃ o t, _insert_source (<["title" := JStr "Another title"]> (Samples.source_fields "https://a"))
           (_insert_source (Samples.source_fields "https://a") empty_db).2
         = (Ok o, set_sources t (_insert_source (Samples.source_fields "https://a") empty_db).2)
         ∧ rows t = rows (sources (_insert_source (Samples.source_fields "https://a") empty_db).2)
         ∧ (seq (sources (_insert_source (Samples.source_fields "https://a") empty_db).2)
            <= seq t)%Z
         ∧ id_truthy o = false.
Proof.
  apply (insert_source_again (Samples.source_fields "https://a") _ "https://a"
           empty_db _ 1); reflexivity.
Defined.

Lemma write_events_uniform d d' : events_uniform d → write d d' → events_uniform d'.
Proof.
  intros Hu Hw. inversion Hw; subst; clear Hw; try exact Hu.
  intros e [He| ->%list_elem_of_singleton]%elem_of_app; [by apply Hu|done].
Qed.

(** X24. Whatever status or type a candidate carries, [build_graph]
    records its event with the type ['operational'] and the confidence
    0.8: a store whose events are all such stays so. *)
Theorem build_graph_events_are_operational (batch : list Item.item) (d : db) :
  events_uniform d → events_uniform (build_graph batch d).2.
Proof.
  intros Hd. destruct (build_graph batch d) as [r d'] eqn:E. simpl.
  apply build_graph_writes in E.
  by apply (writes_keep events_uniform write_events_uniform d d').
Qed.

Lemma build_graph_events_are_operational_witness :
  events_uniform (build_graph Samples.batch_no_city empty_db).2.
Proof.
  apply build_graph_events_are_operational. intros e He. by apply elem_of_nil in He.
Defined.

Lemma table_insert_keys_after {R : Type} (key : R → Z) (mk : Z → R) (t0 t : table R) :
  (∀ id, key (mk id) = id) →
  keys_after key t0 t → keys_after key t0 (table_insert mk t).1.
Proof.
  intros Hkey [Hseq Hin]. split; simpl; [lia|].
  intros r [Hr| ->%list_elem_of_singleton]%elem_of_app.
  - by apply Hin.
  - rewrite Hkey. lia.
Qed.

Lemma table_skip_keys_after {R : Type} (key : R → Z) (t0 t : table R) :
  keys_after key t0 t → keys_after key t0 (table_skip t).
Proof. intros [Hseq Hin]. split; simpl; [lia|done]. Qed.

Lemma write_keys_fresh d0 d d' : keys_fresh d0 d → write d d' → keys_fresh d0 d'.
Proof.
  intros (?&?&?&?&?&?&?) Hw. inversion Hw; subst; clear Hw;
    unfold keys_fresh; split_and!; try done;
    first [by apply table_insert_keys_after | by apply table_skip_keys_after].
Qed.

(** X25. Keys are not given out twice: after [clear_all_data] the
    tables are empty but remember their last key, and every row a later
    [build_graph] writes, in any table, has a key above all the keys
    the table had given out before it was cleared. *)
Theorem cleared_store_reuses_no_key (batch : list Item.item) (d : db) :
  keys_fresh d (build_graph batch (clear_all_data d)).2.
Proof.
  destruct (build_graph batch (clear_all_data d)) as [r d'] eqn:E. simpl.
  apply build_graph_writes in E.
  apply (writes_keep (keys_fresh d) (write_keys_fresh d) (clear_all_data d) d');
    [done|].
  unfold keys_fresh, keys_after. simpl.
  split_and!; try done; intros r0 Hr0; by apply elem_of_nil in Hr0.
Qed.

End WriteFacts.

(** ** [query_jobs] and the third pipeline step *)

Module JobFacts.
Import Database GraphBuilder Pipeline.

Lemma insert_newest_perm x l : insert_newest x l ≡ₚ x :: l.
Proof.
  induction l as [|y l IH]; simpl; [done|].
  destruct (sql_lt _ _); [|done]. rewrite IH. apply Permutation_swap.
Qed.

Lemma order_by_posted_perm l : order_by_posted_desc l ≡ₚ l.
Proof.
  induction l as [|x l IH]; simpl; [done|].
  rewrite insert_newest_perm. by constructor.
Qed.

Lemma filter_perm {A : Type} (p : A → bool) (l l' : list A) :
  l ≡ₚ l' → List.filter p l ≡ₚ List.filter p l'.
Proof.
  induction 1 as [|x l l' _ IH|x y l|l1 l2 l3 _ IH1 _ IH2]; simpl.
  - done.
  - destruct (p x); [by constructor|done].
  - destruct (p x), (p y); try done. apply Permutation_swap.
  - by etrans.
Qed.

Lemma filter_all {A : Type} (l : list A) : List.filter (fun _ => true) l = l.
Proof. induction l as [|x l IH]; simpl; [done|by rewrite IH]. Qed.

Lemma filter_none {A : Type} (l : list A) : List.filter (fun _ => false) l = [].
Proof. induction l as [|x l IH]; simpl; done. Qed.

Lemma filter_fmap_const {A B : Type} (f : A → B) (p : B → bool) (b : bool) (l : list A) :
  Forall (fun x => p (f x) = b) l →
  List.filter p (f <$> l) = if b then f <$> l else [].
Proof.
  induction 1 as [|x l Hx _ IH]; [by destruct b|].
  rewrite fmap_cons. cbn [List.filter]. rewrite Hx, IH. by destruct b.
Qed.

Lemma job_rows_elem d j r :
  r ∈ job_rows d j →
  jj_id r = j_id j ∧ jj_is_factory_role r = j_is_factory_role j
  ∧ (j_facility_id j = None → jj_facility r = None)
  ∧ (j_division_id j = None → jj_division r = None).
Proof.
  unfold job_rows. rewrite !list_elem_of_In.
  intros (f & Hf & (dv & Hdv & Hr)%in_flat_map)%in_flat_map.
  apply list_elem_of_In, list_elem_of_fmap in Hr as (s & -> & _). simpl.
  split_and!; try done.
  - intros Hnone. rewrite Hnone in Hf. simpl in Hf.
    rewrite filter_none in Hf. by destruct Hf as [<-|[]].
  - intros Hnone. rewrite Hnone in Hdv. simpl in Hdv.
    rewrite filter_none in Hdv. by destruct Hdv as [<-|[]].
Qed.

Lemma query_jobs_elem d fo r :
  r ∈ query_jobs d fo →
  ∃ j x, j ∈ rows (jobs d) ∧ job_where fo j = true ∧ x ∈ job_rows d j
         ∧ r = job_result_of x.
Proof.
  unfold query_jobs. intros (x & -> & Hx)%list_elem_of_fmap.
  rewrite order_by_posted_perm in Hx.
  apply list_elem_of_In, in_flat_map in Hx as (j & Hj & Hx).
  apply filter_In in Hj as [Hj Hw].
  exists j, x. by rewrite !list_elem_of_In.
Qed.

(** X11. [build_graph] never links a job to a facility or a division:
    on a store whose jobs have neither, every record [query_jobs]
    returns after the call has the facility ['Multiple Locations'] and
    the division ['Unknown'], whatever the batch said about the job. *)
Theorem jobs_of_build_graph_have_no_site (batch : list Item.item) (d : db)
    (factory_only : bool) :
  jobs_unlinked d →
  Forall (fun r => jb_facility r = "Multiple Locations" ∧ jb_division r = "Unknown")
         (query_jobs (build_graph batch d).2 factory_only).
Proof.
  intros Hd. destruct (build_graph batch d) as [res d'] eqn:E. simpl.
  apply WriteFacts.build_graph_writes in E.
  assert (Hd' : jobs_unlinked d')
    by (by apply (WriteFacts.writes_keep jobs_unlinked WriteFacts.write_jobs_unlinked d d')).
  apply Forall_forall. intros r (j & x & Hj & _ & Hx & ->)%query_jobs_elem.
  apply Hd' in Hj as [Hf Hv].
  apply job_rows_elem in Hx as (_ & _ & Hxf & Hxv).
  unfold job_result_of. simpl. by rewrite (Hxf Hf), (Hxv Hv).
Qed.

Lemma jobs_of_build_graph_have_no_site_witness :
  Forall (fun r => jb_facility r = "Multiple Locations" ∧ jb_division r = "Unknown")
         (query_jobs (build_graph Samples.batch_jobs empty_db).2 false).
Proof.
  apply jobs_of_build_graph_have_no_site. intros j Hj. by apply elem_of_nil in Hj.
Defined.

Lemma flat_map_factory d (l : list job_row) :
  (∀ j, j ∈ l → j_is_factory_role j = Some 0%Z ∨ j_is_factory_role j = Some 1%Z) →
  List.filter jb_is_factory_role (job_result_of <$> flat_map (job_rows d) l)
  = job_result_of <$> flat_map (job_rows d) (List.filter (job_where true) l).
Proof.
  induction l as [|j l IH]; intros Hl; [done|].
  cbn [flat_map List.filter].
  rewrite fmap_app, List.filter_app, IH by (intros; apply Hl; by right).
  rewrite (filter_fmap_const _ _ (job_where true j)).
  - destruct (job_where true j); cbn [flat_map]; [by rewrite fmap_app|done].
  - apply Forall_forall. intros x (_ & Hx & _)%job_rows_elem.
    unfold job_result_of, job_where. simpl. rewrite Hx.
    by destruct (Hl j) as [-> | ->]; [by left| |].
Qed.

(** X12. On a store whose [is_factory_role] flags are all [0] or [1]
    (every store [build_graph] fills is one), the records of
    [query_jobs(factory_only=True)] are exactly the records of the
    unfiltered call whose [is_factory_role] is true, each as often. *)
Theorem query_jobs_factory_only (d : db) :
  flags_boolean d →
  query_jobs d true ≡ₚ List.filter jb_is_factory_role (query_jobs d false).
Proof.
  intros Hd. unfold query_jobs.
  change (job_where false) with (fun _ : job_row => true). rewrite filter_all.
  etrans; [|apply filter_perm, fmap_Permutation; symmetry; apply order_by_posted_perm].
  rewrite order_by_posted_perm. by rewrite flat_map_factory.
Qed.

Lemma query_jobs_factory_only_witness :
  query_jobs (build_graph Samples.batch_job_mention empty_db).2 true
  ≡ₚ List.filter jb_is_factory_role
       (query_jobs (build_graph Samples.batch_job_mention empty_db).2 false).
Proof.
  apply query_jobs_factory_only.
  apply (WriteFacts.writes_keep flags_boolean WriteFacts.write_flags_boolean empty_db).
  - destruct (build_graph Samples.batch_job_mention empty_db) as [r d'] eqn:E.
    by apply WriteFacts.build_graph_writes in E.
  - intros j Hj. by apply elem_of_nil in Hj.
Defined.

Lemma unique_match {R : Type} (key : R → Z) (x : option Z) (l : list R) :
  NoDup (key <$> l) →
  ∃ o, left_join (List.filter (fun r => sql_eq_int x (Some (key r))) l) = [o].
Proof.
  induction l as [|a l IH]; simpl; [by eexists|].
  intros [Ha Hl]%NoDup_cons. destruct (sql_eq_int x (Some (key a))) eqn:E.
  - assert (List.filter (fun r => sql_eq_int x (Some (key r))) l = []) as ->.
    { clear IH Hl. induction l as [|b l IH]; simpl; [done|].
      destruct (sql_eq_int x (Some (key b))) eqn:Eb.
      - exfalso. apply Ha. destruct x as [z|]; [|done]. simpl in E, Eb.
        apply Z.eqb_eq in E, Eb. rewrite <- E, Eb. simpl. by left.
      - apply IH. intros Hin. apply Ha. simpl. by right. }
    by eexists.
  - by apply IH.
Qed.

Lemma job_rows_single d j :
  primary_keys_ok d → ∃ x, job_rows d j = [x] ∧ jj_id x = j_id j.
Proof.
  intros (_ & (_ & Hdv & _) & (_ & Hs & _) & (_ & Hf & _) & _). unfold job_rows.
  destruct (unique_match f_id (j_facility_id j) _ Hf) as [f ->].
  destruct (unique_match dv_id (j_division_id j) _ Hdv) as [dv ->].
  destruct (unique_match s_id (j_source_id j) _ Hs) as [src ->].
  simpl. by eexists.
Qed.

Lemma flat_map_job_ids d (l : list job_row) :
  primary_keys_ok d →
  jj_id <$> flat_map (job_rows d) l = j_id <$> l.
Proof.
  intros Hd. induction l as [|j l IH]; [done|].
  cbn [flat_map]. destruct (job_rows_single d j Hd) as (x & -> & Hx).
  rewrite fmap_app, IH, fmap_cons. simpl. by rewrite Hx.
Qed.

(** X13. When the keys of the store are distinct, the three [LEFT
    JOIN]s of [query_jobs] neither drop nor multiply a job: the
    unfiltered call returns every job row exactly once. *)
Theorem query_jobs_lists_each_job_once (d : db) :
  primary_keys_ok d →
  jb_id <$> query_jobs d false ≡ₚ j_id <$> rows (jobs d).
Proof.
  intros Hd. unfold query_jobs.
  change (job_where false) with (fun _ : job_row => true). rewrite filter_all.
  rewrite <- list_fmap_compose, order_by_posted_perm.
  by rewrite <- (flat_map_job_ids d _ Hd).
Qed.

Lemma query_jobs_lists_each_job_once_witness :
  jb_id <$> query_jobs (build_graph Samples.batch_jobs empty_db).2 false
  ≡ₚ j_id <$> rows (jobs (build_graph Samples.batch_jobs empty_db).2).
Proof.
  apply query_jobs_lists_each_job_once.
  apply (WriteFacts.writes_keep primary_keys_ok WriteFacts.write_primary_keys_ok empty_db).
  - destruct (build_graph Samples.batch_jobs empty_db) as [r d'] eqn:E.
    by apply WriteFacts.build_graph_writes in E.
  - exact WriteFacts.empty_db_keys_ok.
Defined.

(** The job dictionaries of step 3 are stored with the flag set. *)
Lemma insert_job_entry job sid d :
  bindable (Item.get job "title" (JStr "")) →
  bindable (Item.get job "location" (JStr "India")) →
  ∃ t id row, _insert_job (job_entry job) sid d = (Ok (Some id), set_jobs t d)
           ∧ rows t = rows (jobs d) ++ [row]
           ∧ j_is_factory_role row = Some 1%Z.
Proof.
  intros [title Ht] [loc Hl].
  assert (Item.get (job_entry job) "title" (JStr "") = Item.get job "title" (JStr "")) as Et
    by (unfold Item.get, job_entry; by rewrite lookup_insert_eq).
  assert (Item.get (job_entry job) "location" (JStr "India")
          = Item.get job "location" (JStr "India")) as El
    by (unfold Item.get, job_entry; by rewrite lookup_insert_ne, lookup_insert_eq by done).
  assert (Item.get_none (job_entry job) "posted_date" = JNull) as Ep
    by (unfold Item.get_none, Item.get, job_entry;
        by rewrite !lookup_insert_ne, lookup_insert_eq by done).
  assert (Item.get_none (job_entry job) "description" = JNull) as Ed
    by (unfold Item.get_none, Item.get, job_entry;
        by rewrite !lookup_insert_ne, lookup_insert_eq by done).
  assert (Item.get_none (job_entry job) "is_factory_role" = JBool true) as Ef
    by (unfold Item.get_none, Item.get, job_entry;
        by rewrite !lookup_insert_ne, lookup_insert_eq by done).
  unfold _insert_job, try_except, bind, lift.
  rewrite Et, El, Ep, Ed, Ef, Ht, Hl. simpl.
  eexists _, _, _. split; [reflexivity|]. split; reflexivity.
Qed.

Lemma set_jobs_same d : set_jobs (jobs d) d = d.
Proof. by destruct d. Qed.

Lemma insert_jobs_appends (L : list (gmap string jval * option Z)) : ∀ d,
  Forall (fun jd => ∀ d, ∃ t id row,
            _insert_job jd.1 jd.2 d = (Ok (Some id), set_jobs t d)
            ∧ rows t = rows (jobs d) ++ [row]
            ∧ j_is_factory_role row = Some 1%Z) L →
  ∃ t new, insert_jobs L d = (Ok tt, set_jobs t d)
           ∧ rows t = rows (jobs d) ++ new
           ∧ length new = length L
           ∧ Forall (fun j => j_is_factory_role j = Some 1%Z) new.
Proof.
  unfold insert_jobs. induction L as [|jd L IH]; intros d HL.
  - exists (jobs d), []. rewrite set_jobs_same, app_nil_r. by repeat split.
  - apply Forall_cons in HL as [Hjd HL].
    destruct (Hjd d) as (t1 & id & row & Hrun & Hrows & Hflag).
    destruct (IH (set_jobs t1 d) HL) as (t & new & Hrest & Hrows2 & Hlen & Hnew).
    exists t, (row :: new). cbn [for_each]. unfold bind at 1 2. rewrite Hrun.
    simpl ret. cbv beta iota. fold (@for_each unit). split_and!.
    + exact Hrest.
    + rewrite Hrows2. simpl. rewrite Hrows, <- app_assoc. done.
    + simpl. by rewrite Hlen.
    + by constructor.
Qed.

Lemma jobs_data_length batch d :
  length (jobs_data_of batch d) = length (structured_jobs_of batch).
Proof.
  unfold jobs_data_of, structured_jobs_of.
  induction batch as [|item batch IH]; [done|].
  cbn [flat_map]. rewrite !length_app, IH. f_equal.
  destruct (Item.structured_jobs _); simpl; [by rewrite length_fmap|done].
Qed.

Lemma jobs_data_entries batch d (P : gmap string jval * option Z → Prop) :
  (∀ job sid, job ∈ structured_jobs_of batch → P (job_entry job, sid)) →
  Forall P (jobs_data_of batch d).
Proof.
  unfold jobs_data_of, structured_jobs_of.
  induction batch as [|item batch IH]; intros HP; [constructor|].
  cbn [flat_map] in *. apply Forall_app. split.
  - destruct (Item.structured_jobs _) as [js|]; [|constructor].
    apply Forall_fmap, Forall_forall. intros job Hjob.
    apply (HP job (lookup_source_id (Item.fields (Item.source item)) d)).
    apply elem_of_app. left. exact Hjob.
  - apply IH. intros job sid Hjob. apply HP. apply elem_of_app. by right.
Qed.

(** X14. Step 3 of the pipeline stores every structured job a second
    time. [build_graph] has stored them with the flag the posting
    carries; when it returns, the step appends one more job row for each
    structured job of the batch (whose title and location SQLite can
    bind), every one with [is_factory_role = 1], and changes no other
    table. *)
Theorem step3_stores_structured_jobs_again (batch : list Item.item)
    (d d1 : db) (st : stats) :
  build_graph batch d = (Ok st, d1) →
  Forall (fun job => bindable (Item.get job "title" (JStr ""))
                     ∧ bindable (Item.get job "location" (JStr "India")))
         (structured_jobs_of batch) →
  ∃ t new, step3_graph_building batch d = (Ok tt, set_jobs t d1)
           ∧ rows t = rows (jobs d1) ++ new
           ∧ length new = length (structured_jobs_of batch)
           ∧ Forall (fun j => j_is_factory_role j = Some 1%Z) new.
Proof.
  intros Hrun Hjobs. unfold step3_graph_building, bind. rewrite Hrun.
  assert (Hall : Forall (fun jd => ∀ d, ∃ t id row,
            _insert_job jd.1 jd.2 d = (Ok (Some id), set_jobs t d)
            ∧ rows t = rows (jobs d) ++ [row]
            ∧ j_is_factory_role row = Some 1%Z) (jobs_data_of batch d1)).
  { apply jobs_data_entries. intros job sid Hjob d0.
    rewrite Forall_forall in Hjobs. destruct (Hjobs job Hjob) as [Ht Hl].
    by apply insert_job_entry. }
  destruct (insert_jobs_appends _ d1 Hall) as (t & new & Hins & Hrows & Hlen & Hflags).
  rewrite jobs_data_length in Hlen.
  destruct (jobs_data_of batch d1) as [|jd L] eqn:EL.
  - exists (jobs d1), []. rewrite set_jobs_same, app_nil_r.
    split; [done|]. split; [done|]. split; [|done].
    by rewrite <- (jobs_data_length batch d1), EL.
  - exists t, new. by rewrite Hins.
Qed.

Lemma step3_stores_structured_jobs_again_witness :
  ∃ st d1 t new,
    build_graph Samples.batch_jobs empty_db = (Ok st, d1)
    ∧ step3_graph_building Samples.batch_jobs empty_db = (Ok tt, set_jobs t d1)
    ∧ rows t = rows (jobs d1) ++ new
    ∧ length new = length (structured_jobs_of Samples.batch_jobs)
    ∧ Forall (fun j => j_is_factory_role j = Some 1%Z) new.
Proof.
  assert (Hok : is_ok (build_graph Samples.batch_jobs empty_db).1 = true)
    by (vm_compute; reflexivity).
  destruct (build_graph Samples.batch_jobs empty_db) as [r d1] eqn:E.
  destruct r as [st|e]; [|discriminate Hok].
  destruct (step3_stores_structured_jobs_again Samples.batch_jobs empty_db d1 st E)
    as (t & new & H).
  - repeat constructor; by eexists.
  - by exists st, d1, t, new.
Defined.

End JobFacts.

(** ** Similarity, the merge decision and the merged record *)

Module MergeFacts.
Import EntityResolver.

Lemma similarity_comm name1 name2 :
  calculate_similarity name1 name2 = calculate_similarity name2 name1.
Proof.
  unfold calculate_similarity.
  rewrite (orb_comm (String.eqb name1 "")).
  destruct (String.eqb name2 "" || String.eqb name1 ""); [done|].
  rewrite (orb_comm (size (tokens name1) =? 0)).
  destruct ((size (tokens name2) =? 0) || (size (tokens name1) =? 0)); [done|].
  assert (tokens name1 ∩ tokens name2 = tokens name2 ∩ tokens name1) as -> by set_solver.
  assert (tokens name1 ∪ tokens name2 = tokens name2 ∪ tokens name1) as -> by set_solver.
  done.
Qed.

Lemma pos_of_nat_Z (n : nat) : n ≠ 0 → Z.pos (Pos.of_nat n) = Z.of_nat n.
Proof. intros Hn. by rewrite <- positive_nat_Z, Nat2Pos.id. Qed.

(** X15. The similarity of two names is a number between 0 and 1. *)
Theorem calculate_similarity_range (name1 name2 : string) :
  (0 <= calculate_similarity name1 name2)%Q
  ∧ (calculate_similarity name1 name2 <= 1)%Q.
Proof.
  unfold calculate_similarity.
  destruct (String.eqb name1 "" || String.eqb name2 ""); [by split|].
  destruct ((size (tokens name1) =? 0) || (size (tokens name2) =? 0)); [by split|].
  destruct (size (tokens name1 ∪ tokens name2) =? 0) eqn:E; [by split|].
  apply Nat.eqb_neq in E.
  assert (size (tokens name1 ∩ tokens name2) ≤ size (tokens name1 ∪ tokens name2))
    by (apply subseteq_size; set_solver).
  split; unfold Qle; cbn [Qnum Qden]; rewrite ?pos_of_nat_Z by done; lia.
Qed.

Lemma rule1_comm a b l1 l2 : rule1 a b l1 l2 = rule1 b a l2 l1.
Proof.
  unfold rule1. rewrite (String.eqb_sym b a).
  destruct (String.eqb a b) eqn:E; [|done].
  apply String.eqb_eq in E as ->. simpl.
  destruct (negb (String.eqb b "")); [|done].
  rewrite (orb_comm (String.eqb (loc_lower l1) "")).
  destruct (String.eqb (loc_lower l2) "" || String.eqb (loc_lower l1) ""); [done|].
  set (t1 := list_to_set (PyStr.split (loc_lower l1)) : gset string).
  set (t2 := list_to_set (PyStr.split (loc_lower l2)) : gset string).
  assert (t1 ∩ t2 = t2 ∩ t1) as -> by set_solver. done.
Qed.

Lemma existsb_same {A : Type} (f g : A → bool) (l : list A) :
  (∀ x, f x = g x) → existsb f l = existsb g l.
Proof. intros Hfg. induction l as [|x l IH]; simpl; [done|]. by rewrite Hfg, IH. Qed.

Lemma rule2_comm a b l1 l2 t : rule2 a b l1 l2 t = rule2 b a l2 l1 t.
Proof.
  unfold rule2. rewrite (similarity_comm b a).
  destruct (Qle_bool t (calculate_similarity a b)); [|done].
  rewrite (andb_comm (negb (String.eqb (loc_lower l2) ""))).
  destruct (negb (String.eqb (loc_lower l1) "") && negb (String.eqb (loc_lower l2) ""));
    [|done].
  apply existsb_same. intros state. apply andb_comm.
Qed.

Lemma normalize_name_raises name e : normalize_name name = Raise e → e = AttributeError.
Proof.
  unfold normalize_name. destruct (negb (Py.truthy name)); [done|].
  destruct name; congruence.
Qed.

(** X16. The merge decision does not depend on which of the two
    candidates comes first: [should_merge] gives the same answer (or
    raises the same exception) when the two (name, location) pairs are
    exchanged. *)
Theorem should_merge_symmetric (name1 name2 : pyval) (loc1 loc2 : string)
    (threshold : Q) :
  should_merge name1 loc1 name2 loc2 threshold
  = should_merge name2 loc2 name1 loc1 threshold.
Proof.
  unfold should_merge.
  destruct (normalize_name name1) as [a|e1] eqn:E1;
    destruct (normalize_name name2) as [b|e2] eqn:E2; simpl; try done.
  - by rewrite (rule1_comm a b), (rule2_comm a b).
  - apply normalize_name_raises in E1 as ->. by apply normalize_name_raises in E2 as ->.
Qed.

(** X17. A candidate whose name normalizes to the empty string (a
    missing or empty name, or one made of punctuation only) is never
    merged with another one, whatever the locations, for every positive
    threshold. *)
Theorem empty_name_is_never_merged (name1 name2 : pyval) (loc1 loc2 norm2 : string)
    (threshold : Q) :
  normalize_name name1 = Ok "" →
  normalize_name name2 = Ok norm2 →
  (0 < threshold)%Q →
  should_merge name1 loc1 name2 loc2 threshold = Ok false.
Proof.
  intros H1 H2 Hpos. unfold should_merge. rewrite H1, H2. simpl.
  unfold rule1. simpl. rewrite andb_false_r.
  unfold rule2, calculate_similarity. simpl.
  destruct (Qle_bool threshold 0) eqn:E; [|done].
  apply Qle_bool_iff in E. exfalso. by apply (Qlt_not_le _ _ Hpos).
Qed.

Lemma empty_name_is_never_merged_witness :
  should_merge (VStr "?!") "pune maharashtra" (VStr "Pune Plant") "pune maharashtra"
               default_threshold = Ok false.
Proof.
  apply (empty_name_is_never_merged _ _ _ _ "pune"); reflexivity.
Defined.

(** A condition every round keeps holds when the loop returns. *)
Lemma foldlM_inv {A B : Type} (f : A → B → res A) (P : A → Prop) :
  (∀ a b a', P a → f a b = Ok a' → P a') →
  ∀ l a a', P a → foldlM f a l = Ok a' → P a'.
Proof.
  intros Hf. induction l as [|b l IH]; intros a a' Ha; simpl.
  { by intros [= <-]. }
  destruct (f a b) as [a1|e] eqn:E; simpl; [|done].
  apply IH. by eapply Hf.
Qed.

Lemma merge_field_other merged key value merged' k :
  key ≠ k → merge_field merged (key, value) = Ok merged' → merged' !! k = merged !! k.
Proof.
  intros Hne. unfold merge_field.
  destruct (negb (Py.truthy (Py.get_none merged key)) && Py.truthy value);
    destruct ((bool_decide (key = "event_date") || bool_decide (key = "announcement_date"))
              && Py.truthy value);
    destruct (bool_decide (key = "confidence") && Py.truthy value); simpl;
    repeat match goal with
           | |- context [negb (Py.truthy ?x)] => destruct (negb (Py.truthy x)); simpl
           | |- context [Py.lt ?x ?y] => destruct (Py.lt x y) as [[]|]; simpl
           | |- context [Py.gt ?x ?y] => destruct (Py.gt x y) as [[]|]; simpl
           end;
    try discriminate; intros [= <-]; by rewrite ?lookup_insert_ne.
Qed.

Lemma merge_field_same merged k value v :
  merged !! k = Some v → Py.truthy v = true →
  k ≠ "event_date" → k ≠ "announcement_date" → k ≠ "confidence" →
  merge_field merged (k, value) = Ok merged.
Proof.
  intros Hk Hv H1 H2 H3. unfold merge_field, Py.get_none, Py.get.
  rewrite Hk. simpl. rewrite Hv. simpl.
  by rewrite !bool_decide_eq_false_2 by done.
Qed.

(** X18. Merging never overrides what the first candidate of a group
    says: for every key other than the two dates and the confidence, a
    truthy value of the first candidate is the value of the merged
    record, whatever the later candidates hold. *)
Theorem merge_keeps_first_value (base : gmap string pyval)
    (others : list (gmap string pyval)) (merged : gmap string pyval)
    (k : string) (v : pyval) :
  base !! k = Some v →
  Py.truthy v = true →
  k ∉ ["event_date"; "announcement_date"; "confidence"; "was_merged"; "merge_count"] →
  _merge_facility_group (base :: others) = Ok merged →
  merged !! k = Some v.
Proof.
  intros Hk Hv Hnot. rewrite !not_elem_of_cons in Hnot.
  destruct Hnot as (H1 & H2 & H3 & H4 & H5 & _).
  unfold _merge_facility_group.
  destruct (foldlM _ base others) as [m|e] eqn:E; simpl; [|done].
  intros [= <-]. rewrite !lookup_insert_ne by done.
  revert E. apply (foldlM_inv _ (fun m => m !! k = Some v)); [|done].
  intros m0 fac m1 Hm0. apply (foldlM_inv _ (fun m => m !! k = Some v)); [|done].
  intros m2 [key value] m3 Hm2 Hstep.
  destruct (decide (key = k)) as [->|Hne].
  - rewrite (merge_field_same m2 k value v) in Hstep by done. by injection Hstep as <-.
  - by rewrite (merge_field_other _ _ _ _ _ Hne Hstep).
Qed.

Lemma merge_keeps_first_value_witness :
  ∃ merged,
    _merge_facility_group [Samples.cand_sanand_plant; Samples.cand_sanand_unit] = Ok merged
    ∧ merged !! "name" = Some (VStr "Sanand Plant").
Proof.
  assert (Hok : is_ok (_merge_facility_group
                         [Samples.cand_sanand_plant; Samples.cand_sanand_unit]) = true)
    by (vm_compute; reflexivity).
  destruct (_merge_facility_group [Samples.cand_sanand_plant; Samples.cand_sanand_unit])
    as [merged|e] eqn:E; [|discriminate Hok].
  exists merged. split; [reflexivity|].
  apply (merge_keeps_first_value Samples.cand_sanand_plant [Samples.cand_sanand_unit]
           merged "name" (VStr "Sanand Plant")); [reflexivity|reflexivity| |exact E].
  rewrite !not_elem_of_cons. split_and!; [discriminate..|apply not_elem_of_nil].
Defined.

Lemma foldlM_cons_inv {A B : Type} (f : A → B → res A) (b : B) (l : list B) (a a' : A) :
  foldlM f a (b :: l) = Ok a' → ∃ a1, f a b = Ok a1 ∧ foldlM f a1 l = Ok a'.
Proof. simpl. destruct (f a b) as [a1|]; simpl; [by exists a1|done]. Qed.

Lemma foldlM_app_inv {A B : Type} (f : A → B → res A) (l1 l2 : list B) (a a' : A) :
  foldlM f a (l1 ++ l2) = Ok a' →
  ∃ a1, foldlM f a l1 = Ok a1 ∧ foldlM f a1 l2 = Ok a'.
Proof.
  revert a. induction l1 as [|b l1 IH]; intros a; [by exists a|].
  rewrite <- app_comm_cons. intros (a1 & Hb & Hrest)%foldlM_cons_inv.
  apply IH in Hrest as (a2 & H1 & H2). exists a2. split; [|done].
  simpl. by rewrite Hb.
Qed.

(** [old < new] between a number and a value that is a number. *)
Lemma lt_of_numbers old new x y r :
  Py.to_num old = Some x → Py.to_num new = Some y →
  Py.lt old new = Ok r → r = negb (Qle_bool y x).
Proof.
  intros Hx Hy. unfold Py.lt. rewrite Hx, Hy.
  destruct old, new; simpl in *; try discriminate; by intros [= <-].
Qed.

Lemma lt_number_left old new y r :
  Py.to_num new = Some y → Py.lt old new = Ok r → ∃ x, Py.to_num old = Some x.
Proof.
  intros Hy. unfold Py.lt. rewrite Hy.
  destruct old, new; simpl in *; try discriminate; eauto.
Qed.

Lemma get_none_insert (m : gmap string pyval) k v : Py.get_none (<[k := v]> m) k = v.
Proof. unfold Py.get_none, Py.get. by rewrite lookup_insert_eq. Qed.

(** The round of a truthy numeric confidence [cv] leaves a confidence
    that is at least [cv]. *)
Lemma merge_field_confidence_set merged cv q merged' :
  Py.truthy cv = true → Py.to_num cv = Some q →
  merge_field merged ("confidence", cv) = Ok merged' →
  confidence_at_least q merged'.
Proof.
  intros Hcv Hq. unfold merge_field. rewrite Hcv. simpl.
  destruct (Py.truthy (Py.get_none merged "confidence")) eqn:Hold; simpl.
  - rewrite Hold. simpl. unfold Py.gt.
    destruct (Py.lt (Py.get_none merged "confidence") cv) as [b|] eqn:Hlt; simpl;
      [|done].
    destruct (lt_number_left _ _ _ _ Hq Hlt) as [x Hx].
    rewrite (lt_of_numbers _ _ _ _ _ Hx Hq Hlt).
    destruct (Qle_bool q x) eqn:Hle; simpl; intros [= <-].
    + split; [done|]. exists x. split; [done|]. by apply Qle_bool_iff.
    + unfold confidence_at_least. rewrite get_none_insert.
      split; [done|]. exists q. split; [done|]. apply Qle_refl.
  - rewrite get_none_insert, Hcv. simpl. unfold Py.gt.
    destruct (Py.lt cv cv) as [b|] eqn:Hlt; simpl; [|done].
    rewrite (lt_of_numbers _ _ _ _ _ Hq Hq Hlt).
    assert (Qle_bool q q = true) as -> by (apply Qle_bool_iff, Qle_refl).
    simpl. intros [= <-]. unfold confidence_at_least. rewrite get_none_insert.
    split; [done|]. exists q. split; [done|]. apply Qle_refl.
Qed.

(** Every later round keeps it so. *)
Lemma merge_field_confidence_keep q merged kv merged' :
  confidence_at_least q merged →
  merge_field merged kv = Ok merged' →
  confidence_at_least q merged'.
Proof.
  destruct kv as [key value]. intros (Hold & x & Hx & Hqx).
  destruct (decide (key = "confidence")) as [->|Hne].
  2: { intros Hstep. unfold confidence_at_least, Py.get_none, Py.get.
       rewrite (merge_field_other _ _ _ _ _ Hne Hstep).
       split; [done|]. by exists x. }
  unfold merge_field. rewrite Hold. simpl.
  destruct (Py.truthy value) eqn:Hv; simpl.
  2: { intros [= <-]. split; [done|]. by exists x. }
  rewrite Hold. simpl. unfold Py.gt.
  destruct (Py.lt (Py.get_none merged "confidence") value) as [b|] eqn:Hlt; simpl;
    [|done].
  destruct b; intros [= <-].
  - unfold confidence_at_least. rewrite get_none_insert. split; [done|].
    assert (∃ y, Py.to_num value = Some y) as [y Hy].
    { revert Hlt. unfold Py.lt. rewrite Hx.
      destruct (Py.get_none merged "confidence"), value; simpl in *;
        try discriminate; eauto. }
    exists y. split; [done|].
    apply (lt_of_numbers _ _ _ _ _ Hx Hy) in Hlt.
    symmetry in Hlt. apply negb_true_iff in Hlt.
    apply Qle_trans with x; [done|]. apply Qlt_le_weak, Qnot_le_lt.
    intros Hle%Qle_bool_iff. congruence.
  - split; [done|]. by exists x.
Qed.

Lemma merge_member_confidence_keep q merged fac merged' :
  confidence_at_least q merged →
  foldlM merge_field merged (map_to_list fac) = Ok merged' →
  confidence_at_least q merged'.
Proof.
  intros Hm. apply (foldlM_inv _ (confidence_at_least q)); [|done].
  intros a b a' Ha. by apply merge_field_confidence_keep.
Qed.

Lemma merge_member_confidence_set q merged fac cv merged' :
  fac !! "confidence" = Some cv → Py.truthy cv = true → Py.to_num cv = Some q →
  foldlM merge_field merged (map_to_list fac) = Ok merged' →
  confidence_at_least q merged'.
Proof.
  intros Hfac Hcv Hq.
  apply elem_of_map_to_list, list_elem_of_split in Hfac as (l1 & l2 & ->).
  intros (m1 & _ & (m2 & E2 & Hrest)%foldlM_cons_inv)%foldlM_app_inv.
  revert Hrest. apply (foldlM_inv _ (confidence_at_least q)).
  - intros a b a' Ha. by apply merge_field_confidence_keep.
  - by eapply merge_field_confidence_set.
Qed.

(** X19. For the confidence the merged record keeps the highest: when
    a group is merged, the confidence of the merged record is a number
    that is at least the confidence of every member whose confidence is
    a non-zero number. *)
Theorem merged_confidence_is_highest (base : gmap string pyval)
    (others : list (gmap string pyval)) (merged fac : gmap string pyval)
    (cv : pyval) (q : Q) :
  fac ∈ base :: others →
  fac !! "confidence" = Some cv →
  Py.truthy cv = true →
  Py.to_num cv = Some q →
  _merge_facility_group (base :: others) = Ok merged →
  ∃ qm, Py.to_num (Py.get_none merged "confidence") = Some qm ∧ (q <= qm)%Q.
Proof.
  intros Hin Hfac Hcv Hq. unfold _merge_facility_group.
  destruct (foldlM _ base others) as [m|e] eqn:E; simpl; [|done].
  intros [= <-].
  assert (Hm : confidence_at_least q m).
  { apply elem_of_cons in Hin as [->|Hin].
    - revert E. apply (foldlM_inv _ (confidence_at_least q)).
      + intros a b a' Ha. by apply merge_member_confidence_keep.
      + unfold confidence_at_least, Py.get_none, Py.get. rewrite Hfac. simpl.
        split; [done|]. exists q. split; [done|]. apply Qle_refl.
    - apply list_elem_of_split in Hin as (l1 & l2 & ->).
      apply foldlM_app_inv in E as (m1 & _ & (m2 & E2 & E)%foldlM_cons_inv).
      revert E. apply (foldlM_inv _ (confidence_at_least q)).
      + intros a b a' Ha. by apply merge_member_confidence_keep.
      + by eapply merge_member_confidence_set. }
  destruct Hm as (_ & qm & Hqm & Hle). exists qm. split; [|done].
  unfold Py.get_none, Py.get in *. by rewrite !lookup_insert_ne.
Qed.

Lemma merged_confidence_is_highest_witness :
  ∃ merged qm,
    _merge_facility_group [Samples.cand_sanand_plant; Samples.cand_sanand_unit] = Ok merged
    ∧ Py.to_num (Py.get_none merged "confidence") = Some qm ∧ (9 # 10 <= qm)%Q.
Proof.
  assert (Hok : is_ok (_merge_facility_group
                         [Samples.cand_sanand_plant; Samples.cand_sanand_unit]) = true)
    by (vm_compute; reflexivity).
  destruct (_merge_facility_group [Samples.cand_sanand_plant; Samples.cand_sanand_unit])
    as [merged|e] eqn:E; [|discriminate Hok].
  destruct (merged_confidence_is_highest Samples.cand_sanand_plant
              [Samples.cand_sanand_unit] merged Samples.cand_sanand_unit
              (VFloat (9 # 10)) (9 # 10)) as (qm & Hqm & Hle);
    [right; left|reflexivity|reflexivity|reflexivity|exact E|].
  exists merged, qm. split; [reflexivity|]. split; [exact Hqm|exact Hle].
Defined.

Lemma insert_longer_head x l :
  ∃ h t, insert_longer x l = h :: t
         ∧ (h = x ∨ ∃ t', l = h :: t' ∧ String.length x < String.length h)
         ∧ (h = x → ∀ h' t', l = h' :: t' → String.length h' ≤ String.length x).
Proof.
  destruct l as [|y l]; simpl.
  - exists x, []. split; [done|]. split; [by left|]. by intros.
  - destruct (String.length x <? String.length y) eqn:E.
    + apply Nat.ltb_lt in E. eexists _, _. split; [done|]. split.
      * right. by eexists.
      * intros ->. lia.
    + apply Nat.ltb_ge in E. eexists _, _. split; [done|]. split; [by left|].
      by intros _ h' t' [= <- <-].
Qed.

(** The head of the sorted list is a longest element. *)
Lemma sort_longest_first_head l :
  match sort_longest_first l with
  | [] => l = []
  | h :: _ => h ∈ l ∧ ∀ x, x ∈ l → String.length x ≤ String.length h
  end.
Proof.
  induction l as [|x l IH]; [done|].
  unfold sort_longest_first in *. cbn [fold_right].
  destruct (insert_longer_head x (fold_right insert_longer [] l))
    as (h & t & -> & Hh & Hx).
  destruct (fold_right insert_longer [] l) as [|h0 t0] eqn:E.
  - subst l. destruct Hh as [->|(t' & [=] & _)].
    split; [by left|]. by intros y ->%list_elem_of_singleton.
  - destruct IH as [Hin Hmax]. destruct Hh as [->|(t' & [= <- <-] & Hlt)].
    + split; [by left|]. intros y [->|Hy]%elem_of_cons; [done|].
      specialize (Hx eq_refl h0 t0 eq_refl). specialize (Hmax y Hy). lia.
    + split; [by right|]. intros y [->|Hy]%elem_of_cons; [lia|by apply Hmax].
Qed.

(** X20. [resolve_duplicate_names] returns a longest name of the list:
    a name of the list that no other name of the list exceeds in
    length, in whatever order the set of names is visited (the empty
    string for the empty list). *)
Theorem resolve_duplicate_names_longest (set_order : list string → list string)
    (name_list : list string) :
  (∀ x, x ∈ set_order name_list ↔ x ∈ name_list) →
  ∃ name, resolve_duplicate_names set_order name_list = Ok name
          ∧ (name_list ≠ [] → name ∈ name_list)
          ∧ ∀ x, x ∈ name_list → String.length x ≤ String.length name.
Proof.
  intros Hset. unfold resolve_duplicate_names.
  destruct name_list as [|a [|b l]].
  - exists "". split; [done|]. split; [done|]. by intros x ?%elem_of_nil.
  - exists a. split; [done|]. split; [by left|].
    by intros x ->%list_elem_of_singleton.
  - pose proof (sort_longest_first_head (set_order (a :: b :: l))) as Hhead.
    destruct (sort_longest_first (set_order (a :: b :: l))) as [|h t].
    + exfalso. assert (a ∈ set_order (a :: b :: l)) as Ha by (apply Hset; by left).
      rewrite Hhead in Ha. by apply elem_of_nil in Ha.
    + destruct Hhead as [Hin Hmax]. exists h. split; [done|].
      split; [intros _; by apply Hset|]. intros x Hx. by apply Hmax, Hset.
Qed.

Lemma resolve_duplicate_names_longest_witness :
  ∃ name,
    resolve_duplicate_names (fun l => elements (list_to_set l : gset string))
      ["Sanand"; "Sanand Plant"; "Sanand"] = Ok name
    ∧ (["Sanand"; "Sanand Plant"; "Sanand"] ≠ [] →
       name ∈ ["Sanand"; "Sanand Plant"; "Sanand"])
    ∧ ∀ x, x ∈ ["Sanand"; "Sanand Plant"; "Sanand"] →
           String.length x ≤ String.length name.
Proof.
  apply (resolve_duplicate_names_longest
           (fun l => elements (list_to_set l : gset string))).
  intros x. by rewrite elem_of_elements, elem_of_list_to_set.
Defined.

End MergeFacts.

(** ** Candidates that match no other *)

Module SingletonFacts.
Import EntityResolver.


Lemma should_merge_raises name1 loc1 name2 loc2 t e :
  should_merge name1 loc1 name2 loc2 t = Raise e → e = AttributeError.
Proof.
  unfold should_merge.
  destruct (normalize_name name1) as [a|e1] eqn:E1; simpl.
  2: { intros [= <-]. by eapply MergeFacts.normalize_name_raises. }
  destruct (normalize_name name2) as [b|e2] eqn:E2; simpl.
  2: { intros [= <-]. by eapply MergeFacts.normalize_name_raises. }
  by destruct (rule1 a b loc1 loc2).
Qed.



















End SingletonFacts.

(** ** The queries *)

Module QueryFacts.
Import Database GraphBuilder.

Lemma joined_rows_event_date d xt e r :
  In r (joined_rows d xt e) → r_event_date r = e_event_date e.
Proof.
  unfold joined_rows. intros (f & _ & Hr)%in_flat_map.
  apply in_flat_map in Hr as (dv & _ & Hr).
  apply in_flat_map in Hr as (ev & _ & Hr).
  apply list_elem_of_In, list_elem_of_fmap in Hr as (s & -> & _). done.
Qed.

(** X21. The date window of [query_expansions]: when both bounds are
    given, every returned record that has an event date has it inside
    the window (in the order of the date texts); only undated events
    pass the bounds unchecked. *)
Theorem query_expansions_within_dates (d : db) (date_from date_to : string) :
  date_from ≠ "" → date_to ≠ "" →
  Forall (fun x => ∀ dt, xr_event_date x = Some dt →
                         String.ltb dt date_from = false
                         ∧ String.ltb date_to dt = false)
         (query_expansions d (Some date_from) (Some date_to)).
Proof.
  intros Hf Ht. apply Forall_forall. intros x Hx dt Hdt.
  rewrite ExpansionFacts.query_expansions_kept in Hx.
  apply list_elem_of_fmap in Hx as (r & -> & Hr).
  apply ExpansionFacts.kept_rows_elem in Hr as (Hr & _).
  simpl in Hdt.
  assert (∃ e, date_where (Some date_from) (Some date_to) e = true
               ∧ r_event_date r = e_event_date e) as (e & Hwhere & He).
  { apply elem_of_app in Hr as [Hr|Hr]; unfold rows1, rows2 in Hr;
      apply list_elem_of_In, ExpansionFacts.order_by_date_desc_In,
            ExpansionFacts.distinct_In, in_flat_map in Hr as (e & He & Hr);
      apply filter_In in He as [_ He]; apply andb_true_iff in He as [_ He];
      exists e; (split; [done|]); by apply joined_rows_event_date in Hr. }
  unfold date_where, given in Hwhere.
  apply String.eqb_neq in Hf, Ht. rewrite Hf, Ht in Hwhere.
  rewrite <- He, Hdt in Hwhere. simpl in Hwhere. rewrite !orb_false_r in Hwhere.
  apply andb_true_iff in Hwhere as [H1 H2]. by apply negb_true_iff in H1, H2.
Qed.

Lemma query_expansions_within_dates_witness :
  Forall (fun x => ∀ dt, xr_event_date x = Some dt →
                         String.ltb dt "2024-01-01" = false
                         ∧ String.ltb "2024-12-31" dt = false)
         (query_expansions Samples.db_both (Some "2024-01-01") (Some "2024-12-31")).
Proof. apply query_expansions_within_dates; discriminate. Defined.

Lemma filter_sublist {A : Type} (p : A → bool) (l : list A) :
  List.filter p l `sublist_of` l.
Proof.
  induction l as [|x l IH]; simpl; [done|].
  destruct (p x); [by apply sublist_skip|by apply sublist_cons].
Qed.

(** X22. The filters of [query_facilities] only leave records out: the
    records of a filtered call are records of the unfiltered call, as
    they are there and in the same order. *)
Theorem query_facilities_filters_only_remove (d : db)
    (division state status : option string) :
  query_facilities d division state status
  `sublist_of` query_facilities d None None None.
Proof.
  unfold query_facilities.
  change (status_filter None) with (fun _ : facility_result => true).
  change (facility_where d None None) with (fun _ : facility_row => true).
  rewrite !JobFacts.filter_all.
  etrans; [apply filter_sublist|]. apply fmap_sublist, filter_sublist.
Qed.

(** X23. What a keyed batch asserts can be queried: after [build_graph]
    on a batch whose facility candidates all have a text division, name
    and city, the unfiltered [query_facilities] returns, for every
    candidate of the batch, a record with its name and city up to
    letter case. *)
Theorem keyed_batch_is_listed (batch : list Item.item) (d : db) :
  Forall keyed_item batch →
  ∃ st d', build_graph batch d = (Ok st, d')
    ∧ Forall (fun item =>
        Forall (fun fac => listed d' (structured_key fac))
               (default [] (Item.structured_facilities (Item.source item)))
        ∧ Forall (fun ent => listed d' (entity_key ent))
                 (Item.entities_facilities item)) batch.
Proof.
  intros Hbatch. unfold build_graph.
  destruct (IdempotenceFacts.ensure_company_spec d) as (cid & d0 & Hr0 & _).
  rewrite (IdempotenceFacts.bind_ok _ _ _ _ _ Hr0).
  destruct (IdempotenceFacts.for_each_spec (item_step cid) keyed_item (item_present cid))
    with (l := batch) (a := stats0) (d := d0)
    as (st1 & d1 & Hr1 & _ & Hc1 & _); [| |done|].
  { intros item da db Hg [H1 H2]. split.
    - eapply Forall_impl; [exact H1|]. intros x Hx. simpl in Hx.
      by eapply IdempotenceFacts.key_present_grows.
    - eapply Forall_impl; [exact H2|]. intros x Hx. simpl in Hx.
      by eapply IdempotenceFacts.key_present_grows. }
  { intros. by apply IdempotenceFacts.item_step_spec. }
  exists st1, d1. split; [done|].
  assert (Hlisted : ∀ k, key_present cid k d1 → listed d1 k).
  { intros [[[s n] c]|]; [|done]. intros [_ (f & Hf & Hn & Hc)].
    exists (facility_result_of d1 f). split; [|by split].
    by apply FacilityFacts.query_facilities_elem. }
  eapply Forall_impl; [exact Hc1|]. intros item [H1 H2]. split.
  - eapply Forall_impl; [exact H1|]. intros fac. apply Hlisted.
  - eapply Forall_impl; [exact H2|]. intros ent. apply Hlisted.
Qed.

End QueryFacts.

(** ** The source of the evidence rows *)

Module EvidenceFacts.
Import Database GraphBuilder.

Lemma evidence_from_same sid d d' : evidence d' = evidence d → evidence_from sid d d'.
Proof. intros H. exists []. by rewrite H, app_nil_r. Qed.

Lemma evidence_from_trans sid d1 d2 d3 :
  evidence_from sid d1 d2 → evidence_from sid d2 d3 → evidence_from sid d1 d3.
Proof.
  intros (n1 & H1 & F1) (n2 & H2 & F2). exists (n1 ++ n2).
  split; [by rewrite H2, H1, app_assoc|by apply Forall_app].
Qed.

Lemma ensure_division_evidence cid v d r d' :
  _ensure_division cid v d = (r, d') → evidence d' = evidence d.
Proof.
  unfold _ensure_division. destruct v as [| | |s];
    try (by intros [_ ->]%WriteFacts.lift_inv).
  destruct (List.filter _ (rows (divisions d))); by intros [= <- <-].
Qed.

Lemma insert_source_evidence sd d r d' :
  _insert_source sd d = (r, d') → evidence d' = evidence d.
Proof.
  unfold _insert_source, try_except, bind, lift.
  repeat (destruct (bind_text _); simpl; [|by intros [= <- <-]]).
  destruct (existsb _ _); by intros [= <- <-].
Qed.

Lemma insert_facility_evidence fac did d r d' :
  _insert_facility fac did d = (r, d') → evidence d' = evidence d.
Proof.
  unfold _insert_facility, try_except, bind, lift.
  repeat (destruct (bind_text _); simpl; [|by intros [= <- <-]]).
  destruct (List.filter _ (rows (facilities d))); [|by intros [= <- <-]].
  destruct (_normalize_name _); simpl; [|by intros [= <- <-]].
  repeat (destruct (bind_text _); simpl; [|by intros [= <- <-]]).
  by intros [= <- <-].
Qed.

Lemma insert_event_evidence fid et ed stt xt d r d' :
  _insert_event fid et ed stt xt d = (r, d') → evidence d' = evidence d.
Proof.
  unfold _insert_event, try_except, bind, lift.
  repeat (destruct (bind_text _); simpl; [|by intros [= <- <-]]).
  by intros [= <- <-].
Qed.

Lemma insert_job_evidence job sid d r d' :
  _insert_job job sid d = (r, d') → evidence d' = evidence d.
Proof.
  unfold _insert_job, try_except, bind, lift.
  repeat (destruct (bind_text _); simpl; [|by intros [= <- <-]]).
  by intros [= <- <-].
Qed.

Lemma insert_evidence_from sid ty fid text conf d r d' :
  _insert_evidence sid ty fid text conf d = (r, d') → evidence_from sid d d'.
Proof.
  unfold _insert_evidence, try_except, lift.
  destruct text; simpl; intros [= <- <-]; try by apply evidence_from_same.
  eexists. split; [reflexivity|]. by repeat constructor.
Qed.

Lemma facility_tail_evidence cid sid st fac v text conf et ed stt xt d r d' :
  bind (_ensure_division cid v) (fun division_id =>
    bind (_insert_facility fac division_id) (fun facility_id =>
      match facility_id with
      | Some fid =>
          if id_truthy facility_id then
            bind (_insert_event fid et ed stt xt) (fun _ =>
              bind (_insert_evidence sid "FACILITY" fid text conf) (fun _ =>
                ret (incr_events (incr_facilities st))))
          else ret st
      | None => ret st
      end)) d = (r, d') →
  evidence_from sid d d'.
Proof.
  intros [(did & d1 & H1 & H)|(e & H1 & ->)]%WriteFacts.bind_inv;
    apply ensure_division_evidence in H1;
    [|by apply evidence_from_same].
  apply WriteFacts.bind_inv in H as [(o & d2 & H2 & H)|(e & H2 & ->)];
    apply insert_facility_evidence in H2;
    [|apply evidence_from_same; congruence].
  assert (Hd2 : evidence d2 = evidence d) by congruence. clear H1 H2.
  destruct o as [fid|]; [|injection H as <- <-; by apply evidence_from_same].
  destruct (id_truthy _); [|injection H as <- <-; by apply evidence_from_same].
  apply WriteFacts.bind_inv in H as [(a & d3 & H3 & H)|(e & H3 & ->)];
    apply insert_event_evidence in H3;
    [|apply evidence_from_same; congruence].
  assert (Hd3 : evidence d3 = evidence d) by congruence. clear H3 Hd2.
  apply evidence_from_trans with d3; [by apply evidence_from_same|].
  apply WriteFacts.bind_inv in H as [(b & d4 & H4 & H)|(e & H4 & ->)];
    apply insert_evidence_from in H4; [|done].
  by injection H as <- <-.
Qed.

Lemma job_step_evidence (job : gmap string jval) src sid st d r d' :
  bind (_insert_job job src)
       (fun job_id => ret (if id_truthy job_id then incr_jobs st else st)) d = (r, d') →
  evidence_from sid d d'.
Proof.
  intros [(o & d1 & H1 & H)|(e & H1 & ->)]%WriteFacts.bind_inv;
    apply insert_job_evidence in H1; apply evidence_from_same; [|done].
  by injection H as <- <-.
Qed.

Lemma for_each_evidence {A B : Type} (f : A → B → M A) sid :
  (∀ a b d r d', f a b d = (r, d') → evidence_from sid d d') →
  ∀ l a d r d', for_each f a l d = (r, d') → evidence_from sid d d'.
Proof.
  intros Hf. induction l as [|b l IH]; intros a d r d'; simpl.
  { intros [= <- <-]. by apply evidence_from_same. }
  intros [(a1 & d1 & H1 & H)|(e & H1 & ->)]%WriteFacts.bind_inv.
  - eapply evidence_from_trans; [by eapply Hf|by eapply IH].
  - by eapply Hf.
Qed.

(** The evidence rows one item adds all carry the key that
    [_insert_source] returned for the item. *)
Lemma item_step_evidence cid st item d r d' :
  item_step cid st item d = (r, d') →
  ∃ sid d1, _insert_source (Item.fields (Item.source item)) d = (Ok sid, d1)
            ∧ evidence_from sid d d'.
Proof.
  unfold item_step.
  intros [(sid & d1 & H1 & H)|(e & H1 & ->)]%WriteFacts.bind_inv.
  2: { by apply WriteFacts.insert_source_writes in H1 as [_ [o [=]]]. }
  exists sid, d1. split; [done|].
  apply evidence_from_trans with d1;
    [by apply evidence_from_same, (insert_source_evidence _ _ _ _ H1)|].
  clear H1. revert H.
  intros [(st2 & d2 & H2 & H)|(e & H2 & ->)]%WriteFacts.bind_inv.
  2: { destruct (Item.structured_facilities _); [|by inversion H2].
       eapply (for_each_evidence _ sid); [|done].
       intros. by eapply facility_tail_evidence. }
  assert (evidence_from sid d1 d2).
  { destruct (Item.structured_facilities _);
      [|injection H2 as <- <-; by apply evidence_from_same].
    eapply (for_each_evidence _ sid); [|done].
    intros. by eapply facility_tail_evidence. }
  apply evidence_from_trans with d2; [done|]. clear H2. revert H.
  intros [(st3 & d3 & H3 & H)|(e & H3 & ->)]%WriteFacts.bind_inv.
  2: { destruct (Item.structured_jobs _); [|by inversion H3].
       eapply (for_each_evidence _ sid); [|done].
       intros. by eapply job_step_evidence. }
  assert (evidence_from sid d2 d3).
  { destruct (Item.structured_jobs _);
      [|injection H3 as <- <-; by apply evidence_from_same].
    eapply (for_each_evidence _ sid); [|done].
    intros. by eapply job_step_evidence. }
  apply evidence_from_trans with d3; [done|]. clear H3. revert H.
  intros [(st4 & d4 & H4 & H)|(e & H4 & ->)]%WriteFacts.bind_inv.
  2: { eapply (for_each_evidence _ sid); [|done].
       intros a b d0 r0 d0'. unfold entity_facility_step.
       intros [(city & d5 & [_ ->]%WriteFacts.lift_inv & H5)
              |(e0 & [_ ->]%WriteFacts.lift_inv & _)]%WriteFacts.bind_inv;
         [|by apply evidence_from_same].
       apply WriteFacts.bind_inv in H5
         as [(dn & d6 & [_ ->]%WriteFacts.lift_inv & H5)
            |(e0 & [_ ->]%WriteFacts.lift_inv & _)];
         [|by apply evidence_from_same].
       by eapply facility_tail_evidence. }
  assert (evidence_from sid d3 d4).
  { eapply (for_each_evidence _ sid); [|done].
    intros a b d0 r0 d0'. unfold entity_facility_step.
    intros [(city & d5 & [_ ->]%WriteFacts.lift_inv & H5)
           |(e0 & [_ ->]%WriteFacts.lift_inv & _)]%WriteFacts.bind_inv;
      [|by apply evidence_from_same].
    apply WriteFacts.bind_inv in H5
      as [(dn & d6 & [_ ->]%WriteFacts.lift_inv & H5)
         |(e0 & [_ ->]%WriteFacts.lift_inv & _)];
      [|by apply evidence_from_same].
    by eapply facility_tail_evidence. }
  apply evidence_from_trans with d4; [done|].
  eapply (for_each_evidence _ sid); [|done].
  intros. by eapply job_step_evidence.
Qed.

(** X29. Evidence of a source that is ingested again is orphaned: when
    the URL of an item is already stored, the evidence rows the loop
    body of [build_graph] writes for the item all carry a falsy
    [source_id] ([0] or [NULL]) instead of the key of the stored source,
    so no join on the source key reaches them. *)
Theorem reingested_source_orphans_evidence (cid : Z) (st : stats) (item : Item.item)
    (u : string) (d d' : db) (r : res stats) :
  Item.get (Item.fields (Item.source item)) "url" (JStr "unknown") = JStr u →
  Some u ∈ s_url <$> rows (sources d) →
  item_step cid st item d = (r, d') →
  ∃ new, rows (evidence d') = rows (evidence d) ++ new
         ∧ Forall (fun ev => id_truthy (ev_source_id ev) = false) new.
Proof.
  intros Hu Hstored (sid & d1 & Hsrc & new & Hrows & Hnew)%item_step_evidence.
  exists new. split; [done|].
  assert (Hsid : id_truthy sid = false).
  { revert Hsrc. unfold _insert_source, try_except, bind, lift. rewrite Hu. simpl.
    repeat (destruct (bind_text _); simpl; [|by intros [= <- <-]]).
    assert (existsb (fun r => sql_eq_text (s_url r) (Some u)) (rows (sources d)) = true)
      as ->; [|by intros [= <- <-]].
    apply list_elem_of_fmap in Hstored as (row & Hrow & Hin).
    apply existsb_exists. exists row. split; [by apply list_elem_of_In|].
    rewrite <- Hrow. simpl. apply String.eqb_refl. }
  eapply Forall_impl; [exact Hnew|]. intros ev ->. exact Hsid.
Qed.

Lemma reingested_source_orphans_evidence_witness :
  ∃ new,
    rows (evidence (item_step 1 stats0
                      (Samples.directory_item "https://a" [Samples.fac_brownfield])
                      Samples.db_planned).2)
    = rows (evidence Samples.db_planned) ++ new
    ∧ Forall (fun ev => id_truthy (ev_source_id ev) = false) new.
Proof.
  destruct (item_step 1 stats0
              (Samples.directory_item "https://a" [Samples.fac_brownfield])
              Samples.db_planned) as [r d'] eqn:E.
  apply (reingested_source_orphans_evidence 1 stats0
           (Samples.directory_item "https://a" [Samples.fac_brownfield])
           "https://a" Samples.db_planned d' r).
  - reflexivity.
  - vm_compute. apply list_elem_of_here.
  - exact E.
Defined.

End EvidenceFacts.

(** ** The general theorems at sample inputs *)

Module Checks.
Import Database GraphBuilder EntityResolver Samples.

Lemma keyed_batch_is_listed_witness :
  ∃ st d', build_graph [directory_item "https://a" [fac_planned; fac_brownfield]] empty_db
           = (Ok st, d')
    ∧ Forall (fun item =>
        Forall (fun fac => listed d' (structured_key fac))
               (default [] (Item.structured_facilities (Item.source item)))
        ∧ Forall (fun ent => listed d' (entity_key ent))
                 (Item.entities_facilities item))
        [directory_item "https://a" [fac_planned; fac_brownfield]].
Proof.
  apply QueryFacts.keyed_batch_is_listed. exact Instances.keyed_batch_example.
Defined.

Lemma keyed_batch_is_idempotent_witness :
  ∃ st1 d1 st2 d2,
    build_graph [directory_item "https://a" [fac_planned; fac_brownfield]] empty_db
    = (Ok st1, d1)
    ∧ build_graph [directory_item "https://a" [fac_planned; fac_brownfield]] d1
      = (Ok st2, d2)
    ∧ same_identity d1 d2
    ∧ total_divisions (get_statistics d2) = total_divisions (get_statistics d1)
    ∧ total_facilities (get_statistics d2) = total_facilities (get_statistics d1).
Proof.
  apply IdempotenceFacts.keyed_batch_is_idempotent. exact Instances.keyed_batch_example.
Defined.

Lemma build_graph_returns_witness :
  ∃ st d', build_graph batch_no_city db_planned = (Ok st, d').
Proof.
  apply IdempotenceFacts.build_graph_returns.
  repeat (apply Forall_cons_2; [|try apply Forall_nil_2]);
    (split; [|apply Forall_nil_2]); simpl;
    (apply Forall_cons_2; [|apply Forall_nil_2]); vm_compute; by eexists.
Defined.

Lemma candidates_well_typed : Forall well_typed candidates.
Proof.
  repeat (apply Forall_cons_2; [|try apply Forall_nil_2]);
    unfold well_typed, cand_sanand_plant, cand_sanand_unit, cand_pune;
    repeat (apply map_Forall_insert_2; [reflexivity|]); apply map_Forall_empty.
Qed.


Lemma resolve_facilities_returns_partition_witness :
  ∃ resolved, resolve_facilities candidates = Ok resolved
              ∧ sum_merge_count resolved = Z.of_nat (length candidates)
              ∧ length resolved ≤ length candidates.
Proof.
  apply ResolverFacts.resolve_facilities_returns_partition.
  exact candidates_well_typed.
Defined.

End Checks.
